(** * wx-flow firmware: heat-pulse flow measurement

    Shallow embedding of [hardware/wx-flow/firmware/heat_pulse.h] and of the
    constants of [hardware/wx-flow/firmware/config.h].

    Numbers are modelled the way the firmware has them:
    - [float] is IEEE-754 binary32, [double] is binary64, both as
      [spec_float] with the operations of [SpecFloat] (round to nearest,
      ties to even; NaN, infinities and signed zeros included);
    - [int16_t] and [unsigned long] are [Z] with the wrap-around written out;
    - the C library functions [logf], [sinf], [cosf], [atan2f] are not part of
      the firmware: they are parameters of the model;
    - the ADC and the millisecond clock are an input trace ([Env]); the
      heater pin and the blocking waits are recorded in the [World].

    The embedding comes first, then the lemmas on the comparison of floats,
    on the loops and on the rounding of the arithmetic (bounds on values,
    over the real numbers), then the properties of a measurement cycle and
    their instances on a test bench. The further properties at the end cover
    what a cycle does to the hardware and reads from it, the peaks as a
    function of the samples, failed thermistors, and the ranges of the
    resistance, the temperature, the direction and the velocity. *)

From Stdlib Require Import ZArith List Bool Lia Reals Lra Psatz.
From Stdlib Require Import Floats.SpecFloat.
Import ListNotations.

Local Open Scope Z_scope.

(** ** Number formats *)

Definition float := spec_float.   (* binary32 *)
Definition double := spec_float.  (* binary64 *)

Module F32.
Definition prec : Z := 24.
Definition emax : Z := 128.

Definition add := SFadd prec emax.
Definition sub := SFsub prec emax.
Definition mul := SFmul prec emax.
Definition div := SFdiv prec emax.
Definition ltb := SFltb.
Definition leb := SFleb.

(** Conversion of an integer ([int], [unsigned long]) to [float]. *)
Definition of_Z (z : Z) : float := binary_normalize prec emax z 0 false.

(** The decimal literal [n/d] written with an [f] suffix: the nearest
    binary32 number. *)
Definition lit (n : Z) (d : positive) : float :=
  match n with
  | Z0 => S754_zero false
  | Zpos p => SFdiv prec emax (S754_finite false p 0) (S754_finite false d 0)
  | Zneg p => SFdiv prec emax (S754_finite true p 0) (S754_finite false d 0)
  end.

(** Narrowing of a [double] to [float] (assignment to a [float]). *)
Definition of_double (x : double) : float :=
  match x with
  | S754_finite s m e => binary_round prec emax s m e
  | _ => x
  end.

Definition zero : float := S754_zero false.
End F32.

Module F64.
Definition prec : Z := 53.
Definition emax : Z := 1024.

Definition mul := SFmul prec emax.
Definition div := SFdiv prec emax.

(** Widening of a [float] to [double]: exact. *)
Definition of_float (x : float) : double :=
  match x with
  | S754_finite s m e => binary_round prec emax s m e
  | _ => x
  end.

Definition lit (n : positive) (d : positive) : double :=
  SFdiv prec emax (S754_finite false n 0) (S754_finite false d 0).
End F64.

Declare Scope f32_scope.
Delimit Scope f32_scope with f32.
Infix "+" := F32.add : f32_scope.
Infix "-" := F32.sub : f32_scope.
Infix "*" := F32.mul : f32_scope.
Infix "/" := F32.div : f32_scope.
Infix "<?" := F32.ltb : f32_scope.
Infix "<=?" := F32.leb : f32_scope.

(** [int16_t]: two's complement on 16 bits. *)
Definition wrap_int16 (z : Z) : Z := (z + 32768) mod 65536 - 32768.

(** [unsigned long] of the ESP32: 32 bits. *)
Definition wrap_u32 (z : Z) : Z := z mod 4294967296.

(** ** config.h *)

Definition PIN_HEATER : Z := 38.

Definition CH_THERM_N : Z := 0.
Definition CH_THERM_E : Z := 1.
Definition CH_THERM_S : Z := 2.
Definition CH_THERM_W : Z := 3.

Definition THERM_NOMINAL_R : float := Eval vm_compute in F32.lit 10000 1.
Definition THERM_NOMINAL_T : float := Eval vm_compute in F32.lit 25 1.
Definition THERM_B_COEFF : float := Eval vm_compute in F32.lit 3950 1.
Definition THERM_SERIES_R : float := Eval vm_compute in F32.lit 10000 1.

Definition HEATER_POWER_MS : Z := 4000.
Definition HEATER_SETTLE_MS : Z := 500.
Definition FLOW_SAMPLE_MS : Z := 100.
Definition FLOW_MONITOR_MS : Z := 60000.

Definition FLOW_CAL_K : float := Eval vm_compute in F32.lit 900 1.

(** [M_PI] of [math.h], a [double]. *)
Definition M_PI : double :=
  Eval vm_compute in F64.lit 314159265358979323846 100000000000000000000.

(** ** heat_pulse.h: data *)

(** A [float x[4]], indexed by channel (0 = N, 1 = E, 2 = S, 3 = W). The
    firmware only ever indexes with [0 <= j < 4]. *)
Record arr4 := Arr4 { c0 : float; c1 : float; c2 : float; c3 : float }.

Definition get (a : arr4) (j : nat) : float :=
  match j with
  | 0%nat => c0 a
  | 1%nat => c1 a
  | 2%nat => c2 a
  | _ => c3 a
  end.

Definition set (a : arr4) (j : nat) (v : float) : arr4 :=
  match j with
  | 0%nat => Arr4 v (c1 a) (c2 a) (c3 a)
  | 1%nat => Arr4 (c0 a) v (c2 a) (c3 a)
  | 2%nat => Arr4 (c0 a) (c1 a) v (c3 a)
  | 3%nat => Arr4 (c0 a) (c1 a) (c2 a) v
  | _ => a
  end.

Definition zeros : arr4 := Arr4 F32.zero F32.zero F32.zero F32.zero.

Record FlowResult := {
  velocity_cm_day : float;
  direction_deg : float;      (* 0=N, 90=E, 180=S, 270=W *)
  peak_temps : arr4;          (* peak dT for each thermistor *)
  peak_times : arr4;          (* time to peak for each thermistor *)
  valid : bool
}.

(** Assignments to the fields of the local [result]. *)
Definition set_velocity_cm_day (r : FlowResult) (v : float) : FlowResult :=
  {| velocity_cm_day := v; direction_deg := direction_deg r;
     peak_temps := peak_temps r; peak_times := peak_times r; valid := valid r |}.
Definition set_direction_deg (r : FlowResult) (v : float) : FlowResult :=
  {| velocity_cm_day := velocity_cm_day r; direction_deg := v;
     peak_temps := peak_temps r; peak_times := peak_times r; valid := valid r |}.
Definition set_valid (r : FlowResult) (b : bool) : FlowResult :=
  {| velocity_cm_day := velocity_cm_day r; direction_deg := direction_deg r;
     peak_temps := peak_temps r; peak_times := peak_times r; valid := b |}.
Definition set_peak_temps (r : FlowResult) (j : nat) (v : float) : FlowResult :=
  {| velocity_cm_day := velocity_cm_day r; direction_deg := direction_deg r;
     peak_temps := set (peak_temps r) j v; peak_times := peak_times r;
     valid := valid r |}.
Definition set_peak_times (r : FlowResult) (j : nat) (v : float) : FlowResult :=
  {| velocity_cm_day := velocity_cm_day r; direction_deg := direction_deg r;
     peak_temps := peak_temps r; peak_times := set (peak_times r) j v;
     valid := valid r |}.

(** ** Hardware: the input trace and the world *)

(** What the firmware reads from outside: the [n]-th conversion of the
    thermistor ADC (on the channel asked for) and the [n]-th reading of
    [millis()]. *)
Record Env := {
  adc_sample : nat -> Z -> Z;
  clock_ms : nat -> Z
}.

Inductive Event :=
| PinModeOutput (pin : Z)
| DigitalWrite (pin : Z) (high : bool)
| Delay (ms : Z).

Record World := {
  conversions : nat;      (* ADC conversions done so far *)
  clock_reads : nat;      (* calls of millis() so far *)
  events : list Event     (* pin writes and waits, latest first *)
}.

Definition boot : World :=
  {| conversions := 0; clock_reads := 0; events := [] |}.

(** State and non-termination: a computation may run out of fuel. *)
Definition M (A : Type) : Type := World -> option (A * World).

Definition ret {A} (a : A) : M A := fun w => Some (a, w).
Definition bind {A B} (m : M A) (k : A -> M B) : M B :=
  fun w => match m w with
           | Some (a, w') => k a w'
           | None => None
           end.
Definition out_of_fuel {A} : M A := fun _ => None.

Notation "x <- m ;; k" := (bind m (fun x => k))
  (at level 61, m at next level, right associativity).
Notation "m ;;; k" := (bind m (fun _ => k))
  (at level 61, right associativity).

Definition emit (e : Event) : M unit :=
  fun w => Some (tt, {| conversions := conversions w;
                        clock_reads := clock_reads w;
                        events := e :: events w |}).

Definition delay (ms : Z) : M unit := emit (Delay ms).
Definition pinMode_OUTPUT (pin : Z) : M unit := emit (PinModeOutput pin).
Definition digitalWrite (pin : Z) (high : bool) : M unit :=
  emit (DigitalWrite pin high).

(** [for (int i = 0; i < n; i++) body] over a loop state. *)
Fixpoint for_loop {S} (n : nat) (i : nat) (body : nat -> S -> M S) (s : S)
  : M S :=
  match n with
  | O => ret s
  | Datatypes.S n' => s' <- body i s ;; for_loop n' (Datatypes.S i) body s'
  end.

Section Firmware.

(** The C library, single precision. *)
Variable logf : float -> float.
Variable sinf : float -> float.
Variable cosf : float -> float.
Variable atan2f : float -> float -> float.

Variable env : Env.

Definition readADC_SingleEnded (channel : Z) : M Z :=
  fun w => Some (wrap_int16 (adc_sample env (conversions w) channel),
                 {| conversions := S (conversions w);
                    clock_reads := clock_reads w;
                    events := events w |}).

Definition millis : M Z :=
  fun w => Some (wrap_u32 (clock_ms env (clock_reads w)),
                 {| conversions := conversions w;
                    clock_reads := S (clock_reads w);
                    events := events w |}).

(** *** thermistor_temp *)

Definition SENTINEL : float := Eval vm_compute in F32.lit (-999) 1.

(** The two literals of the divider: volts per ADC count, [0.000125f], and
    the voltage at the top of the divider, [3.3f]. *)
Definition VOLTS_PER_COUNT : float := Eval vm_compute in F32.lit 125 1000000.
Definition DIVIDER_VREF : float := Eval vm_compute in F32.lit 33 10.

Definition voltage_of_raw (raw : Z) : float :=
  (F32.of_Z raw * VOLTS_PER_COUNT)%f32.

(** Voltage divider: V = Vref * R_therm / (R_series + R_therm). *)
Definition r_therm_of_raw (raw : Z) : float :=
  let voltage := voltage_of_raw raw in
  (THERM_SERIES_R * voltage / (DIVIDER_VREF - voltage))%f32.

(** B-parameter equation, from the thermistor resistance. *)
Definition steinhart_temp (r_therm : float) : float :=
  let steinhart := (r_therm / THERM_NOMINAL_R)%f32 in
  let steinhart := logf steinhart in
  let steinhart := (steinhart / THERM_B_COEFF)%f32 in
  let steinhart :=
    (steinhart + F32.lit 1 1 / (THERM_NOMINAL_T + F32.lit 27315 100))%f32 in
  (F32.lit 1 1 / steinhart - F32.lit 27315 100)%f32.

(** The conversion of one raw count: the body of [thermistor_temp] after
    the ADC read. *)
Definition temp_of_raw (raw : Z) : float :=
  let r_therm := r_therm_of_raw raw in
  if (r_therm <=? F32.zero)%f32 then SENTINEL
  else steinhart_temp r_therm.

Definition thermistor_temp (channel : Z) : M float :=
  raw <- readADC_SingleEnded channel ;;
  ret (temp_of_raw raw).

Definition read_all_thermistors : M arr4 :=
  out0 <- thermistor_temp CH_THERM_N ;;
  out1 <- thermistor_temp CH_THERM_E ;;
  out2 <- thermistor_temp CH_THERM_S ;;
  out3 <- thermistor_temp CH_THERM_W ;;
  ret (Arr4 out0 out1 out2 out3).

(** *** run_heat_pulse *)

(** Step 1: baseline, the average of 10 readings per thermistor. *)
Definition baseline_phase : M arr4 :=
  baseline <- for_loop 10 0 (fun _ baseline =>
      t <- read_all_thermistors ;;
      let baseline :=
        fold_left (fun b j => set b j (get b j + get t j)%f32)
                  (seq 0 4) baseline in
      delay 50 ;;;
      ret baseline) zeros ;;
  ret (fold_left (fun b j => set b j (get b j / F32.lit 10 1)%f32)
                 (seq 0 4) baseline).

(** Step 2: fire the heater. *)
Definition fire_heater : M unit :=
  pinMode_OUTPUT PIN_HEATER ;;;
  digitalWrite PIN_HEATER true ;;;
  delay HEATER_POWER_MS ;;;
  digitalWrite PIN_HEATER false ;;;
  delay HEATER_SETTLE_MS.

(** The body of the inner [for] of step 3: channel [j] of one sample,
    against the peaks recorded so far. *)
Definition track_peak (baseline t : arr4) (elapsed_s : float)
           (pk : arr4 * arr4) (j : nat) : arr4 * arr4 :=
  let (peak_dt, peak_time) := pk in
  let dt := (get t j - get baseline j)%f32 in
  if (get peak_dt j <? dt)%f32
  then (set peak_dt j dt, set peak_time j elapsed_s)
  else (peak_dt, peak_time).

Definition update_peaks (baseline t : arr4) (elapsed_s : float)
           (pk : arr4 * arr4) : arr4 * arr4 :=
  fold_left (track_peak baseline t elapsed_s) (seq 0 4) pk.

(** Step 3: the [while (millis() - start_ms < FLOW_MONITOR_MS)] loop. *)
Fixpoint monitor_loop (fuel : nat) (start_ms : Z) (baseline : arr4)
         (pk : arr4 * arr4) : M (arr4 * arr4) :=
  match fuel with
  | O => out_of_fuel
  | S fuel' =>
    now <- millis ;;
    if wrap_u32 (now - start_ms) <? FLOW_MONITOR_MS then
      t <- read_all_thermistors ;;
      now' <- millis ;;
      let elapsed_s :=
        (F32.of_Z (wrap_u32 (now' - start_ms)) / F32.lit 1000 1)%f32 in
      let pk' := update_peaks baseline t elapsed_s pk in
      delay FLOW_SAMPLE_MS ;;;
      monitor_loop fuel' start_ms baseline pk'
    else ret pk
  end.

Definition monitor_phase (fuel : nat) (baseline : arr4) : M (arr4 * arr4) :=
  start_ms <- millis ;;
  monitor_loop fuel start_ms baseline (zeros, zeros).

(** Step 4: the dominant thermistor (highest peak dT). *)
Definition dominant (peak_dt : arr4) : nat :=
  fold_left (fun max_idx j =>
               if (get peak_dt max_idx <? get peak_dt j)%f32
               then j else max_idx)
            (seq 1 3) 0%nat.

Definition STAGNANT_DT : float := Eval vm_compute in F32.lit 5 100.

(** Step 5a: direction, the weighted circular mean of the bearings. *)
Definition dirs : arr4 :=
  Arr4 (F32.lit 0 1) (F32.lit 90 1) (F32.lit 180 1) (F32.lit 270 1).

Definition rad_of (deg : float) : float :=
  F32.of_double
    (F64.div (F64.mul (F64.of_float deg) M_PI)
             (F64.of_float (F32.lit 180 1))).

Definition add_bearing (peak_dt : arr4) (sums : float * float) (j : nat)
  : float * float :=
  let (sin_sum, cos_sum) := sums in
  let rad := rad_of (get dirs j) in
  let weight := get peak_dt j in
  ((sin_sum + weight * sinf rad)%f32, (cos_sum + weight * cosf rad)%f32).

Definition bearing_sums (peak_dt : arr4) : float * float :=
  fold_left (add_bearing peak_dt) (seq 0 4) (F32.zero, F32.zero).

(** [atan2f(sin_sum, cos_sum) * 180.0f / M_PI], stored in a [float]. *)
Definition bearing_deg (peak_dt : arr4) : float :=
  let '(sin_sum, cos_sum) := bearing_sums peak_dt in
  F32.of_double
    (F64.div (F64.of_float (atan2f sin_sum cos_sum * F32.lit 180 1)%f32)
             M_PI).

Definition flow_direction (peak_dt : arr4) : float :=
  let direction := bearing_deg peak_dt in
  if (direction <? F32.zero)%f32
  then (direction + F32.lit 360 1)%f32
  else direction.

(** Step 5b: velocity from the peak delay time, v = K / t_peak. *)
Definition flow_velocity (t_peak : float) : float :=
  if (F32.lit 5 10 <? t_peak)%f32
  then (FLOW_CAL_K / t_peak)%f32
  else (FLOW_CAL_K / F32.lit 5 10)%f32.

(** The copy loop before each [return]. *)
Definition echo_peaks (result : FlowResult) (peak_dt peak_time : arr4)
  : FlowResult :=
  fold_left (fun r j =>
               set_peak_times (set_peak_temps r j (get peak_dt j))
                              j (get peak_time j))
            (seq 0 4) result.

(** Steps 4 and 5 on the local [result]. *)
Definition flow_estimate (result : FlowResult) (peak_dt peak_time : arr4)
  : FlowResult :=
  let max_idx := dominant peak_dt in
  if (get peak_dt max_idx <? STAGNANT_DT)%f32 then
    (* No measurable flow: essentially stagnant *)
    let result := set_velocity_cm_day result (F32.of_Z 0) in
    let result := set_direction_deg result (F32.of_Z (-1)) in
    let result := set_valid result true in
    echo_peaks result peak_dt peak_time
  else
    let direction := flow_direction peak_dt in
    let velocity := flow_velocity (get peak_time max_idx) in
    let result := set_velocity_cm_day result velocity in
    let result := set_direction_deg result direction in
    let result := set_valid result true in
    echo_peaks result peak_dt peak_time.

(** [uninit] is the indeterminate content of the local [result] on entry;
    [fuel] bounds the iterations of the monitoring loop. *)
Definition run_heat_pulse (uninit : FlowResult) (fuel : nat)
  : M FlowResult :=
  let result := set_valid uninit false in
  baseline <- baseline_phase ;;
  fire_heater ;;;
  pk <- monitor_phase fuel baseline ;;
  ret (flow_estimate result (fst pk) (snd pk)).

End Firmware.


(** ** Test bench

    Concrete inputs for the examples below: a C library given by the
    correctly rounded values of the mathematical functions at the arguments
    the examples reach (any other argument yields NaN), and input traces
    with one clock reading every 50 ms. *)

Module Bench.

Definition sf_eqb (x y : float) : bool :=
  match x, y with
  | S754_zero s, S754_zero t => Bool.eqb s t
  | S754_infinity s, S754_infinity t => Bool.eqb s t
  | S754_nan, S754_nan => true
  | S754_finite s m e, S754_finite t n f =>
    Bool.eqb s t && Pos.eqb m n && Z.eqb e f
  | _, _ => false
  end.

Fixpoint lookup (tbl : list (float * float)) (x : float) : float :=
  match tbl with
  | [] => S754_nan
  | (k, v) :: tbl' => if sf_eqb k x then v else lookup tbl' x
  end.

Fixpoint lookup2 (tbl : list (float * float * float)) (y x : float) : float :=
  match tbl with
  | [] => S754_nan
  | (ky, kx, v) :: tbl' =>
    if sf_eqb ky y && sf_eqb kx x then v else lookup2 tbl' y x
  end.

(** ln at the resistance ratios of the counts 13200, 13000, 13100 and
    20322, 20328, 20413, 20414. *)
Definition logf : float -> float :=
  lookup [ (S754_finite false 8388609 (-23), S754_finite false 16777215 (-47));
           (S754_finite false 16276406 (-24), S754_finite true 16269981 (-29));
           (S754_finite false 16524929 (-24), S754_finite true 16268999 (-30));
           (S754_finite false 14023800 (-22), S754_finite false 10125289 (-23));
           (S754_finite false 14041804 (-22), S754_finite false 10136051 (-23));
           (S754_finite false 14300707 (-22), S754_finite false 10289312 (-23));
           (S754_finite false 14303801 (-22), S754_finite false 10291127 (-23)) ].

(** sin and cos at the four bearings, in radians as the firmware computes
    them: 0, 1.57079637, 3.14159274, 4.71238899. *)
Definition sinf : float -> float :=
  lookup [ (S754_zero false, S754_zero false);
           (S754_finite false 13176795 (-23), S754_finite false 8388608 (-23));
           (S754_finite false 13176795 (-22), S754_finite true 12303662 (-47));
           (S754_finite false 9882596 (-21), S754_finite true 8388608 (-23)) ].

Definition cosf : float -> float :=
  lookup [ (S754_zero false, S754_finite false 8388608 (-23));
           (S754_finite false 13176795 (-23), S754_finite true 12303662 (-48));
           (S754_finite false 13176795 (-22), S754_finite true 8388608 (-23));
           (S754_finite false 9882596 (-21), S754_finite false 13426222 (-50)) ].

(** atan2 at the sums of the examples. *)
Definition atan2f : float -> float -> float :=
  lookup2 [ (S754_finite false 11454464 (-25), S754_finite false 11468800 (-24),
             S754_finite false 15540651 (-25));
            (S754_finite false 8388608 (-23), S754_finite false 16777215 (-24),
             S754_finite false 13176795 (-24));
            (S754_finite true 12303662 (-48), S754_finite false 8388608 (-24),
             S754_finite true 12303662 (-47));
            (S754_zero false, S754_finite false 13421773 (-28),
             S754_zero false);
            (S754_finite true 8400193 (-48), S754_finite false 11483136 (-25),
             S754_finite true 12272941 (-47)) ].

(** Every conversion reads 13200 counts (25 degrees C): no heat arrives. *)
Definition still : Env :=
  {| adc_sample := fun _ _ => 13200;
     clock_ms := fun n => 1000 + 50 * Z.of_nat n |}.

(** The 40 baseline conversions read 13200 counts; in the monitoring loop
    the north channel reads 13000 counts in samples 20..39 and the east
    channel 13100 counts in samples 30..49. *)
Definition pulse : Env :=
  {| adc_sample := fun n channel =>
       let k := (Z.of_nat n - 40) / 4 in
       if Z.of_nat n <? 40 then 13200
       else if (channel =? CH_THERM_N) && (20 <=? k) && (k <? 40) then 13000
       else if (channel =? CH_THERM_E) && (30 <=? k) && (k <? 50) then 13100
       else 13200;
     clock_ms := fun n => 1000 + 50 * Z.of_nat n |}.

(** As [pulse], with the later rise on the south channel instead of the
    east one. *)
Definition north_south : Env :=
  {| adc_sample := fun n channel =>
       let k := (Z.of_nat n - 40) / 4 in
       if Z.of_nat n <? 40 then 13200
       else if (channel =? CH_THERM_N) && (20 <=? k) && (k <? 40) then 13000
       else if (channel =? CH_THERM_S) && (30 <=? k) && (k <? 50) then 13100
       else 13200;
     clock_ms := fun n => 1000 + 50 * Z.of_nat n |}.


(** Some content of the uninitialised local [result]. *)
Definition garbage : FlowResult :=
  {| velocity_cm_day := S754_nan; direction_deg := S754_infinity true;
     peak_temps := Arr4 S754_nan S754_nan S754_nan S754_nan;
     peak_times := Arr4 S754_nan S754_nan S754_nan S754_nan;
     valid := false |}.

Definition run (env : Env) (fuel : nat) : option (FlowResult * World) :=
  run_heat_pulse logf sinf cosf atan2f env garbage fuel boot.

(** What the cycles return, and the world they leave. *)
Definition still_run : FlowResult * World :=
  Eval vm_compute in
    match run still 601 with Some x => x | None => (garbage, boot) end.
Definition still_result : FlowResult := Eval vm_compute in fst still_run.
Definition still_world : World := Eval vm_compute in snd still_run.

Definition pulse_run : FlowResult * World :=
  Eval vm_compute in
    match run pulse 601 with Some x => x | None => (garbage, boot) end.
Definition pulse_result : FlowResult := Eval vm_compute in fst pulse_run.
Definition pulse_world : World := Eval vm_compute in snd pulse_run.

Definition north_south_run : FlowResult * World :=
  Eval vm_compute in
    match run north_south 601 with Some x => x | None => (garbage, boot) end.
Definition north_south_result : FlowResult :=
  Eval vm_compute in fst north_south_run.
Definition north_south_world : World := Eval vm_compute in snd north_south_run.


End Bench.

(** ** Predicates used in the statements *)

Definition is_nan (x : float) : bool :=
  match x with S754_nan => true | _ => false end.

(** No channel of the array is below zero (which excludes NaN). *)
Definition nonneg4 (a : arr4) : Prop :=
  forall j, (j < 4)%nat -> (F32.zero <=? get a j)%f32 = true.

Definition no_nan4 (a : arr4) : Prop :=
  forall j, (j < 4)%nat -> is_nan (get a j) = false.

(** A computation that always returns and does not read the clock. *)
Definition steady {A} (m : M A) : Prop :=
  forall w, exists a w', m w = Some (a, w') /\ clock_reads w' = clock_reads w.

(** The [i]-th evaluation of the loop condition (counted from 0, with the
    clock read for [start_ms] taken in world [w]) finds the window over. *)
Definition window_over (env : Env) (w : World) (i : nat) : Prop :=
  FLOW_MONITOR_MS <=
  wrap_u32 (wrap_u32 (clock_ms env (clock_reads w + 1 + 2 * i))
            - wrap_u32 (clock_ms env (clock_reads w))).

(** ** Values of floating-point numbers

    Used to state what is assumed of the C library and to bound what the
    arithmetic returns. *)

Definition bpow (e : Z) : R := powerRZ 2 e.

(** The magnitude of a finite number (0 for zeros, infinities and NaN). *)
Definition mag (x : spec_float) : R :=
  match x with
  | S754_finite _ m e => (IZR (Zpos m) * bpow e)%R
  | _ => 0%R
  end.

(** [x] is a zero, an infinity or a finite number of sign [s]. *)
Definition sign_is (s : bool) (x : spec_float) : Prop :=
  match x with
  | S754_zero t | S754_infinity t | S754_finite t _ _ => t = s
  | S754_nan => False
  end.

Definition sval (x : spec_float) : R :=
  match x with
  | S754_finite s m e => (IZR (cond_Zopp s (Zpos m)) * bpow e)%R
  | _ => 0%R
  end.

(** Every recorded time is a number that is not negative. *)
Definition times_ok (a : arr4) : Prop :=
  forall j, (j < 4)%nat -> sign_is false (get a j).

Definition unit_roundoff (prec : Z) : R := bpow (1 - prec).
Definition tiny (prec emax : Z) : R := bpow (emin prec emax).

(** *** What is assumed of the C library *)


(** On arguments from 2^-15 on, [logf] returns binary32 numbers, none below
    -11 (ln 2^-15 is about -10.4); NaN is allowed. *)
Definition logf_in_range (logf : float -> float) : Prop :=
  forall x, (F32.lit 1 32768 <=? x)%f32 = true ->
            valid_binary F32.prec F32.emax (logf x) = true /\
            (logf x <? F32.lit (-11) 1)%f32 = false.

(** *** The two halves of [flow_direction] *)

(** [atan2f(..) * 180.0f / M_PI] stored in a [float], as a function of the
    value of [atan2f]. *)
Definition degrees_of (a : float) : float :=
  F32.of_double (F64.div (F64.of_float (a * F32.lit 180 1)%f32) M_PI).

(** [if (direction < 0) direction += 360.0f]. *)
Definition normalise (direction : float) : float :=
  if (direction <? F32.zero)%f32
  then (direction + F32.lit 360 1)%f32
  else direction.

(** *** The counts of the ADC *)

(** What the divider gives for one count: no resistance above zero up to
    count 0 and from count 26400 on, and in between a resistance whose ratio
    to the nominal one is at least 2^-15. *)
Definition raw_ok (raw : Z) : bool :=
  let r_therm := r_therm_of_raw raw in
  if (r_therm <=? F32.zero)%f32
  then (raw <=? 0) || (26400 <=? raw)
  else (0 <? raw) && (raw <? 26400)
       && (F32.lit 1 32768 <=? r_therm / THERM_NOMINAL_R)%f32.

(** A check of every [int16_t] value. *)
Definition int16_all (f : Z -> bool) : bool :=
  forallb (fun hi =>
             forallb (fun lo => f (256 * Z.of_nat hi + Z.of_nat lo - 32768))
                     (seq 0 256))
          (seq 0 256).

(** ** Definitions for the further properties *)

(** *** What a cycle does and reads *)

(** [ThermTimeSeries::MAX_SAMPLES]: the samples of one monitoring window,
    60 s at 100 ms intervals. *)
Definition MAX_SAMPLES : nat := 600.

(** What the hardware sees of one cycle with [n] samples, oldest first. *)
Definition cycle_events (n : nat) : list Event :=
  repeat (Delay 50) 10
  ++ [PinModeOutput PIN_HEATER; DigitalWrite PIN_HEATER true;
      Delay HEATER_POWER_MS; DigitalWrite PIN_HEATER false;
      Delay HEATER_SETTLE_MS]
  ++ repeat (Delay FLOW_SAMPLE_MS) n.

(** A computation that always returns, after [dc] conversions and the
    events [evs] (latest first), without reading the clock. *)
Definition leaves {A} (m : M A) (dc : nat) (evs : list Event) : Prop :=
  forall w, exists a w',
    m w = Some (a, w') /\
    conversions w' = (dc + conversions w)%nat /\
    clock_reads w' = clock_reads w /\
    events w' = evs ++ events w.

(** The clock started [k] ms earlier or later. *)
Definition shift_clock (k : Z) (env : Env) : Env :=
  {| adc_sample := adc_sample env;
     clock_ms := fun n => clock_ms env n + k |}.

(** Each pass of the monitoring loop takes at least the sampling interval by
    the clock, and the first [MAX_SAMPLES] passes less than 2^32 ms. *)
Definition paced (env : Env) (w : World) : Prop :=
  let c := clock_reads w in
  clock_ms env c <= clock_ms env (c + 1) /\
  (forall i, (i < MAX_SAMPLES)%nat ->
     clock_ms env (c + 1 + 2 * i) + FLOW_SAMPLE_MS
     <= clock_ms env (c + 1 + 2 * S i)) /\
  clock_ms env (c + 1 + 2 * MAX_SAMPLES) - clock_ms env c < 4294967296.

(** *** Thermistors without a resistance *)

(** Every conversion reads a count without a resistance. *)
Definition open_circuit (env : Env) : Prop :=
  forall n channel,
    let raw := wrap_int16 (adc_sample env n channel) in
    raw <= 0 \/ 26400 <= raw.

(** Every conversion of channel [j] reads a count without a resistance. *)
Definition open_channel (env : Env) (j : nat) : Prop :=
  forall n,
    let raw := wrap_int16 (adc_sample env n (Z.of_nat j)) in
    raw <= 0 \/ 26400 <= raw.

(** The result of a cycle that saw nothing. *)
Definition no_flow : FlowResult :=
  {| velocity_cm_day := F32.of_Z 0; direction_deg := F32.of_Z (-1);
     peak_temps := zeros; peak_times := zeros; valid := true |}.

Definition all_sentinel : arr4 := Arr4 SENTINEL SENTINEL SENTINEL SENTINEL.

(** Every conversion reads count 0: nothing is connected. *)
Definition unplugged : Env :=
  {| adc_sample := fun _ _ => 0;
     clock_ms := fun n => 1000 + 50 * Z.of_nat n |}.

(** Channel 0 reads count 0 throughout; the other channels read as in
    [Bench.pulse]. *)
Definition north_open : Env :=
  {| adc_sample := fun n channel =>
       if channel =? CH_THERM_N then 0 else adc_sample Bench.pulse n channel;
     clock_ms := fun n => 1000 + 50 * Z.of_nat n |}.

(** *** The peaks, on the samples of a cycle *)

(** A channel either never rose (peak and time are still +0) or holds a
    peak above zero. *)
Definition coupled (peak_dt peak_time : arr4) : Prop :=
  forall j, (j < 4)%nat ->
    (get peak_dt j = F32.zero /\ get peak_time j = F32.zero) \/
    (F32.zero <? get peak_dt j)%f32 = true.

(** The temperature of channel [j] in the [k]-th round of four conversions
    after conversion [c]. *)
Definition reading (logf : float -> float) (env : Env) (c k j : nat) : float :=
  temp_of_raw logf (wrap_int16 (adc_sample env (c + 4 * k + j) (Z.of_nat j))).

(** The average of the ten readings of channel [j] from conversion [c] on,
    summed in order. *)
Definition baseline_of (logf : float -> float) (env : Env) (c j : nat) : float :=
  (fold_left (fun b k => b + reading logf env c k j)%f32 (seq 0 10) F32.zero
   / F32.lit 10 1)%f32.

(** The rise of channel [j] in sample [k] of a cycle that starts at
    conversion [c]: 40 conversions go to the baseline. *)
Definition rise (logf : float -> float) (env : Env) (c k j : nat) : float :=
  (reading logf env (c + 40) k j - baseline_of logf env c j)%f32.

(** The time of sample [k], in seconds since the start of monitoring, in a
    cycle that starts at clock reading [cr]. *)
Definition elapsed_of (env : Env) (cr k : nat) : float :=
  (F32.of_Z (wrap_u32 (wrap_u32 (clock_ms env (cr + 2 + 2 * k))
                       - wrap_u32 (clock_ms env cr)))
   / F32.lit 1000 1)%f32.

(** The same, against a given baseline and from a given start. *)
Definition rise_over (logf : float -> float) (env : Env) (baseline : arr4)
           (c j k : nat) : float :=
  (reading logf env c k j - get baseline j)%f32.

Definition elapsed_from (env : Env) (start_ms : Z) (cr k : nat) : float :=
  (F32.of_Z (wrap_u32 (wrap_u32 (clock_ms env (cr + 1 + 2 * k)) - start_ms))
   / F32.lit 1000 1)%f32.

(** What the monitoring loop holds for one channel after [n] samples with
    the rises [dt] at the times [at_s]: no sample rose above the peak, and the
    peak is still +0 at time +0 or is the rise of the first sample that
    reached it, at the time of that sample. *)
Definition tracked (dt at_s : nat -> float) (n : nat) (peak time : float)
  : Prop :=
  (forall k, (k < n)%nat -> (peak <? dt k)%f32 = false) /\
  ((peak = F32.zero /\ time = F32.zero) \/
   exists k, (k < n)%nat /\ peak = dt k /\ time = at_s k /\
             forall k', (k' < k)%nat -> (dt k <=? dt k')%f32 = false).

(** *** Numbers within bounds *)

(** [r] is a zero or a finite number of magnitude at most [B]. *)
Definition within (B : R) (r : spec_float) : Prop :=
  match r with
  | S754_zero _ => True
  | S754_finite _ m e => (IZR (Zpos m) * bpow e <= B)%R
  | _ => False
  end.

Definition is_zero (r : spec_float) : bool :=
  match r with S754_zero _ => true | _ => false end.

(** A time read off the clock: +0 or a valid positive number of at most
    2^23 seconds. *)
Definition elapsed_ok (t : float) : Prop :=
  sign_is false t /\ valid_binary F32.prec F32.emax t = true /\
  within 8388608 t.

Definition finite_nonzero (x : float) : bool :=
  match x with S754_finite _ _ _ => true | _ => false end.

(** A zero or a finite number: neither NaN nor an infinity. *)
Definition is_number (x : float) : bool :=
  match x with S754_zero _ | S754_finite _ _ _ => true | _ => false end.

(** *** The counts of the ADC, continued *)

(** What the divider computes for one count: a denominator that is a
    number other than zero, above zero exactly below count 26400, and a
    resistance that is a number. *)
Definition divider_ok (raw : Z) : bool :=
  let den := (DIVIDER_VREF - voltage_of_raw raw)%f32 in
  finite_nonzero den
  && Bool.eqb (F32.zero <? den)%f32 (raw <? 26400)
  && is_number (r_therm_of_raw raw).

(** The resistance of a count against that of the next count, where both
    have one. *)
Definition resistance_rises (raw : Z) : bool :=
  if (0 <? raw) && (raw <? 26399)
  then (r_therm_of_raw raw <? r_therm_of_raw (raw + 1))%f32
  else true.

(** The argument of [logf] for one count that has a resistance: a number
    between 2^-15 and 2^15. *)
Definition ratio_ok (raw : Z) : bool :=
  let r_therm := r_therm_of_raw raw in
  if (r_therm <=? F32.zero)%f32 then true
  else
    let x := (r_therm / THERM_NOMINAL_R)%f32 in
    finite_nonzero x && (F32.zero <? x)%f32
    && (F32.lit 1 32768 <=? x)%f32 && (x <=? F32.lit 32768 1)%f32.

(** ** The order of [SFcompare] *)

Ltac sf_case x := destruct x as [[|]|[|]| |[|] ? ?].

Ltac sf_cmp :=
  cbn in *;
  repeat match goal with
         | |- context [Pos.compare_cont Eq ?a ?b] =>
           change (Pos.compare_cont Eq a b) with (Pos.compare a b)
         | H : context [Pos.compare_cont Eq ?a ?b] |- _ =>
           change (Pos.compare_cont Eq a b) with (Pos.compare a b) in H
         end;
  repeat match goal with
         | |- context [Z.compare ?a ?b] =>
           destruct (Z.compare_spec a b); cbn in *
         | H : context [Z.compare ?a ?b] |- _ =>
           destruct (Z.compare_spec a b); cbn in *
         | |- context [Pos.compare ?a ?b] =>
           destruct (Pos.compare_spec a b); cbn in *
         | H : context [Pos.compare ?a ?b] |- _ =>
           destruct (Pos.compare_spec a b); cbn in *
         end;
  try congruence; try lia.

Lemma ltb_not_nan (a b : float) :
  (a <? b)%f32 = true -> is_nan a = false /\ is_nan b = false.
Proof. unfold F32.ltb, SFltb. sf_case a; sf_case b; cbn; intuition congruence. Qed.

Lemma leb_not_nan (a b : float) :
  (a <=? b)%f32 = true -> is_nan a = false /\ is_nan b = false.
Proof. unfold F32.leb, SFleb. sf_case a; sf_case b; cbn; intuition congruence. Qed.

(** On numbers, [<] and [<=] are each other's complement. *)
Lemma ltb_false_leb (a b : float) :
  is_nan a = false -> is_nan b = false ->
  (a <? b)%f32 = false -> (b <=? a)%f32 = true.
Proof.
  unfold F32.ltb, F32.leb, SFltb, SFleb.
  sf_case a; sf_case b; intros; sf_cmp.
Qed.

Lemma leb_ltb_false (a b : float) :
  (b <=? a)%f32 = true -> (a <? b)%f32 = false.
Proof.
  unfold F32.ltb, F32.leb, SFltb, SFleb.
  sf_case a; sf_case b; intros; sf_cmp.
Qed.

Lemma ltb_leb (a b : float) : (a <? b)%f32 = true -> (a <=? b)%f32 = true.
Proof.
  unfold F32.ltb, F32.leb, SFltb, SFleb.
  destruct (SFcompare a b) as [[| |]|]; congruence.
Qed.

Lemma leb_trans (a b c : float) :
  (a <=? b)%f32 = true -> (b <=? c)%f32 = true -> (a <=? c)%f32 = true.
Proof.
  unfold F32.leb, SFleb.
  sf_case a; sf_case b; try (cbn; congruence);
    sf_case c; intros; sf_cmp.
Qed.

Lemma leb_ltb_trans (a b c : float) :
  (a <=? b)%f32 = true -> (b <? c)%f32 = true -> (a <? c)%f32 = true.
Proof.
  unfold F32.leb, F32.ltb, SFleb, SFltb.
  sf_case a; sf_case b; try (cbn; congruence);
    sf_case c; intros; sf_cmp.
Qed.

Lemma ltb_leb_trans (a b c : float) :
  (a <? b)%f32 = true -> (b <=? c)%f32 = true -> (a <? c)%f32 = true.
Proof.
  unfold F32.leb, F32.ltb, SFleb, SFltb.
  sf_case a; sf_case b; try (cbn; congruence);
    sf_case c; intros; sf_cmp.
Qed.

Lemma leb_refl (a : float) : is_nan a = false -> (a <=? a)%f32 = true.
Proof.
  unfold F32.leb, SFleb. sf_case a; intros; sf_cmp;
    rewrite ?Z.compare_refl, ?Pos.compare_refl in *; cbn; congruence.
Qed.

(** ** Arrays *)

Lemma get_set_same (a : arr4) (j : nat) (v : float) :
  (j < 4)%nat -> get (set a j v) j = v.
Proof. intros H. do 4 (destruct j as [|j]; [reflexivity|]). lia. Qed.

Lemma get_set_other (a : arr4) (i j : nat) (v : float) :
  (i < 4)%nat -> i <> j -> get (set a j v) i = get a i.
Proof.
  intros Hi Hij.
  do 4 (destruct j as [|j];
        [do 4 (destruct i as [|i]; [reflexivity || congruence|]); lia|]).
  reflexivity.
Qed.

(** ** The monad *)

Lemma bind_Some {A B} (m : M A) (k : A -> M B) (w w' : World) (b : B) :
  bind m k w = Some (b, w') <->
  exists a w1, m w = Some (a, w1) /\ k a w1 = Some (b, w').
Proof.
  unfold bind. split.
  - destruct (m w) as [[a w1]|]; [eauto | discriminate].
  - intros (a & w1 & -> & H). exact H.
Qed.

Lemma steady_ret {A} (a : A) : steady (ret a).
Proof. intros w. exists a, w. split; reflexivity. Qed.

Lemma steady_bind {A B} (m : M A) (k : A -> M B) :
  steady m -> (forall a, steady (k a)) -> steady (bind m k).
Proof.
  intros Hm Hk w. destruct (Hm w) as (a & w1 & E1 & C1).
  destruct (Hk a w1) as (b & w2 & E2 & C2).
  exists b, w2. unfold bind. rewrite E1. split; [exact E2 | congruence].
Qed.

Lemma steady_emit (e : Event) : steady (emit e).
Proof. intros w. eexists _, _. split; reflexivity. Qed.

Lemma steady_for_loop {S} (body : nat -> S -> M S) :
  (forall i s, steady (body i s)) ->
  forall n i s, steady (for_loop n i body s).
Proof.
  intros Hb n. induction n as [|n IH]; intros i s; cbn.
  - apply steady_ret.
  - apply steady_bind; [apply Hb | intros s'; apply IH].
Qed.

Section FirmwareFacts.

Variable logf sinf cosf : float -> float.
Variable atan2f : float -> float -> float.
Variable env : Env.

Lemma steady_thermistor_temp (channel : Z) :
  steady (thermistor_temp logf env channel).
Proof. intros w. eexists _, _. split; reflexivity. Qed.

Lemma steady_read_all_thermistors : steady (read_all_thermistors logf env).
Proof.
  unfold read_all_thermistors.
  repeat (apply steady_bind; [apply steady_thermistor_temp | intros ?]).
  apply steady_ret.
Qed.

Lemma steady_baseline_phase : steady (baseline_phase logf env).
Proof.
  unfold baseline_phase. apply steady_bind; [|intros; apply steady_ret].
  apply steady_for_loop. intros i s.
  apply steady_bind; [apply steady_read_all_thermistors | intros t].
  apply steady_bind; [apply steady_emit | intros; apply steady_ret].
Qed.

Lemma steady_fire_heater : steady fire_heater.
Proof.
  unfold fire_heater, pinMode_OUTPUT, digitalWrite, delay.
  repeat (apply steady_bind; [apply steady_emit | intros ?]).
  apply steady_emit.
Qed.

(** *** Peak tracking *)

Lemma track_peak_same (baseline t : arr4) (elapsed_s : float)
      (peak_dt peak_time : arr4) (j : nat) :
  (j < 4)%nat ->
  let dt := (get t j - get baseline j)%f32 in
  let pk' := track_peak baseline t elapsed_s (peak_dt, peak_time) j in
  if (get peak_dt j <? dt)%f32
  then get (fst pk') j = dt /\ get (snd pk') j = elapsed_s
  else get (fst pk') j = get peak_dt j /\ get (snd pk') j = get peak_time j.
Proof.
  intros Hj. cbv zeta. unfold track_peak.
  destruct (get peak_dt j <? get t j - get baseline j)%f32; cbn [fst snd].
  - rewrite !get_set_same by assumption. split; reflexivity.
  - split; reflexivity.
Qed.

Lemma track_peak_other (baseline t : arr4) (elapsed_s : float)
      (pk : arr4 * arr4) (i j : nat) :
  (i < 4)%nat -> i <> j ->
  let pk' := track_peak baseline t elapsed_s pk j in
  get (fst pk') i = get (fst pk) i /\ get (snd pk') i = get (snd pk) i.
Proof.
  intros Hi Hij. cbv zeta. destruct pk as [peak_dt peak_time].
  unfold track_peak.
  destruct (get peak_dt j <? get t j - get baseline j)%f32; cbn [fst snd].
  - rewrite !get_set_other by assumption. split; reflexivity.
  - split; reflexivity.
Qed.

(** What one sample does to channel [j]. *)
Lemma update_peaks_channel (baseline t : arr4) (elapsed_s : float)
      (peak_dt peak_time : arr4) (j : nat) :
  (j < 4)%nat ->
  let dt := (get t j - get baseline j)%f32 in
  let pk' := update_peaks baseline t elapsed_s (peak_dt, peak_time) in
  if (get peak_dt j <? dt)%f32
  then get (fst pk') j = dt /\ get (snd pk') j = elapsed_s
  else get (fst pk') j = get peak_dt j /\ get (snd pk') j = get peak_time j.
Proof.
  intros Hj. cbv zeta. unfold update_peaks. cbn [seq fold_left].
  set (s0 := (peak_dt, peak_time)).
  set (s1 := track_peak baseline t elapsed_s s0 0).
  set (s2 := track_peak baseline t elapsed_s s1 1).
  set (s3 := track_peak baseline t elapsed_s s2 2).
  set (s4 := track_peak baseline t elapsed_s s3 3).
  assert (O0 : forall i, (i < 4)%nat -> i <> 0%nat ->
            get (fst s1) i = get (fst s0) i /\ get (snd s1) i = get (snd s0) i)
    by (intros; apply track_peak_other; assumption).
  assert (O1 : forall i, (i < 4)%nat -> i <> 1%nat ->
            get (fst s2) i = get (fst s1) i /\ get (snd s2) i = get (snd s1) i)
    by (intros; apply track_peak_other; assumption).
  assert (O2 : forall i, (i < 4)%nat -> i <> 2%nat ->
            get (fst s3) i = get (fst s2) i /\ get (snd s3) i = get (snd s2) i)
    by (intros; apply track_peak_other; assumption).
  assert (O3 : forall i, (i < 4)%nat -> i <> 3%nat ->
            get (fst s4) i = get (fst s3) i /\ get (snd s4) i = get (snd s3) i)
    by (intros; apply track_peak_other; assumption).
  assert (S0 := track_peak_same baseline t elapsed_s (fst s0) (snd s0) 0).
  assert (S1 := track_peak_same baseline t elapsed_s (fst s1) (snd s1) 1).
  assert (S2 := track_peak_same baseline t elapsed_s (fst s2) (snd s2) 2).
  assert (S3 := track_peak_same baseline t elapsed_s (fst s3) (snd s3) 3).
  cbv zeta in S0, S1, S2, S3.
  rewrite <- !surjective_pairing in S0, S1, S2, S3.
  fold s1 in S0. fold s2 in S1. fold s3 in S2. fold s4 in S3.
  destruct j as [|[|[|[|j]]]]; [| | | |lia].
  - destruct (O1 0%nat) as [A1 B1]; [lia..|].
    destruct (O2 0%nat) as [A2 B2]; [lia..|].
    destruct (O3 0%nat) as [A3 B3]; [lia..|].
    rewrite A3, A2, A1, B3, B2, B1. apply S0. lia.
  - destruct (O0 1%nat) as [A0 B0]; [lia..|].
    destruct (O2 1%nat) as [A2 B2]; [lia..|].
    destruct (O3 1%nat) as [A3 B3]; [lia..|].
    rewrite A3, A2, B3, B2. change peak_dt with (fst s0).
    change peak_time with (snd s0). rewrite <- A0, <- B0. apply S1. lia.
  - destruct (O0 2%nat) as [A0 B0]; [lia..|].
    destruct (O1 2%nat) as [A1 B1]; [lia..|].
    destruct (O3 2%nat) as [A3 B3]; [lia..|].
    rewrite A3, B3. change peak_dt with (fst s0).
    change peak_time with (snd s0). rewrite <- A0, <- B0, <- A1, <- B1.
    apply S2. lia.
  - destruct (O0 3%nat) as [A0 B0]; [lia..|].
    destruct (O1 3%nat) as [A1 B1]; [lia..|].
    destruct (O2 3%nat) as [A2 B2]; [lia..|].
    change peak_dt with (fst s0). change peak_time with (snd s0).
    rewrite <- A0, <- B0, <- A1, <- B1, <- A2, <- B2. apply S3. lia.
Qed.

Lemma nonneg4_zeros : nonneg4 zeros.
Proof. intros j Hj. do 4 (destruct j as [|j]; [reflexivity|]). lia. Qed.

Lemma update_peaks_nonneg (baseline t : arr4) (elapsed_s : float)
      (pk : arr4 * arr4) :
  nonneg4 (fst pk) -> nonneg4 (fst (update_peaks baseline t elapsed_s pk)).
Proof.
  destruct pk as [peak_dt peak_time]. intros H j Hj.
  pose proof (update_peaks_channel baseline t elapsed_s peak_dt peak_time j Hj)
    as U. cbv zeta in U.
  destruct (get peak_dt j <? get t j - get baseline j)%f32 eqn:E.
  - destruct U as [-> _]. apply ltb_leb.
    eapply leb_ltb_trans; [apply (H j Hj) | exact E].
  - destruct U as [-> _]. apply (H j Hj).
Qed.

Lemma monitor_loop_nonneg (fuel : nat) :
  forall start_ms baseline pk w pk' w',
    monitor_loop logf env fuel start_ms baseline pk w = Some (pk', w') ->
    nonneg4 (fst pk) -> nonneg4 (fst pk').
Proof.
  induction fuel as [|fuel IH]; intros start_ms baseline pk w pk' w' E H.
  - discriminate.
  - cbn [monitor_loop] in E.
    apply bind_Some in E. destruct E as (now & w1 & _ & E).
    destruct (wrap_u32 (now - start_ms) <? FLOW_MONITOR_MS).
    + apply bind_Some in E. destruct E as (t & w2 & _ & E).
      apply bind_Some in E. destruct E as (now' & w3 & _ & E).
      apply bind_Some in E. destruct E as (u & w4 & _ & E).
      eapply IH; [exact E|]. apply update_peaks_nonneg, H.
    + inversion E; subst. exact H.
Qed.

(** *** Termination of the monitoring window *)

Lemma monitor_loop_returns (i : nat) :
  forall fuel start_ms baseline pk w,
    (i < fuel)%nat ->
    FLOW_MONITOR_MS <=
      wrap_u32 (wrap_u32 (clock_ms env (clock_reads w + 2 * i)) - start_ms) ->
    exists pk' w', monitor_loop logf env fuel start_ms baseline pk w
                   = Some (pk', w').
Proof.
  induction i as [|i IH]; intros fuel start_ms baseline pk w Hf Hw;
    (destruct fuel as [|fuel]; [lia|]); cbn [monitor_loop].
  - unfold bind at 1. cbn [millis].
    replace (clock_reads w + 2 * 0)%nat with (clock_reads w) in Hw by lia.
    destruct (Z.ltb_spec (wrap_u32 (wrap_u32 (clock_ms env (clock_reads w))
                                    - start_ms)) FLOW_MONITOR_MS); [lia|].
    eexists _, _. reflexivity.
  - unfold bind at 1. cbn [millis].
    destruct (wrap_u32 (wrap_u32 (clock_ms env (clock_reads w)) - start_ms)
              <? FLOW_MONITOR_MS); [|eexists _, _; reflexivity].
    match goal with |- context [bind _ _ ?w0] => set (w1 := w0) end.
    destruct (steady_read_all_thermistors w1) as (t & w2 & E2 & C2).
    unfold bind at 1. rewrite E2.
    unfold bind at 1. cbn [millis].
    unfold bind at 1. cbn [delay emit].
    apply IH; [lia|]. cbn [clock_reads].
    rewrite C2. subst w1. cbn [clock_reads].
    replace (S (S (clock_reads w)) + 2 * i)%nat
      with (clock_reads w + 2 * S i)%nat by lia.
    exact Hw.
Qed.

Lemma run_heat_pulse_returns (uninit : FlowResult) (fuel i : nat) (w : World) :
  window_over env w i -> (i < fuel)%nat ->
  exists r w', run_heat_pulse logf sinf cosf atan2f env uninit fuel w
               = Some (r, w').
Proof.
  intros Hw Hf. unfold run_heat_pulse.
  destruct (steady_baseline_phase w) as (baseline & w1 & E1 & C1).
  unfold bind at 1. rewrite E1.
  destruct (steady_fire_heater w1) as (u & w2 & E2 & C2).
  unfold bind at 1. rewrite E2.
  unfold monitor_phase. unfold bind at 2. cbn [millis].
  unfold bind at 1.
  match goal with |- context [monitor_loop _ _ _ ?s _ _ ?w0] =>
    destruct (monitor_loop_returns i fuel s baseline (zeros, zeros) w0 Hf)
      as (pk & w3 & E3)
  end.
  - cbn [clock_reads]. unfold window_over in Hw.
    rewrite C2, C1.
    replace (S (clock_reads w) + 2 * i)%nat
      with (clock_reads w + 1 + 2 * i)%nat by lia.
    exact Hw.
  - rewrite E3. eexists _, _. reflexivity.
Qed.

(** Every result comes from the flow estimator, on peaks that are not
    below zero. *)
Lemma run_heat_pulse_inv (uninit : FlowResult) (fuel : nat) (w w' : World)
      (r : FlowResult) :
  run_heat_pulse logf sinf cosf atan2f env uninit fuel w = Some (r, w') ->
  exists peak_dt peak_time,
    r = flow_estimate sinf cosf atan2f (set_valid uninit false)
                      peak_dt peak_time
    /\ nonneg4 peak_dt.
Proof.
  unfold run_heat_pulse. intros E.
  apply bind_Some in E. destruct E as (baseline & w1 & _ & E).
  apply bind_Some in E. destruct E as (u & w2 & _ & E).
  apply bind_Some in E. destruct E as (pk & w3 & Em & E).
  inversion E; subst. exists (fst pk), (snd pk). split; [reflexivity|].
  unfold monitor_phase in Em.
  apply bind_Some in Em. destruct Em as (start_ms & w4 & _ & Em).
  eapply monitor_loop_nonneg; [exact Em | apply nonneg4_zeros].
Qed.

End FirmwareFacts.

(** ** The flow estimator *)

Section EstimatorFacts.

Variable sinf cosf : float -> float.
Variable atan2f : float -> float -> float.

Lemma echo_peaks_eq (result : FlowResult) (peak_dt peak_time : arr4) :
  echo_peaks result peak_dt peak_time =
  {| velocity_cm_day := velocity_cm_day result;
     direction_deg := direction_deg result;
     peak_temps := peak_dt; peak_times := peak_time;
     valid := valid result |}.
Proof. destruct peak_dt, peak_time. reflexivity. Qed.

(** The estimator overwrites every field of [result]. *)
Lemma flow_estimate_eq (result : FlowResult) (peak_dt peak_time : arr4) :
  flow_estimate sinf cosf atan2f result peak_dt peak_time =
  if (get peak_dt (dominant peak_dt) <? STAGNANT_DT)%f32 then
    {| velocity_cm_day := F32.of_Z 0; direction_deg := F32.of_Z (-1);
       peak_temps := peak_dt; peak_times := peak_time; valid := true |}
  else
    {| velocity_cm_day := flow_velocity (get peak_time (dominant peak_dt));
       direction_deg := flow_direction sinf cosf atan2f peak_dt;
       peak_temps := peak_dt; peak_times := peak_time; valid := true |}.
Proof.
  unfold flow_estimate.
  destruct (get peak_dt (dominant peak_dt) <? STAGNANT_DT)%f32;
    rewrite echo_peaks_eq; reflexivity.
Qed.

Lemma flow_estimate_peak_temps (result : FlowResult) (peak_dt peak_time : arr4) :
  peak_temps (flow_estimate sinf cosf atan2f result peak_dt peak_time)
  = peak_dt.
Proof.
  rewrite flow_estimate_eq.
  destruct (get peak_dt (dominant peak_dt) <? STAGNANT_DT)%f32; reflexivity.
Qed.

Lemma flow_estimate_peak_times (result : FlowResult) (peak_dt peak_time : arr4) :
  peak_times (flow_estimate sinf cosf atan2f result peak_dt peak_time)
  = peak_time.
Proof.
  rewrite flow_estimate_eq.
  destruct (get peak_dt (dominant peak_dt) <? STAGNANT_DT)%f32; reflexivity.
Qed.

Lemma flow_estimate_valid (result : FlowResult) (peak_dt peak_time : arr4) :
  valid (flow_estimate sinf cosf atan2f result peak_dt peak_time) = true.
Proof.
  rewrite flow_estimate_eq.
  destruct (get peak_dt (dominant peak_dt) <? STAGNANT_DT)%f32; reflexivity.
Qed.

End EstimatorFacts.

(** The scan of step 4, unrolled. *)
Lemma dominant_eq (peak_dt : arr4) :
  dominant peak_dt =
  let m1 := if (get peak_dt 0 <? get peak_dt 1)%f32 then 1%nat else 0%nat in
  let m2 := if (get peak_dt m1 <? get peak_dt 2)%f32 then 2%nat else m1 in
  if (get peak_dt m2 <? get peak_dt 3)%f32 then 3%nat else m2.
Proof. reflexivity. Qed.

Lemma nonneg4_no_nan (a : arr4) : nonneg4 a -> no_nan4 a.
Proof. intros H j Hj. apply (leb_not_nan _ _ (H j Hj)). Qed.

Lemma dominant_lt (peak_dt : arr4) : (dominant peak_dt < 4)%nat.
Proof.
  rewrite dominant_eq. cbv zeta.
  repeat match goal with
         | |- context [if ?b then _ else _] => destruct b
         end; lia.
Qed.

(** The dominant channel holds a largest peak, and every channel before it
    holds a strictly smaller one. *)
Lemma dominant_spec (peak_dt : arr4) :
  no_nan4 peak_dt ->
  let m := dominant peak_dt in
  (forall j, (j < 4)%nat -> (get peak_dt j <=? get peak_dt m)%f32 = true) /\
  (forall j, (j < m)%nat -> (get peak_dt j <? get peak_dt m)%f32 = true).
Proof.
  intros N. cbv zeta. rewrite dominant_eq. cbv zeta.
  pose proof (N 0%nat ltac:(lia)) as N0. pose proof (N 1%nat ltac:(lia)) as N1.
  pose proof (N 2%nat ltac:(lia)) as N2. pose proof (N 3%nat ltac:(lia)) as N3.
  destruct (get peak_dt 0 <? get peak_dt 1)%f32 eqn:E1;
    [ destruct (get peak_dt 1 <? get peak_dt 2)%f32 eqn:E2
    | destruct (get peak_dt 0 <? get peak_dt 2)%f32 eqn:E2 ];
    match goal with
    | |- context [if (get peak_dt ?m <? get peak_dt 3)%f32 then _ else _] =>
      destruct (get peak_dt m <? get peak_dt 3)%f32 eqn:E3
    end;
    repeat match goal with
           | H : (_ <? _)%f32 = false |- _ =>
             apply ltb_false_leb in H; [|assumption..]
           end;
    (split; intros j Hj;
     [ destruct j as [|[|[|[|j]]]]; try lia
     | destruct j as [|[|[|j]]]; try lia ]);
    eauto 6 using leb_refl, ltb_leb, leb_trans, leb_ltb_trans, ltb_leb_trans.
Qed.

(** * Bounds on the floating-point arithmetic *)

(** ** Shifting and rounding of mantissas *)

Lemma shr_1_m (mrs : shr_record) :
  0 <= shr_m mrs -> shr_m (shr_1 mrs) = shr_m mrs / 2.
Proof.
  destruct mrs as [m r s]. cbn [shr_m]. intros H.
  destruct m as [|[p|p|]|p]; cbn [shr_1 shr_m]; try lia; try reflexivity.
  - rewrite Pos2Z.inj_xI. apply Z.div_unique with (r := 1); lia.
  - rewrite Pos2Z.inj_xO. apply Z.div_unique with (r := 0); lia.
Qed.

Lemma iter_pos_shr_1 (p : positive) :
  forall mrs, 0 <= shr_m mrs ->
              shr_m (iter_pos shr_1 p mrs) = shr_m mrs / 2 ^ Zpos p.
Proof.
  induction p as [p IH|p IH|]; intros mrs H; cbn [iter_pos].
  - assert (H1 : 0 <= shr_m (shr_1 mrs))
      by (rewrite shr_1_m by assumption; apply Z.div_pos; lia).
    assert (H2 : 0 <= shr_m (iter_pos shr_1 p (shr_1 mrs)))
      by (rewrite IH by assumption; apply Z.div_pos; lia).
    rewrite IH, IH, shr_1_m by assumption.
    rewrite !Z.div_div by lia. f_equal.
    replace (Zpos p~1) with (1 + Zpos p + Zpos p) by lia.
    rewrite !Z.pow_add_r by lia. change (2 ^ 1) with 2. lia.
  - assert (H2 : 0 <= shr_m (iter_pos shr_1 p mrs))
      by (rewrite IH by assumption; apply Z.div_pos; lia).
    rewrite IH, IH by assumption.
    rewrite Z.div_div by lia. f_equal.
    replace (Zpos p~0) with (Zpos p + Zpos p) by lia.
    rewrite Z.pow_add_r by lia. reflexivity.
  - rewrite shr_1_m by assumption. reflexivity.
Qed.

Lemma shr_record_of_loc_m (m : Z) (l : location) :
  shr_m (shr_record_of_loc m l) = m.
Proof. destruct l as [|[| |]]; reflexivity. Qed.

Lemma round_nearest_even_bounds (m : Z) (l : location) :
  m <= round_nearest_even m l <= m + 1.
Proof.
  destruct l as [|[| |]]; cbn; try lia. destruct (Z.even m); lia.
Qed.

(** ** Powers of two as real numbers *)

Lemma bpow_gt_0 (e : Z) : (0 < bpow e)%R.
Proof. apply powerRZ_lt. lra. Qed.

Lemma bpow_add (a b : Z) : bpow (a + b) = (bpow a * bpow b)%R.
Proof. apply powerRZ_add. lra. Qed.

Lemma bpow_nonneg_exp (k : Z) : 0 <= k -> bpow k = IZR (2 ^ k).
Proof.
  intros H. unfold bpow. rewrite <- (Z2Nat.id k H) at 1.
  rewrite <- pow_powerRZ. rewrite pow_IZR. rewrite Z2Nat.id by assumption.
  reflexivity.
Qed.

Lemma bpow_ge_1 (k : Z) : 0 <= k -> (1 <= bpow k)%R.
Proof.
  intros H. rewrite bpow_nonneg_exp by assumption. apply IZR_le.
  pose proof (Z.pow_pos_nonneg 2 k). lia.
Qed.

Lemma bpow_le (a b : Z) : a <= b -> (bpow a <= bpow b)%R.
Proof.
  intros H. replace b with (a + (b - a)) by lia. rewrite bpow_add.
  pose proof (bpow_gt_0 a). pose proof (bpow_ge_1 (b - a) ltac:(lia)). nra.
Qed.

Lemma bpow_lt (a b : Z) : a < b -> (bpow a < bpow b)%R.
Proof.
  intros H. replace b with (a + 1 + (b - a - 1)) by lia. rewrite !bpow_add.
  pose proof (bpow_gt_0 a). pose proof (bpow_ge_1 (b - a - 1) ltac:(lia)).
  change (bpow 1) with (2 * 1)%R. nra.
Qed.

(** Shifting right loses value only. *)
Lemma floor_scale (m n e : Z) :
  0 <= m -> 0 < n ->
  (IZR (m / 2 ^ n) * bpow (e + n) <= IZR m * bpow e)%R.
Proof.
  intros Hm Hn. rewrite bpow_add, (bpow_nonneg_exp n) by lia.
  pose proof (bpow_gt_0 e).
  assert (L : m / 2 ^ n * 2 ^ n <= m).
  { rewrite Z.mul_comm. apply Z.mul_div_le. apply Z.pow_pos_nonneg; lia. }
  apply IZR_le in L. rewrite mult_IZR in L.
  apply Rmult_le_compat_r with (r := bpow e) in L; [|lra].
  rewrite <- L. right. ring.
Qed.

(** ** Binary digits *)

Lemma digits2_pos_size (p : positive) : digits2_pos p = Pos.size p.
Proof. induction p; cbn; congruence. Qed.

Lemma digits2_pos_upper (p : positive) : Zpos p < 2 ^ Zpos (digits2_pos p).
Proof.
  rewrite digits2_pos_size. pose proof (Pos.size_gt p) as H.
  apply Pos2Z.pos_lt_pos in H. rewrite Pos2Z.inj_pow in H. exact H.
Qed.

Lemma digits2_pos_lower (p : positive) : 2 ^ (Zpos (digits2_pos p) - 1) <= Zpos p.
Proof.
  rewrite digits2_pos_size. pose proof (Pos.size_le p) as H.
  apply Pos2Z.pos_le_pos in H. rewrite Pos2Z.inj_pow in H.
  replace (Zpos (Pos.size p)) with (1 + (Zpos (Pos.size p) - 1)) in H by lia.
  rewrite Z.pow_add_r in H by lia. change (2 ^ 1) with 2 in H. lia.
Qed.

Lemma Zdigits2_nonneg (m : Z) : 0 <= Zdigits2 m.
Proof. destruct m; cbn; lia. Qed.

(** A number below [2^k] has at most [k] digits. *)
Lemma Zdigits2_le (m k : Z) : 0 <= m -> 0 <= k -> m < 2 ^ k -> Zdigits2 m <= k.
Proof.
  intros Hm Hk H. destruct m as [|p|p]; cbn [Zdigits2]; [lia| |lia].
  pose proof (digits2_pos_lower p) as L.
  destruct (Z.le_gt_cases (Zpos (digits2_pos p)) k) as [A|A]; [exact A|].
  assert (2 ^ k <= 2 ^ (Zpos (digits2_pos p) - 1))
    by (apply Z.pow_le_mono_r; lia).
  lia.
Qed.

Lemma bpow_digits_le (p : positive) :
  (bpow (Zpos (digits2_pos p) - 1) <= IZR (Zpos p))%R.
Proof.
  rewrite bpow_nonneg_exp by lia. apply IZR_le, digits2_pos_lower.
Qed.

Lemma bpow_digits_gt (p : positive) :
  (IZR (Zpos p) < bpow (Zpos (digits2_pos p)))%R.
Proof.
  rewrite bpow_nonneg_exp by lia. apply IZR_lt, digits2_pos_upper.
Qed.

Lemma mag_nonneg (x : spec_float) : (0 <= mag x)%R.
Proof.
  destruct x as [| | |s m e]; cbn; try lra.
  pose proof (bpow_gt_0 e). assert (0 < IZR (Zpos m))%R by (apply IZR_lt; lia).
  nra.
Qed.

Lemma bpow_sub (a b : Z) : bpow (a - b) = (bpow a / bpow b)%R.
Proof.
  pose proof (bpow_gt_0 b).
  replace a with ((a - b) + b) at 2 by lia. rewrite bpow_add. field. lra.
Qed.

(** The size of a quotient, from the sizes of its operands. *)
Lemma quotient_lower (Mx My D1 D2 bx b_y : R) :
  (0 < D1 <= Mx)%R -> (0 < My < D2)%R -> (0 < bx)%R -> (0 < b_y)%R ->
  (D1 * bx / (D2 * b_y) <= Mx * bx / (My * b_y))%R.
Proof.
  intros H1 H2 H3 H4.
  replace (D1 * bx / (D2 * b_y))%R with (D1 / D2 * (bx / b_y))%R
    by (field; lra).
  replace (Mx * bx / (My * b_y))%R with (Mx / My * (bx / b_y))%R
    by (field; lra).
  apply Rmult_le_compat_r.
  - apply Rlt_le, Rdiv_lt_0_compat; lra.
  - apply Rle_trans with (Mx / D2)%R.
    + apply Rmult_le_compat_r; [apply Rlt_le, Rinv_0_lt_compat|]; lra.
    + apply Rmult_le_compat_l; [lra|]. apply Rinv_le_contravar; lra.
Qed.

Lemma quotient_upper (Mx My D1 D2 bx b_y : R) :
  (0 < Mx < D1)%R -> (0 < D2 <= My)%R -> (0 < bx)%R -> (0 < b_y)%R ->
  (Mx * bx / (My * b_y) < D1 * bx / (D2 * b_y))%R.
Proof.
  intros H1 H2 H3 H4.
  replace (D1 * bx / (D2 * b_y))%R with (D1 / D2 * (bx / b_y))%R
    by (field; lra).
  replace (Mx * bx / (My * b_y))%R with (Mx / My * (bx / b_y))%R
    by (field; lra).
  apply Rmult_lt_compat_r.
  - apply Rdiv_lt_0_compat; lra.
  - apply Rle_lt_trans with (Mx / D2)%R.
    + apply Rmult_le_compat_l; [lra|]. apply Rinv_le_contravar; lra.
    + apply Rmult_lt_compat_r; [apply Rinv_0_lt_compat|]; lra.
Qed.

(** ** Alignment *)

Lemma iter_xO (m d : positive) : Zpos (Pos.iter xO m d) = Zpos m * 2 ^ Zpos d.
Proof.
  induction d as [|d IH] using Pos.peano_ind.
  - cbn. lia.
  - rewrite Pos.iter_succ, Pos2Z.inj_xO, IH, Pos2Z.inj_succ, Z.pow_succ_r by lia.
    lia.
Qed.

Lemma shl_align_value (m : positive) (e e' : Z) :
  let '(mz, ez) := shl_align m e e' in
  (IZR (Zpos mz) * bpow ez = IZR (Zpos m) * bpow e)%R.
Proof.
  unfold shl_align. destruct (e' - e) as [|d|d] eqn:D; try reflexivity.
  rewrite iter_xO, mult_IZR, <- (bpow_nonneg_exp (Zpos d)) by lia.
  rewrite Rmult_assoc, <- bpow_add. f_equal. f_equal. lia.
Qed.

(** The mantissa of an operand of [SFadd] once aligned. *)
Lemma shl_align_fst (m : positive) (e ez : Z) :
  ez <= e ->
  (IZR (Zpos (fst (shl_align m e ez))) * bpow ez = IZR (Zpos m) * bpow e)%R.
Proof.
  intros H. pose proof (shl_align_value m e ez) as V. unfold shl_align in *.
  destruct (ez - e) as [|d|d] eqn:D; cbn [fst]; try lia.
  - replace ez with e by lia. reflexivity.
  - exact V.
Qed.

Section Rounding.

Variable prec emax : Z.

(** The mantissa and exponent after [shr_fexp]: a floor division. *)
Lemma shr_fexp_spec (m e : Z) (l : location) :
  0 <= m ->
  let n := fexp prec emax (Zdigits2 m + e) - e in
  let '(mrs, e') := shr_fexp prec emax m e l in
  if 0 <? n then shr_m mrs = m / 2 ^ n /\ e' = e + n
  else mrs = shr_record_of_loc m l /\ e' = e.
Proof.
  intros H n. unfold shr_fexp. fold n. unfold shr.
  destruct n as [|p|p]; cbn [Z.ltb Z.compare].
  - split; reflexivity.
  - split; [|reflexivity].
    rewrite iter_pos_shr_1 by (rewrite shr_record_of_loc_m; assumption).
    rewrite shr_record_of_loc_m. reflexivity.
  - split; reflexivity.
Qed.

(** What [binary_round_aux] returns for a mantissa that is not negative:
    a zero, an infinity or a number of the given sign, and a number that
    exceeds the value rounded by at most one unit of the exponent that the
    first shift reaches. *)
Lemma binary_round_aux_upper (sx : bool) (mx ex : Z) (lx : location) :
  0 <= mx ->
  let E := Z.max ex (fexp prec emax (Zdigits2 mx + ex)) in
  match binary_round_aux prec emax sx mx ex lx with
  | S754_zero s => s = sx
  | S754_infinity s => s = sx
  | S754_nan => False
  | S754_finite s m e =>
    s = sx /\
    (IZR (Zpos m) * bpow e <= IZR mx * bpow ex + bpow E)%R /\
    (lx = loc_Exact -> fexp prec emax (Zdigits2 mx + ex) <= ex ->
     (IZR (Zpos m) * bpow e <= IZR mx * bpow ex)%R)
  end.
Proof.
  intros Hm E. unfold binary_round_aux.
  pose proof (shr_fexp_spec mx ex lx Hm) as S1. cbv zeta in S1.
  destruct (shr_fexp prec emax mx ex lx) as [mrs1 e1].
  set (n1 := fexp prec emax (Zdigits2 mx + ex) - ex) in *.
  set (m2 := round_nearest_even (shr_m mrs1) (loc_of_shr_record mrs1)).
  assert (H1 : 0 <= shr_m mrs1 /\ e1 = E /\
               (IZR (shr_m mrs1 + 1) * bpow e1 <= IZR mx * bpow ex + bpow E)%R /\
               (lx = loc_Exact -> n1 <= 0 -> m2 = mx /\ e1 = ex)).
  { destruct (Z.ltb_spec 0 n1) as [L|L].
    - destruct S1 as [Sm Se]. rewrite Sm, Se.
      assert (E = ex + n1) by (unfold E, n1 in *; lia).
      split; [apply Z.div_pos; [lia | apply Z.pow_pos_nonneg; lia]|].
      split; [lia|]. split; [|lia].
      rewrite plus_IZR, Rmult_plus_distr_r, H.
      pose proof (floor_scale mx n1 ex Hm L). lra.
    - destruct S1 as [Sm Se]. subst mrs1 e1. rewrite shr_record_of_loc_m.
      assert (E = ex) by (unfold E, n1 in *; lia).
      split; [lia|]. split; [lia|]. split.
      + rewrite plus_IZR, Rmult_plus_distr_r, H. lra.
      + intros -> _. subst m2. cbn. split; reflexivity. }
  destruct H1 as (Hm1 & He1 & Hup & Hex).
  pose proof (round_nearest_even_bounds (shr_m mrs1) (loc_of_shr_record mrs1))
    as Hr. fold m2 in Hr.
  assert (Hm2 : 0 <= m2) by lia.
  pose proof (shr_fexp_spec m2 e1 loc_Exact Hm2) as S2. cbv zeta in S2.
  destruct (shr_fexp prec emax m2 e1 loc_Exact) as [mrs2 e2].
  set (n2 := fexp prec emax (Zdigits2 m2 + e1) - e1) in *.
  assert (H2 : 0 <= shr_m mrs2 /\
               (IZR (shr_m mrs2) * bpow e2 <= IZR m2 * bpow e1)%R).
  { destruct (Z.ltb_spec 0 n2) as [L|L].
    - destruct S2 as [Sm Se]. rewrite Sm, Se.
      split; [apply Z.div_pos; [lia | apply Z.pow_pos_nonneg; lia]|].
      apply floor_scale; assumption.
    - destruct S2 as [Sm Se]. subst mrs2 e2. cbn. split; [lia|lra]. }
  destruct H2 as (Hm3 & Hle).
  destruct (shr_m mrs2) as [|m3|m3]; [reflexivity| |lia].
  destruct (e2 <=? emax - prec); [|reflexivity].
  split; [reflexivity|].
  assert (IZR m2 * bpow e1 <= IZR (shr_m mrs1 + 1) * bpow e1)%R.
  { pose proof (bpow_gt_0 e1). assert (IZR m2 <= IZR (shr_m mrs1 + 1))%R
      by (apply IZR_le; lia). nra. }
  split; [lra|].
  intros Hl Hn. destruct (Hex Hl ltac:(unfold n1; lia)) as [-> ->]. exact Hle.
Qed.

(** *** Magnitude and sign *)

Lemma unit_roundoff_pos : (0 < (unit_roundoff prec))%R.
Proof. apply bpow_gt_0. Qed.

Lemma tiny_pos : (0 < (tiny prec emax))%R.
Proof. apply bpow_gt_0. Qed.

Lemma bpow_fexp_le (d e : Z) (x : R) :
  (bpow (d + e - 1) <= x)%R ->
  (bpow (fexp prec emax (d + e)) <= x * (unit_roundoff prec) + (tiny prec emax))%R.
Proof.
  intros H. unfold fexp, unit_roundoff, tiny.
  pose proof (bpow_gt_0 (emin prec emax)). pose proof (bpow_gt_0 (1 - prec)).
  pose proof (bpow_gt_0 (d + e - 1)).
  destruct (Z.max_spec (d + e - prec) (emin prec emax)) as [[_ ->]|[_ ->]].
  - nra.
  - replace (d + e - prec) with ((d + e - 1) + (1 - prec)) by lia.
    rewrite bpow_add. nra.
Qed.

(** Rounding of an exact positive mantissa. *)
Lemma round_exact_upper (s : bool) (m : positive) (e : Z) :
  let r := binary_round_aux prec emax s (Zpos m) e loc_Exact in
  sign_is s r /\
  (mag r <= IZR (Zpos m) * bpow e * (1 + (unit_roundoff prec)) + (tiny prec emax))%R.
Proof.
  cbv zeta.
  pose proof (binary_round_aux_upper s (Zpos m) e loc_Exact ltac:(lia)) as U.
  cbv zeta in U. pose proof unit_roundoff_pos. pose proof tiny_pos.
  pose proof (bpow_gt_0 e).
  assert (0 < IZR (Zpos m))%R by (apply IZR_lt; lia).
  assert (0 < IZR (Zpos m) * bpow e)%R by nra.
  destruct (binary_round_aux prec emax s (Z.pos m) e loc_Exact)
    as [t|t| |t m' e']; cbn [sign_is mag]; try (split; [assumption|nra]).
  destruct U as (-> & Hup & Hex). split; [reflexivity|].
    destruct (Z.le_gt_cases (fexp prec emax (Zdigits2 (Zpos m) + e)) e) as [L|L].
  - specialize (Hex eq_refl L). nra.
  - rewrite Z.max_r in Hup by lia. cbn [Zdigits2] in Hup.
    pose proof (bpow_fexp_le (Zpos (digits2_pos m)) e
                             (IZR (Zpos m) * bpow e)) as F.
    assert (D : (bpow (Zpos (digits2_pos m) + e - 1)
                 <= IZR (Zpos m) * bpow e)%R).
    { replace (Zpos (digits2_pos m) + e - 1)
        with ((Zpos (digits2_pos m) - 1) + e) by lia.
      rewrite bpow_add. pose proof (bpow_digits_le m). nra. }
    specialize (F D). nra.
Qed.

Lemma binary_round_upper (s : bool) (m : positive) (e : Z) :
  let r := binary_round prec emax s m e in
  sign_is s r /\
  (mag r <= IZR (Zpos m) * bpow e * (1 + (unit_roundoff prec)) + (tiny prec emax))%R.
Proof.
  cbv zeta. unfold binary_round.
  pose proof (shl_align_value m e (fexp prec emax (Zpos (digits2_pos m) + e)))
    as V.
  destruct (shl_align m e (fexp prec emax (Zpos (digits2_pos m) + e)))
    as [mz ez].
  rewrite <- V. apply round_exact_upper.
Qed.

Lemma binary_normalize_pos (z e : Z) (szero : bool) :
  0 < z ->
  let r := binary_normalize prec emax z e szero in
  sign_is false r /\
  (mag r <= IZR z * bpow e * (1 + (unit_roundoff prec)) + (tiny prec emax))%R.
Proof.
  intros H. destruct z as [|p|p]; try lia. apply binary_round_upper.
Qed.

Lemma binary_normalize_neg (z e : Z) (szero : bool) :
  z < 0 ->
  let r := binary_normalize prec emax z e szero in
  sign_is true r /\
  (mag r <= IZR (- z) * bpow e * (1 + (unit_roundoff prec)) + (tiny prec emax))%R.
Proof.
  intros H. destruct z as [|p|p]; try lia. apply binary_round_upper.
Qed.

(** *** Addition and subtraction *)

Lemma sval_aligned (s : bool) (m : positive) (e ez : Z) :
  ez <= e ->
  (IZR (cond_Zopp s (Zpos (fst (shl_align m e ez)))) * bpow ez
   = sval (S754_finite s m e))%R.
Proof.
  intros H. pose proof (shl_align_fst m e ez H) as A. cbn [sval].
  destruct s; cbn [cond_Zopp]; rewrite ?opp_IZR; lra.
Qed.

Lemma binary_normalize_sign (z e : Z) :
  let r := binary_normalize prec emax z e false in
  let v := (IZR z * bpow e)%R in
  ((0 < v)%R ->
   sign_is false r /\ (mag r <= v * (1 + (unit_roundoff prec)) + (tiny prec emax))%R) /\
  ((v < 0)%R ->
   sign_is true r /\ (mag r <= - v * (1 + (unit_roundoff prec)) + (tiny prec emax))%R) /\
  (v = 0%R -> r = S754_zero false).
Proof.
  cbv zeta. pose proof (bpow_gt_0 e) as He.
  destruct (Z.lt_trichotomy z 0) as [L | [L | L]].
  - assert (IZR z < 0)%R by (apply IZR_lt; assumption).
    repeat split; try (intros; nra).
    + apply binary_normalize_neg; assumption.
    + pose proof (binary_normalize_neg z e false L) as [_ B].
      rewrite opp_IZR in B. lra.
  - subst z. repeat split; try (intros; lra). (* v = 0 *)
  - assert (0 < IZR z)%R by (apply IZR_lt; assumption).
    repeat split; try (intros; nra).
    + apply binary_normalize_pos; assumption.
    + apply binary_normalize_pos; assumption.
Qed.

Lemma SFadd_finite (sx sy : bool) (mx my : positive) (ex ey : Z) :
  let x := S754_finite sx mx ex in
  let y := S754_finite sy my ey in
  let r := SFadd prec emax x y in
  let v := (sval x + sval y)%R in
  ((0 < v)%R ->
   sign_is false r /\ (mag r <= v * (1 + (unit_roundoff prec)) + (tiny prec emax))%R) /\
  ((v < 0)%R ->
   sign_is true r /\ (mag r <= - v * (1 + (unit_roundoff prec)) + (tiny prec emax))%R) /\
  (v = 0%R -> r = S754_zero false).
Proof.
  cbv zeta. cbn [SFadd].
  rewrite <- (sval_aligned sx mx ex (Z.min ex ey)) by lia.
  rewrite <- (sval_aligned sy my ey (Z.min ex ey)) by lia.
  rewrite <- Rmult_plus_distr_r, <- plus_IZR.
  apply binary_normalize_sign.
Qed.

Lemma SFsub_finite (sx sy : bool) (mx my : positive) (ex ey : Z) :
  let x := S754_finite sx mx ex in
  let y := S754_finite sy my ey in
  let r := SFsub prec emax x y in
  let v := (sval x - sval y)%R in
  ((0 < v)%R ->
   sign_is false r /\ (mag r <= v * (1 + (unit_roundoff prec)) + (tiny prec emax))%R) /\
  ((v < 0)%R ->
   sign_is true r /\ (mag r <= - v * (1 + (unit_roundoff prec)) + (tiny prec emax))%R) /\
  (v = 0%R -> r = S754_zero false).
Proof.
  cbv zeta. cbn [SFsub].
  rewrite <- (sval_aligned sx mx ex (Z.min ex ey)) by lia.
  rewrite <- (sval_aligned sy my ey (Z.min ex ey)) by lia.
  rewrite <- Rmult_minus_distr_r, <- minus_IZR.
  apply binary_normalize_sign.
Qed.

(** *** Multiplication *)

Lemma SFmul_finite (sx sy : bool) (mx my : positive) (ex ey : Z) :
  let r := SFmul prec emax (S754_finite sx mx ex) (S754_finite sy my ey) in
  sign_is (xorb sx sy) r /\
  (mag r <= (IZR (Zpos mx) * bpow ex) * (IZR (Zpos my) * bpow ey)
            * (1 + (unit_roundoff prec)) + (tiny prec emax))%R.
Proof.
  cbv zeta. cbn [SFmul].
  pose proof (round_exact_upper (xorb sx sy) (mx * my) (ex + ey)) as U.
  cbv zeta in U. rewrite Pos2Z.inj_mul, mult_IZR, bpow_add in U.
  destruct U as [U1 U2]. split; [exact U1|].
  eapply Rle_trans; [exact U2|]. right. ring.
Qed.

(** *** Division *)

Hypothesis prec_pos : 0 < prec.

Lemma SFdiv_finite (sx sy : bool) (mx my : positive) (ex ey : Z) :
  let r := SFdiv prec emax (S754_finite sx mx ex) (S754_finite sy my ey) in
  sign_is (xorb sx sy) r /\
  (mag r <= (IZR (Zpos mx) * bpow ex) / (IZR (Zpos my) * bpow ey)
            * (1 + 2 * (unit_roundoff prec)) + (tiny prec emax))%R.
Proof.
  cbv zeta. cbn [SFdiv]. unfold SFdiv_core_binary. cbn [Zdigits2].
  set (d1 := Zpos (digits2_pos mx)). set (d2 := Zpos (digits2_pos my)).
  set (L := d1 + ex - (d2 + ey)).
  set (e' := Z.min (fexp prec emax L) (ex - ey)).
  set (s := ex - ey - e').
  assert (Hs : 0 <= s) by (unfold s, e'; lia).
  set (m' := match s with
             | Zpos _ => Z.shiftl (Zpos mx) s
             | Z0 => Zpos mx
             | Zneg _ => 0
             end).
  assert (Hm' : m' = Zpos mx * 2 ^ s).
  { unfold m'. destruct s as [|p|p]; [lia| |lia].
    apply Z.shiftl_mul_pow2. lia. }
  pose proof (Z.div_eucl_eq m' (Zpos my) ltac:(lia)) as Hdiv.
  pose proof (Z.mod_pos_bound m' (Zpos my) ltac:(lia)) as Hmod.
  unfold Z.modulo in Hmod.
  destruct (Z.div_eucl m' (Zpos my)) as [q r].
  assert (Hq : 0 <= q) by nia.
  set (X := (IZR (Zpos mx) * bpow ex)%R).
  set (Y := (IZR (Zpos my) * bpow ey)%R).
  pose proof (bpow_gt_0 ex). pose proof (bpow_gt_0 ey).
  pose proof unit_roundoff_pos as Hu. pose proof tiny_pos as Ht.
  assert (HX : (0 < X)%R)
    by (unfold X; assert (0 < IZR (Zpos mx))%R by (apply IZR_lt; lia); nra).
  assert (HY : (0 < Y)%R)
    by (unfold Y; assert (0 < IZR (Zpos my))%R by (apply IZR_lt; lia); nra).
  assert (HXY : (0 < X / Y)%R) by (apply Rdiv_lt_0_compat; assumption).
  (* the quotient mantissa is below the exact quotient *)
  assert (Hval : (IZR q * bpow e' <= X / Y)%R).
  { apply Rmult_le_reg_r with (r := Y); [assumption|].
    replace (X / Y * Y)%R with X by (field; lra).
    unfold X, Y. replace ex with (s + e' + ey) by (unfold s; lia).
    rewrite !bpow_add, (bpow_nonneg_exp s) by assumption.
    assert (Hqm : q * Zpos my <= Zpos mx * 2 ^ s) by nia.
    apply IZR_le in Hqm. rewrite !mult_IZR in Hqm.
    pose proof (bpow_gt_0 e').
    apply Rmult_le_compat_r with (r := (bpow e' * bpow ey)%R) in Hqm; [|nra].
    eapply Rle_trans; [|eapply Rle_trans; [exact Hqm|]]; right; ring. }
  (* the size of the exact quotient *)
  pose proof (bpow_digits_le mx) as Dx1. pose proof (bpow_digits_gt mx) as Dx2.
  pose proof (bpow_digits_le my) as Dy1. pose proof (bpow_digits_gt my) as Dy2.
  fold d1 in Dx1, Dx2. fold d2 in Dy1, Dy2.
  pose proof (bpow_gt_0 (d1 - 1)). pose proof (bpow_gt_0 (d2 - 1)).
  assert (HL : (bpow (L - 1) <= X / Y)%R).
  { replace (L - 1) with ((d1 - 1) + ex - (d2 + ey)) by (unfold L; lia).
    rewrite bpow_sub, !bpow_add. unfold X, Y.
    apply quotient_lower; lra. }
  assert (HU : (X / Y < bpow (L + 1))%R).
  { replace (L + 1) with (d1 + ex - ((d2 - 1) + ey)) by (unfold L; lia).
    rewrite bpow_sub, !bpow_add. unfold X, Y.
    assert (0 < IZR (Zpos mx))%R by (apply IZR_lt; lia).
    apply quotient_upper; lra. }
  (* the unit of the rounding *)
  assert (He' : (bpow e' <= X / Y * (unit_roundoff prec) + (tiny prec emax))%R).
  { eapply Rle_trans; [apply bpow_le; apply Z.le_min_l|].
    replace L with (L + 0) by lia. apply bpow_fexp_le.
    replace (L + 0 - 1) with (L - 1) by lia. exact HL. }
  assert (HE : (bpow (Z.max e' (fexp prec emax (Zdigits2 q + e')))
                <= X / Y * (2 * (unit_roundoff prec)) + (tiny prec emax))%R).
  { destruct (Z.max_spec e' (fexp prec emax (Zdigits2 q + e')))
      as [[_ ->]|[_ ->]]; [|nra].
    destruct q as [|q|q]; [| |lia]; cbn [Zdigits2].
    - unfold fexp. destruct (Z.max_spec (0 + e' - prec) (emin prec emax))
        as [[_ ->]|[_ ->]]; [unfold tiny; nra|].
      eapply Rle_trans; [apply (bpow_le _ e'); lia|]. nra.
    - assert (Hdq : Zpos (digits2_pos q) + e' <= L + 1).
      { destruct (Z.le_gt_cases (Zpos (digits2_pos q) + e') (L + 1))
          as [A|A]; [exact A|exfalso].
        pose proof (bpow_digits_le q) as D.
        assert (B : (bpow (L + 1 - e') <= bpow (Zpos (digits2_pos q) - 1))%R)
          by (apply bpow_le; lia).
        rewrite bpow_sub in B. pose proof (bpow_gt_0 e') as He.
        assert (bpow (L + 1) <= IZR (Zpos q) * bpow e')%R.
        { apply Rle_trans with (bpow (L + 1) / bpow e' * bpow e')%R;
            [right; field; lra|].
          apply Rmult_le_compat_r; lra. }
        lra. }
      apply Rle_trans with (bpow (fexp prec emax (L + 1)));
        [apply bpow_le; unfold fexp; lia|].
      pose proof (bpow_fexp_le L 1 (2 * (X / Y))%R) as F.
      replace (L + 1 - 1) with ((L - 1) + 1) in F by lia.
      rewrite bpow_add in F. change (bpow 1) with (2 * 1)%R in F.
      assert (F0 : (bpow (L - 1) * (2 * 1) <= 2 * (X / Y))%R) by nra.
      specialize (F F0). nra. }
  pose proof (binary_round_aux_upper (xorb sx sy) q e' (new_location (Zpos my) r)
                                     Hq) as U. cbv zeta in U.
  destruct (binary_round_aux prec emax (xorb sx sy) q e'
                             (new_location (Zpos my) r))
    as [t|t| |t m3 e3]; cbn [sign_is mag]; try (split; [assumption|nra]).
  destruct U as (-> & Hup & _). split; [reflexivity|]. nra.
Qed.

End Rounding.

Section Kinds.

Variable prec emax : Z.
Hypothesis prec_pos : 0 < prec.



Lemma SFdiv_by_finite (x : spec_float) (sx sy : bool) (my : positive) (ey : Z) :
  sign_is sx x ->
  let r := SFdiv prec emax x (S754_finite sy my ey) in
  sign_is (xorb sx sy) r /\
  (mag r <= mag x / (IZR (Zpos my) * bpow ey) * (1 + 2 * unit_roundoff prec) + tiny prec emax)%R.
Proof.
  intros Hx. cbv zeta.
  pose proof (tiny_pos prec emax). pose proof (unit_roundoff_pos prec).
  destruct x as [t|t| |t mx ex]; cbn [sign_is] in Hx; try contradiction; subst t.
  - cbn [SFdiv mag sign_is]. split; [reflexivity|]. unfold Rdiv. lra.
  - cbn [SFdiv mag sign_is]. split; [reflexivity|]. unfold Rdiv. lra.
  - apply SFdiv_finite. assumption.
Qed.

Lemma SFdiv_finite_by (y : spec_float) (sx sy : bool) (mx : positive) (ex : Z) :
  sign_is sy y ->
  sign_is (xorb sx sy) (SFdiv prec emax (S754_finite sx mx ex) y).
Proof.
  intros Hy.
  destruct y as [t|t| |t my ey]; cbn [sign_is] in Hy; try contradiction; subst t.
  - reflexivity.
  - reflexivity.
  - apply SFdiv_finite. assumption.
Qed.

Lemma SFadd_nonneg_finite (x : spec_float) (my : positive) (ey : Z) :
  sign_is false x ->
  sign_is false (SFadd prec emax x (S754_finite false my ey)).
Proof.
  intros Hx.
  destruct x as [t|t| |t mx ex]; cbn [sign_is] in Hx; try contradiction; subst t.
  - reflexivity.
  - reflexivity.
  - apply SFadd_finite. cbn [sval cond_Zopp].
    pose proof (bpow_gt_0 ex). pose proof (bpow_gt_0 ey).
    assert (0 < IZR (Zpos mx))%R by (apply IZR_lt; lia).
    assert (0 < IZR (Zpos my))%R by (apply IZR_lt; lia). nra.
Qed.

(** A negative number of smaller magnitude than the positive number added
    to it gives a sum that is not negative. *)
Lemma SFadd_small_neg (x : spec_float) (my : positive) (ey : Z) :
  sign_is true x -> x <> S754_infinity true ->
  (mag x < IZR (Zpos my) * bpow ey)%R ->
  sign_is false (SFadd prec emax x (S754_finite false my ey)).
Proof.
  intros Hx Hinf Hlt.
  destruct x as [t|t| |t mx ex]; cbn [sign_is] in Hx; try contradiction; subst t.
  - reflexivity.
  - congruence.
  - apply SFadd_finite. cbn [sval cond_Zopp mag] in *.
    rewrite opp_IZR. lra.
Qed.

(** A well-formed negative number that is not below a normal negative
    constant has at most the magnitude of the constant. *)
Lemma not_below_mag (m M : positive) (e E : Z) :
  valid_binary prec emax (S754_finite true m e) = true ->
  2 ^ (prec - 1) <= Zpos M ->
  SFltb (S754_finite true m e) (S754_finite true M E) = false ->
  (mag (S754_finite true m e) <= IZR (Zpos M) * bpow E)%R.
Proof.
  intros Hv HM Hlt. cbn [mag].
  cbn [valid_binary] in Hv. unfold bounded, canonical_mantissa in Hv.
  apply andb_prop in Hv. destruct Hv as [Hc _]. apply Z.eqb_eq in Hc.
  unfold fexp in Hc.
  assert (Hd : Zpos (digits2_pos m) <= prec) by lia.
  pose proof (bpow_digits_gt m) as Hm.
  assert (Hm' : (IZR (Zpos m) < bpow prec)%R).
  { eapply Rlt_le_trans; [exact Hm|]. apply bpow_le. exact Hd. }
  assert (HM' : (bpow (prec - 1) <= IZR (Zpos M))%R).
  { rewrite bpow_nonneg_exp by lia. apply IZR_le. exact HM. }
  pose proof (bpow_gt_0 e). pose proof (bpow_gt_0 E).
  unfold SFltb in Hlt. cbn [SFcompare] in Hlt.
  change (Pos.compare_cont Eq m M) with (Pos.compare m M) in Hlt.
  destruct (Z.compare_spec e E) as [-> | L | L].
  - destruct (Pos.compare_spec m M) as [-> | L | L]; cbn in Hlt;
      try discriminate.
    + lra.
    + assert (IZR (Zpos m) <= IZR (Zpos M))%R by (apply IZR_le; lia). nra.
  - assert (bpow (e + 1) <= bpow E)%R by (apply bpow_le; lia).
    rewrite bpow_add in H1. change (bpow 1) with (2 * 1)%R in H1.
    replace prec with ((prec - 1) + 1) in Hm' by lia.
    rewrite bpow_add in Hm'. change (bpow 1) with (2 * 1)%R in Hm'.
    pose proof (bpow_gt_0 (prec - 1)). nra.
  - discriminate.
Qed.

End Kinds.

(** ** binary32 and binary64 *)

Lemma bpow_neg_num (p : positive) : bpow (Zneg p) = (/ IZR (2 ^ Zpos p))%R.
Proof.
  change (Zneg p) with (0 - Zpos p). rewrite bpow_sub.
  rewrite (bpow_nonneg_exp (Zpos p)) by lia. change (bpow 0) with 1%R.
  unfold Rdiv. lra.
Qed.

Lemma u32_small : (unit_roundoff F32.prec <= / 1048576)%R.
Proof.
  unfold unit_roundoff. eapply Rle_trans; [apply (bpow_le _ (- 20)); cbn; lia|].
  rewrite bpow_neg_num. right. reflexivity.
Qed.

Lemma eta32_small : (tiny F32.prec F32.emax <= / 1048576)%R.
Proof.
  unfold tiny. eapply Rle_trans; [apply (bpow_le _ (- 20)); cbn; lia|].
  rewrite bpow_neg_num. right. reflexivity.
Qed.





(** ** The bearing *)

Lemma flow_direction_eq sinf cosf atan2f peak_dt :
  flow_direction sinf cosf atan2f peak_dt =
  normalise (degrees_of (atan2f (fst (bearing_sums sinf cosf peak_dt))
                                (snd (bearing_sums sinf cosf peak_dt)))).
Proof.
  unfold flow_direction, bearing_deg, normalise, degrees_of.
  destruct (bearing_sums sinf cosf peak_dt) as [sin_sum cos_sum]. reflexivity.
Qed.




(** ** The sentinel of [thermistor_temp] *)

(** The end of the B-parameter equation, from the sum [steinhart]. *)
Lemma steinhart_tail (s : float) :
  sign_is false s \/ s = S754_infinity true ->
  (F32.lit 1 1 / s - F32.lit 27315 100)%f32 <> SENTINEL.
Proof.
  change (F32.lit 1 1) with (S754_finite false 8388608 (-23)).
  change (F32.lit 27315 100) with (S754_finite false 8950579 (-15)).
  change SENTINEL with (S754_finite true 16367616 (-14)).
  intros [Hs | ->]; [|cbn; discriminate].
  pose proof (SFdiv_finite_by F32.prec F32.emax ltac:(reflexivity) s false false
                              8388608 (-23) Hs) as St.
  fold F32.div in St. cbn [xorb] in St.
  set (t := F32.div (S754_finite false 8388608 (-23)) s) in *.
  destruct t as [b|b| |b mt et]; cbn [sign_is] in St; try contradiction; subst b.
  - cbn. discriminate.
  - cbn. discriminate.
  - pose proof (SFsub_finite F32.prec F32.emax false false mt 8950579 et (-15))
      as (Hpos & Hneg & Hzero). cbv zeta in Hpos, Hneg, Hzero.
    fold F32.sub in Hpos, Hneg, Hzero.
    set (r := F32.sub (S754_finite false mt et)
                      (S754_finite false 8950579 (-15))) in *.
    cbn [sval cond_Zopp] in Hpos, Hneg, Hzero.
    rewrite (bpow_neg_num 15) in Hpos, Hneg, Hzero.
    change (2 ^ 15) with 32768 in Hpos, Hneg, Hzero.
    pose proof (bpow_gt_0 et).
    assert (0 < IZR (Zpos mt))%R by (apply IZR_lt; lia).
    set (v := (IZR (Zpos mt) * bpow et - 8950579 * / 32768)%R) in *.
    intros E.
    destruct (Rtotal_order v 0) as [L | [L | L]].
    + destruct (Hneg L) as [_ B]. rewrite E in B. cbn [mag] in B.
      rewrite (bpow_neg_num 14) in B. change (2 ^ 14) with 16384 in B.
      pose proof u32_small. pose proof eta32_small.
      pose proof (unit_roundoff_pos F32.prec).
      pose proof (tiny_pos F32.prec F32.emax).
      assert (- v <= 8950579 * / 32768)%R by (unfold v; nra).
      nra.
    + rewrite (Hzero L) in E. discriminate.
    + destruct (Hpos L) as [S _]. rewrite E in S. cbn in S. discriminate.
Qed.

Lemma steinhart_temp_not_sentinel (logf : float -> float) (r_therm : float) :
  logf_in_range logf ->
  (F32.lit 1 32768 <=? r_therm / THERM_NOMINAL_R)%f32 = true ->
  steinhart_temp logf r_therm <> SENTINEL.
Proof.
  intros H Hx. unfold steinhart_temp.
  destruct (H _ Hx) as [Hv Hr].
  set (l := logf (r_therm / THERM_NOMINAL_R)%f32) in *.
  change (F32.lit 1 1 / (THERM_NOMINAL_T + F32.lit 27315 100))%f32
    with (S754_finite false 14405391 (-32)).
  change THERM_B_COEFF with (S754_finite false 16179200 (-12)).
  assert (K : l = S754_nan \/
              sign_is false (l / S754_finite false 16179200 (-12))%f32 \/
              (sign_is true (l / S754_finite false 16179200 (-12))%f32 /\
               (mag (l / S754_finite false 16179200 (-12))%f32
                < 14405391 * bpow (-32))%R)).
  { destruct l as [b|b| |b m e] eqn:El.
    - right. destruct b; [right | left; reflexivity].
      split; [reflexivity|]. cbn [F32.div SFdiv mag].
      pose proof (bpow_gt_0 (-32)). lra.
    - right. destruct b; [|left; reflexivity].
      cbn in Hr. discriminate.
    - left. reflexivity.
    - right.
      pose proof (SFdiv_by_finite F32.prec F32.emax ltac:(reflexivity)
                                  (S754_finite b m e) b false 16179200 (-12)
                                  eq_refl) as [S B].
      fold F32.div in S, B. rewrite xorb_false_r in S.
      destruct b; [right | left; exact S].
      split; [exact S|].
      change (F32.lit (-11) 1) with (S754_finite true 11534336 (-20)) in Hr.
      pose proof (not_below_mag F32.prec F32.emax ltac:(reflexivity)
                                m 11534336 e (-20) Hv ltac:(cbn; lia) Hr) as Bl.
      rewrite (bpow_neg_num 20) in Bl. change (2 ^ 20) with 1048576 in Bl.
      rewrite (bpow_neg_num 12) in B. change (2 ^ 12) with 4096 in B.
      rewrite (bpow_neg_num 32). change (2 ^ 32) with 4294967296.
      pose proof u32_small. pose proof eta32_small.
      pose proof (unit_roundoff_pos F32.prec).
      pose proof (tiny_pos F32.prec F32.emax).
      pose proof (mag_nonneg (S754_finite true m e)).
      set (ml := mag (S754_finite true m e)) in *.
      assert (ml / (16179200 * / 4096) <= 11 / 3950)%R.
      { apply Rmult_le_reg_r with (16179200 * / 4096)%R; [lra|].
        unfold Rdiv at 1. rewrite Rmult_assoc, Rinv_l by lra. lra. }
      assert (0 <= ml / (16179200 * / 4096))%R.
      { apply Rmult_le_pos; [assumption|]. apply Rlt_le, Rinv_0_lt_compat. lra. }
      set (u1 := unit_roundoff F32.prec) in *.
      set (t1 := tiny F32.prec F32.emax) in *.
      nra. }
  destruct K as [-> | [S | [S B]]].
  - cbn. discriminate.
  - apply steinhart_tail. left.
    apply (SFadd_nonneg_finite F32.prec F32.emax _ 14405391 (-32) S).
  - apply steinhart_tail.
    destruct (l / S754_finite false 16179200 (-12))%f32 as [b|b| |b m e] eqn:Eq;
      cbn [sign_is] in S; try contradiction; subst b.
    + left. reflexivity.
    + right. reflexivity.
    + left. apply (SFadd_small_neg F32.prec F32.emax (S754_finite true m e)
                                   14405391 (-32) eq_refl ltac:(discriminate) B).
Qed.

Lemma int16_all_spec (f : Z -> bool) :
  int16_all f = true -> forall z, -32768 <= z < 32768 -> f z = true.
Proof.
  unfold int16_all. intros H z Hz. rewrite forallb_forall in H.
  set (hi := Z.to_nat ((z + 32768) / 256)).
  set (lo := Z.to_nat ((z + 32768) mod 256)).
  pose proof (Z.mod_pos_bound (z + 32768) 256 ltac:(lia)) as Hm.
  pose proof (Z.div_mod (z + 32768) 256 ltac:(lia)) as Hd.
  assert (0 <= (z + 32768) / 256 < 256)
    by (split; [apply Z.div_pos; lia | apply Z.div_lt_upper_bound; lia]).
  specialize (H hi). rewrite forallb_forall in H.
  assert (Hhi : In hi (seq 0 256)) by (apply in_seq; unfold hi; lia).
  specialize (H Hhi lo).
  assert (Hlo : In lo (seq 0 256)) by (apply in_seq; unfold lo; lia).
  specialize (H Hlo).
  replace (256 * Z.of_nat hi + Z.of_nat lo - 32768) with z in H
    by (unfold hi, lo; rewrite !Z2Nat.id by lia; lia).
  exact H.
Qed.

Lemma raw_ok_all : int16_all raw_ok = true.
Proof. vm_compute. reflexivity. Qed.

Lemma wrap_int16_range (z : Z) : -32768 <= wrap_int16 z < 32768.
Proof.
  unfold wrap_int16. pose proof (Z.mod_pos_bound (z + 32768) 65536). lia.
Qed.

(** ** The recorded times *)

Lemma sign_is_not_nan (s : bool) (x : float) : sign_is s x -> is_nan x = false.
Proof. destruct x; cbn; intros H; [reflexivity..|contradiction|reflexivity]. Qed.

Lemma of_Z_nonneg (z : Z) : 0 <= z -> sign_is false (F32.of_Z z).
Proof.
  intros H. unfold F32.of_Z. destruct (Z.eq_dec z 0) as [->|N].
  - reflexivity.
  - apply binary_normalize_pos. lia.
Qed.

Lemma elapsed_s_nonneg (z : Z) :
  sign_is false (F32.of_Z (wrap_u32 z) / F32.lit 1000 1)%f32.
Proof.
  change (F32.lit 1000 1) with (S754_finite false 16384000 (-14)).
  apply (SFdiv_by_finite F32.prec F32.emax ltac:(reflexivity) _ false false).
  apply of_Z_nonneg. unfold wrap_u32.
  pose proof (Z.mod_pos_bound z 4294967296). lia.
Qed.

Lemma times_ok_zeros : times_ok zeros.
Proof. intros j Hj. destruct j as [|[|[|[|j]]]]; [reflexivity..|lia]. Qed.

Lemma update_peaks_times (baseline t : arr4) (elapsed_s : float)
      (pk : arr4 * arr4) :
  sign_is false elapsed_s -> times_ok (snd pk) ->
  times_ok (snd (update_peaks baseline t elapsed_s pk)).
Proof.
  destruct pk as [peak_dt peak_time]. intros He H j Hj.
  pose proof (update_peaks_channel baseline t elapsed_s peak_dt peak_time j Hj)
    as U. cbv zeta in U.
  destruct (get peak_dt j <? get t j - get baseline j)%f32.
  - destruct U as [_ ->]. exact He.
  - destruct U as [_ ->]. apply (H j Hj).
Qed.

Lemma monitor_loop_times logf env (fuel : nat) :
  forall start_ms baseline pk w pk' w',
    monitor_loop logf env fuel start_ms baseline pk w = Some (pk', w') ->
    times_ok (snd pk) -> times_ok (snd pk').
Proof.
  induction fuel as [|fuel IH]; intros start_ms baseline pk w pk' w' E H.
  - discriminate.
  - cbn [monitor_loop] in E.
    apply bind_Some in E. destruct E as (now & w1 & _ & E).
    destruct (wrap_u32 (now - start_ms) <? FLOW_MONITOR_MS).
    + apply bind_Some in E. destruct E as (t & w2 & _ & E).
      apply bind_Some in E. destruct E as (now' & w3 & _ & E).
      apply bind_Some in E. destruct E as (u & w4 & _ & E).
      eapply IH; [exact E|].
      apply update_peaks_times; [apply elapsed_s_nonneg | exact H].
    + inversion E; subst. exact H.
Qed.

Lemma run_heat_pulse_times logf sinf cosf atan2f env uninit fuel w r w' :
  run_heat_pulse logf sinf cosf atan2f env uninit fuel w = Some (r, w') ->
  times_ok (peak_times r).
Proof.
  unfold run_heat_pulse. intros E.
  apply bind_Some in E. destruct E as (baseline & w1 & _ & E).
  apply bind_Some in E. destruct E as (u & w2 & _ & E).
  apply bind_Some in E. destruct E as (pk & w3 & Em & E).
  inversion E; subst. rewrite flow_estimate_peak_times.
  unfold monitor_phase in Em.
  apply bind_Some in Em. destruct Em as (start_ms & w4 & _ & Em).
  eapply monitor_loop_times; [exact Em | apply times_ok_zeros].
Qed.

(** ** Properties of one measurement cycle *)

Section Cycle.

Variable logf sinf cosf : float -> float.
Variable atan2f : float -> float -> float.
Variable env : Env.

(** C1. A cycle whose dominant peak is below 0.05 returns velocity 0,
    direction -1 and valid = true; four peaks of 0.04 give exactly that
    result, whatever the recorded times and the previous content of
    [result]. *)
Theorem stagnant_cycle :
  (forall uninit fuel w r w',
      run_heat_pulse logf sinf cosf atan2f env uninit fuel w = Some (r, w') ->
      (get (peak_temps r) (dominant (peak_temps r)) <? STAGNANT_DT)%f32 = true ->
      velocity_cm_day r = F32.of_Z 0 /\
      direction_deg r = F32.of_Z (-1) /\
      valid r = true) /\
  (forall result peak_time,
      let peak_dt := Arr4 (F32.lit 4 100) (F32.lit 4 100)
                          (F32.lit 4 100) (F32.lit 4 100) in
      flow_estimate sinf cosf atan2f result peak_dt peak_time =
      {| velocity_cm_day := F32.of_Z 0; direction_deg := F32.of_Z (-1);
         peak_temps := peak_dt; peak_times := peak_time; valid := true |}).
Proof.
  split.
  - intros uninit fuel w r w' E Hlow.
    apply run_heat_pulse_inv in E. destruct E as (peak_dt & peak_time & -> & _).
    rewrite flow_estimate_peak_temps in Hlow.
    rewrite flow_estimate_eq, Hlow. cbn. auto.
  - intros result peak_time peak_dt. rewrite flow_estimate_eq. reflexivity.
Qed.

(** C2. In a cycle that is not stagnant the velocity is K divided by the
    time to peak of the dominant channel, with the time clamped below at
    0.5 s: K / t for t > 0.5 and K / 0.5 for t <= 0.5, and the time, never
    NaN, is in one of the two cases. With K = 900 a time of 0.1 s and a time
    of 0 give the velocity of 0.5 s, which is 1800. *)
Theorem velocity_clamped :
  (forall uninit fuel w r w',
      run_heat_pulse logf sinf cosf atan2f env uninit fuel w = Some (r, w') ->
      (get (peak_temps r) (dominant (peak_temps r)) <? STAGNANT_DT)%f32 = false ->
      let t_peak := get (peak_times r) (dominant (peak_temps r)) in
      ((F32.lit 5 10 <? t_peak)%f32 = true ->
       velocity_cm_day r = (FLOW_CAL_K / t_peak)%f32) /\
      ((t_peak <=? F32.lit 5 10)%f32 = true ->
       velocity_cm_day r = (FLOW_CAL_K / F32.lit 5 10)%f32) /\
      ((F32.lit 5 10 <? t_peak)%f32 = true \/
       (t_peak <=? F32.lit 5 10)%f32 = true)) /\
  FLOW_CAL_K = F32.lit 900 1 /\
  (FLOW_CAL_K / F32.lit 5 10)%f32 = F32.lit 1800 1 /\
  flow_velocity (F32.lit 1 10) = flow_velocity (F32.lit 5 10) /\
  flow_velocity (F32.lit 5 10) = F32.lit 1800 1 /\
  flow_velocity F32.zero = F32.lit 1800 1.
Proof.
  split; [|repeat split; reflexivity].
  intros uninit fuel w r w' E Hflow t_peak.
  pose proof (run_heat_pulse_times _ _ _ _ _ _ _ _ _ _ E) as T.
  assert (N : is_nan t_peak = false)
    by (apply (sign_is_not_nan false); apply T; apply dominant_lt).
  clear T. subst t_peak.
  apply run_heat_pulse_inv in E. destruct E as (peak_dt & peak_time & -> & _).
  rewrite flow_estimate_peak_temps in *. rewrite flow_estimate_peak_times in *.
  rewrite flow_estimate_eq, Hflow. cbn [velocity_cm_day]. unfold flow_velocity.
  split; [|split].
  - intros H. rewrite H. reflexivity.
  - intros H. rewrite (leb_ltb_false _ _ H). reflexivity.
  - destruct (F32.lit 5 10 <? get peak_time (dominant peak_dt))%f32 eqn:L;
      [left; reflexivity|right].
    apply ltb_false_leb; [reflexivity | exact N | exact L].
Qed.

(** C9. When a cycle returns, no echoed peak rise is below zero, whatever
    the thermistors read; and the cycle does return once the clock shows the
    monitoring window over. *)
Theorem peaks_not_below_zero (uninit : FlowResult) (fuel : nat) (w : World) :
  (forall r w',
      run_heat_pulse logf sinf cosf atan2f env uninit fuel w = Some (r, w') ->
      forall j, (j < 4)%nat -> (F32.zero <=? get (peak_temps r) j)%f32 = true) /\
  (forall i, window_over env w i -> (i < fuel)%nat ->
             exists r w',
               run_heat_pulse logf sinf cosf atan2f env uninit fuel w
               = Some (r, w')).
Proof.
  split.
  - intros r w' E. apply run_heat_pulse_inv in E.
    destruct E as (peak_dt & peak_time & -> & H).
    rewrite flow_estimate_peak_temps. exact H.
  - intros i Hw Hf. eapply run_heat_pulse_returns; eassumption.
Qed.

(** C10. Every result of [run_heat_pulse] has valid = true, although
    [result] starts with valid = false; and a result is returned once the
    clock shows the monitoring window over. *)
Theorem result_always_valid (uninit : FlowResult) (fuel : nat) (w : World) :
  valid (set_valid uninit false) = false /\
  (forall r w',
      run_heat_pulse logf sinf cosf atan2f env uninit fuel w = Some (r, w') ->
      valid r = true) /\
  (forall i, window_over env w i -> (i < fuel)%nat ->
             exists r w',
               run_heat_pulse logf sinf cosf atan2f env uninit fuel w
               = Some (r, w') /\ valid r = true).
Proof.
  split; [reflexivity|]. split.
  - intros r w' E. apply run_heat_pulse_inv in E.
    destruct E as (peak_dt & peak_time & -> & _). apply flow_estimate_valid.
  - intros i Hw Hf.
    destruct (run_heat_pulse_returns logf sinf cosf atan2f env uninit fuel i w
                                     Hw Hf) as (r & w' & E).
    exists r, w'. split; [exact E|].
    apply run_heat_pulse_inv in E.
    destruct E as (peak_dt & peak_time & -> & _). apply flow_estimate_valid.
Qed.

(** C4. The scan selects exactly one channel: it holds a largest peak rise
    and every channel before it holds a strictly smaller one, so among equal
    largest rises the lowest index wins; no other index has both
    properties. This holds for the peaks of every cycle, which are never
    NaN. *)
Theorem dominant_channel :
  (forall peak_dt, no_nan4 peak_dt ->
      let m := dominant peak_dt in
      (m < 4)%nat /\
      (forall j, (j < 4)%nat -> (get peak_dt j <=? get peak_dt m)%f32 = true) /\
      (forall j, (j < m)%nat -> (get peak_dt j <? get peak_dt m)%f32 = true) /\
      (forall k, (k < 4)%nat ->
         (forall j, (j < 4)%nat -> (get peak_dt j <=? get peak_dt k)%f32 = true) ->
         (forall j, (j < k)%nat -> (get peak_dt j <? get peak_dt k)%f32 = true) ->
         k = m)) /\
  (forall uninit fuel w r w',
      run_heat_pulse logf sinf cosf atan2f env uninit fuel w = Some (r, w') ->
      no_nan4 (peak_temps r)).
Proof.
  split.
  - intros peak_dt N m. destruct (dominant_spec peak_dt N) as [Hmax Hfirst].
    fold m in Hmax, Hfirst. pose proof (dominant_lt peak_dt) as Hm. fold m in Hm.
    repeat split; try assumption.
    intros k Hk Kmax Kfirst.
    destruct (Nat.lt_trichotomy k m) as [L | [L | L]]; [|exact L|].
    + pose proof (Hfirst k L) as A. pose proof (Kmax m Hm) as B.
      rewrite (leb_ltb_false _ _ B) in A. discriminate.
    + pose proof (Kfirst m L) as A. pose proof (Hmax k Hk) as B.
      rewrite (leb_ltb_false _ _ B) in A. discriminate.
  - intros uninit fuel w r w' E. apply run_heat_pulse_inv in E.
    destruct E as (peak_dt & peak_time & -> & H).
    rewrite flow_estimate_peak_temps. apply nonneg4_no_nan, H.
Qed.

End Cycle.


(** ** The sentinel and the direction *)

(** C6. [thermistor_temp] always returns a value. For every 16-bit count it
    returns the sentinel -999 (which is not NaN) exactly when the resistance
    computed from the divider is not above zero, that is up to count 0 and
    from count 26400 on; for [logf] in its range no other count gives the
    sentinel. *)
Theorem sentinel_iff_no_resistance (logf : float -> float) :
  logf_in_range logf ->
  (forall env channel w,
      exists w',
        thermistor_temp logf env channel w
        = Some (temp_of_raw logf
                            (wrap_int16 (adc_sample env (conversions w) channel)),
                w')) /\
  (forall z,
      let raw := wrap_int16 z in
      (temp_of_raw logf raw = SENTINEL <->
       (r_therm_of_raw raw <=? F32.zero)%f32 = true) /\
      ((r_therm_of_raw raw <=? F32.zero)%f32 = true <->
       raw <= 0 \/ 26400 <= raw)) /\
  SENTINEL = F32.lit (-999) 1 /\
  is_nan SENTINEL = false.
Proof.
  intros H. split; [|split; [|split; reflexivity]].
  - intros env channel w. eexists. reflexivity.
  - intros z raw.
    pose proof (int16_all_spec raw_ok raw_ok_all raw (wrap_int16_range z))
      as Hok. unfold raw_ok in Hok. cbv zeta in Hok.
    unfold temp_of_raw.
    destruct (r_therm_of_raw raw <=? F32.zero)%f32 eqn:E.
    + split; [split; reflexivity|].
      split; [intros _; lia | reflexivity].
    + apply andb_prop in Hok. destruct Hok as [Hok Hratio].
      apply andb_prop in Hok. destruct Hok as [Hlo Hhi].
      split; split; try discriminate.
      * intros Hs. exfalso.
        exact (steinhart_temp_not_sentinel logf _ H Hratio Hs).
      * lia.
Qed.

Section Direction.

Variable logf sinf cosf : float -> float.
Variable atan2f : float -> float -> float.
Variable env : Env.


End Direction.

(** ** The properties on the test bench *)

Lemma bench_window_over (env : Env) :
  clock_ms env = (fun n => 1000 + 50 * Z.of_nat n) ->
  window_over env boot 600.
Proof. intros E. unfold window_over. rewrite E. vm_compute. discriminate. Defined.

Lemma still_returns :
  run_heat_pulse Bench.logf Bench.sinf Bench.cosf Bench.atan2f Bench.still
                 Bench.garbage 601 boot
  = Some (Bench.still_result, Bench.still_world).
Proof. vm_compute. reflexivity. Defined.

Lemma pulse_returns :
  run_heat_pulse Bench.logf Bench.sinf Bench.cosf Bench.atan2f Bench.pulse
                 Bench.garbage 601 boot
  = Some (Bench.pulse_result, Bench.pulse_world).
Proof. vm_compute. reflexivity. Defined.

Lemma stagnant_cycle_witness :
  let r := Bench.still_result in
  (get (peak_temps r) (dominant (peak_temps r)) <? STAGNANT_DT)%f32 = true /\
  velocity_cm_day r = F32.of_Z 0 /\
  direction_deg r = F32.of_Z (-1) /\
  valid r = true.
Proof.
  cbv zeta.
  assert (Hlow : (get (peak_temps Bench.still_result)
                      (dominant (peak_temps Bench.still_result))
                  <? STAGNANT_DT)%f32 = true) by (vm_compute; reflexivity).
  split; [exact Hlow|].
  exact (proj1 (stagnant_cycle Bench.logf Bench.sinf Bench.cosf Bench.atan2f
                               Bench.still)
               Bench.garbage 601%nat boot Bench.still_result
               Bench.still_world still_returns Hlow).
Defined.

Lemma velocity_clamped_witness :
  let r := Bench.pulse_result in
  let t_peak := get (peak_times r) (dominant (peak_temps r)) in
  t_peak = F32.lit 21 10 /\
  velocity_cm_day r = (FLOW_CAL_K / t_peak)%f32.
Proof.
  cbv zeta. split; [vm_compute; reflexivity|].
  assert (Hflow : (get (peak_temps Bench.pulse_result)
                       (dominant (peak_temps Bench.pulse_result))
                   <? STAGNANT_DT)%f32 = false) by (vm_compute; reflexivity).
  assert (Hlate : (F32.lit 5 10 <?
                   get (peak_times Bench.pulse_result)
                       (dominant (peak_temps Bench.pulse_result)))%f32 = true)
    by (vm_compute; reflexivity).
  exact (proj1 (proj1 (velocity_clamped Bench.logf Bench.sinf Bench.cosf
                                        Bench.atan2f Bench.pulse)
                      Bench.garbage 601%nat boot Bench.pulse_result
                      Bench.pulse_world pulse_returns Hflow) Hlate).
Defined.

Lemma peaks_not_below_zero_witness :
  (forall j, (j < 4)%nat ->
             (F32.zero <=? get (peak_temps Bench.pulse_result) j)%f32 = true) /\
  exists r w',
    run_heat_pulse Bench.logf Bench.sinf Bench.cosf Bench.atan2f Bench.pulse
                   Bench.garbage 601 boot = Some (r, w').
Proof.
  pose proof (peaks_not_below_zero Bench.logf Bench.sinf Bench.cosf
                                   Bench.atan2f Bench.pulse Bench.garbage
                                   601%nat boot) as [Hpeaks Hreturns].
  split.
  - exact (Hpeaks Bench.pulse_result Bench.pulse_world pulse_returns).
  - apply (Hreturns 600%nat); [apply bench_window_over; reflexivity | lia].
Defined.

Lemma result_always_valid_witness :
  valid Bench.garbage = false /\
  valid Bench.pulse_result = true /\
  exists r w',
    run_heat_pulse Bench.logf Bench.sinf Bench.cosf Bench.atan2f Bench.still
                   Bench.garbage 601 boot = Some (r, w') /\ valid r = true.
Proof.
  split; [reflexivity|]. split.
  - exact (proj1 (proj2 (result_always_valid
                           Bench.logf Bench.sinf Bench.cosf Bench.atan2f
                           Bench.pulse Bench.garbage 601%nat boot))
                 Bench.pulse_result Bench.pulse_world pulse_returns).
  - apply (proj2 (proj2 (result_always_valid
                           Bench.logf Bench.sinf Bench.cosf Bench.atan2f
                           Bench.still Bench.garbage 601%nat boot)) 600%nat);
      [apply bench_window_over; reflexivity | lia].
Defined.

Lemma dominant_channel_witness :
  let peak_dt := Arr4 (F32.lit 3 10) (F32.lit 7 10) (F32.lit 7 10)
                      (F32.lit 1 10) in
  dominant peak_dt = 1%nat /\
  (forall j, (j < 4)%nat ->
             (get peak_dt j <=? get peak_dt (dominant peak_dt))%f32 = true) /\
  (forall j, (j < dominant peak_dt)%nat ->
             (get peak_dt j <? get peak_dt (dominant peak_dt))%f32 = true).
Proof.
  cbv zeta. split; [reflexivity|].
  assert (N : no_nan4 (Arr4 (F32.lit 3 10) (F32.lit 7 10) (F32.lit 7 10)
                            (F32.lit 1 10))).
  { intros j Hj. destruct j as [|[|[|[|j]]]]; [reflexivity..|lia]. }
  destruct (proj1 (dominant_channel Bench.logf Bench.sinf Bench.cosf
                                    Bench.atan2f Bench.pulse) _ N)
    as (_ & Hmax & Hfirst & _).
  split; assumption.
Defined.


Lemma bench_logf_in_range : logf_in_range Bench.logf.
Proof.
  intros x _. unfold Bench.logf. cbn [Bench.lookup].
  repeat match goal with
         | |- context [Bench.sf_eqb ?a ?b] => destruct (Bench.sf_eqb a b)
         end; split; reflexivity.
Defined.


Lemma sentinel_iff_no_resistance_witness :
  temp_of_raw Bench.logf 0 = SENTINEL /\
  temp_of_raw Bench.logf 13200 <> SENTINEL.
Proof.
  pose proof (proj1 (proj2 (sentinel_iff_no_resistance Bench.logf
                                                       bench_logf_in_range)))
    as H.
  split.
  - apply (proj1 (H 0)). reflexivity.
  - intros E. apply (proj1 (H 13200)) in E. discriminate E.
Defined.




Lemma north_south_returns :
  run_heat_pulse Bench.logf Bench.sinf Bench.cosf Bench.atan2f
                 Bench.north_south Bench.garbage 601 boot
  = Some (Bench.north_south_result, Bench.north_south_world).
Proof. vm_compute. reflexivity. Qed.

(** C3 at a cycle with rises on the north and south channels only (peaks
    0.68359375 and 0.34136963): the bearing before normalisation is about
    -0.000005 degrees, because [sinf] of the [float] nearest to pi is not
    zero, and adding 360 rounds to 360 itself, outside [0, 360). *)
Theorem direction_reaches_360 :
  run_heat_pulse Bench.logf Bench.sinf Bench.cosf Bench.atan2f
                 Bench.north_south Bench.garbage 601 boot
  = Some (Bench.north_south_result, Bench.north_south_world) /\
  peak_temps Bench.north_south_result
  = Arr4 (S754_finite false 11468800 (-24)) F32.zero
         (S754_finite false 11454464 (-25)) F32.zero /\
  (get (peak_temps Bench.north_south_result)
       (dominant (peak_temps Bench.north_south_result)) <? STAGNANT_DT)%f32
  = false /\
  bearing_deg Bench.sinf Bench.cosf Bench.atan2f
              (peak_temps Bench.north_south_result)
  = S754_finite true 10987309 (-41) /\
  direction_deg Bench.north_south_result = F32.lit 360 1 /\
  (direction_deg Bench.north_south_result <? F32.lit 360 1)%f32 = false.
Proof.
  split; [exact north_south_returns|].
  repeat split; vm_compute; reflexivity.
Qed.

(** * Lemmas for the further properties *)

(** ** What a cycle does and reads *)

Lemma leaves_ret {A} (a : A) : leaves (ret a) 0 [].
Proof. intros w. exists a, w. repeat split. Qed.

Lemma leaves_bind {A B} (m : M A) (k : A -> M B) d1 e1 d2 e2 :
  leaves m d1 e1 -> (forall a, leaves (k a) d2 e2) ->
  leaves (bind m k) (d2 + d1) (e2 ++ e1).
Proof.
  intros Hm Hk w. destruct (Hm w) as (a & w1 & E1 & C1 & K1 & V1).
  destruct (Hk a w1) as (b & w2 & E2 & C2 & K2 & V2).
  exists b, w2. unfold bind. rewrite E1. split; [exact E2|].
  rewrite C2, K2, V2, C1, K1, V1, <- app_assoc. repeat split; lia.
Qed.

Lemma leaves_emit (e : Event) : leaves (emit e) 0 [e].
Proof. intros w. eexists _, _. split; [reflexivity|]. repeat split. Qed.

Lemma leaves_for_loop {S} (body : nat -> S -> M S) d e :
  (forall i s, leaves (body i s) d e) ->
  forall n i s, leaves (for_loop n i body s) (n * d) (concat (repeat e n)).
Proof.
  intros Hb n. induction n as [|n IH]; intros i s; cbn [for_loop].
  - apply leaves_ret.
  - replace (Datatypes.S n * d)%nat with (n * d + d)%nat by lia.
    replace (concat (repeat e (Datatypes.S n)))
      with (concat (repeat e n) ++ e).
    + apply leaves_bind; [apply Hb | intros s'; apply IH].
    + clear. induction n as [|n IH]; cbn [repeat concat].
      * rewrite app_nil_r. reflexivity.
      * cbn [repeat concat] in IH. rewrite <- app_assoc, IH. reflexivity.
Qed.

Section Footprint.
Variable logf sinf cosf : float -> float.
Variable atan2f : float -> float -> float.
Variable env : Env.

Lemma leaves_thermistor_temp (channel : Z) :
  leaves (thermistor_temp logf env channel) 1 [].
Proof. intros w. eexists _, _. split; [reflexivity|]. repeat split. Qed.

Lemma leaves_read_all_thermistors :
  leaves (read_all_thermistors logf env) 4 [].
Proof.
  unfold read_all_thermistors.
  change 4%nat with (0 + 1 + 1 + 1 + 1)%nat.
  change (@nil Event) with ((((@nil Event ++ []) ++ []) ++ []) ++ []).
  repeat (apply leaves_bind; [apply leaves_thermistor_temp | intros ?]).
  apply leaves_ret.
Qed.

Lemma leaves_baseline_phase :
  leaves (baseline_phase logf env) 40 (repeat (Delay 50) 10).
Proof.
  unfold baseline_phase.
  change 40%nat with (0 + 10 * (0 + 0 + 4))%nat.
  change (repeat (Delay 50) 10)
    with ([] ++ concat (repeat (([] ++ [Delay 50]) ++ []) 10)).
  apply leaves_bind; [|intros; apply leaves_ret].
  apply leaves_for_loop. intros i s.
  apply leaves_bind; [apply leaves_read_all_thermistors | intros t].
  apply leaves_bind; [apply leaves_emit | intros; apply leaves_ret].
Qed.

Lemma leaves_fire_heater :
  leaves fire_heater 0
         [Delay HEATER_SETTLE_MS; DigitalWrite PIN_HEATER false;
          Delay HEATER_POWER_MS; DigitalWrite PIN_HEATER true;
          PinModeOutput PIN_HEATER].
Proof.
  unfold fire_heater, pinMode_OUTPUT, digitalWrite, delay.
  change 0%nat with (0 + 0 + 0 + 0 + 0)%nat at 1.
  change [Delay HEATER_SETTLE_MS; DigitalWrite PIN_HEATER false;
          Delay HEATER_POWER_MS; DigitalWrite PIN_HEATER true;
          PinModeOutput PIN_HEATER]
    with (((([Delay HEATER_SETTLE_MS] ++ [DigitalWrite PIN_HEATER false])
            ++ [Delay HEATER_POWER_MS]) ++ [DigitalWrite PIN_HEATER true])
          ++ [PinModeOutput PIN_HEATER]).
  repeat (apply leaves_bind; [apply leaves_emit | intros ?]).
  apply leaves_emit.
Qed.

Lemma monitor_loop_world (fuel : nat) :
  forall start_ms baseline pk w pk' w',
    monitor_loop logf env fuel start_ms baseline pk w = Some (pk', w') ->
    exists n, (n < fuel)%nat /\
      conversions w' = (4 * n + conversions w)%nat /\
      clock_reads w' = (1 + 2 * n + clock_reads w)%nat /\
      events w' = repeat (Delay FLOW_SAMPLE_MS) n ++ events w.
Proof.
  induction fuel as [|fuel IH]; intros start_ms baseline pk w pk' w' E.
  - discriminate.
  - cbn [monitor_loop] in E. unfold bind at 1 in E. cbn [millis] in E.
    destruct (wrap_u32 (wrap_u32 (clock_ms env (clock_reads w)) - start_ms)
              <? FLOW_MONITOR_MS).
    + unfold bind at 1 in E.
      match type of E with
      | match read_all_thermistors _ _ ?w0 with _ => _ end = _ =>
        destruct (leaves_read_all_thermistors w0) as (t & w1 & Et & C1 & K1 & V1)
      end.
      rewrite Et in E. cbn [conversions clock_reads events] in C1, K1, V1.
      unfold bind at 1 in E. cbn [millis] in E.
      unfold bind at 1 in E. cbn [delay emit] in E.
      apply IH in E. destruct E as (n & Hn & Hc & Hk & He).
      cbn [conversions clock_reads events] in Hc, Hk, He.
      exists (S n). rewrite Hc, Hk, He, C1, K1, V1.
      repeat split; try lia.
      cbn [repeat]. rewrite (repeat_cons n), <- app_assoc. reflexivity.
    + inversion E; subst. exists 0%nat. cbn. repeat split; lia.
Qed.

Lemma run_heat_pulse_world (uninit : FlowResult) (fuel : nat) (w w' : World)
      (r : FlowResult) :
  run_heat_pulse logf sinf cosf atan2f env uninit fuel w = Some (r, w') ->
  exists n, (n < fuel)%nat /\
    conversions w' = (conversions w + 40 + 4 * n)%nat /\
    clock_reads w' = (clock_reads w + 2 + 2 * n)%nat /\
    rev (events w') = rev (events w) ++ cycle_events n.
Proof.
  unfold run_heat_pulse. intros E.
  apply bind_Some in E. destruct E as (baseline & w1 & Eb & E).
  apply bind_Some in E. destruct E as (u & w2 & Eh & E).
  apply bind_Some in E. destruct E as (pk & w3 & Em & E).
  inversion E; subst w3. clear E.
  destruct (leaves_baseline_phase w) as (b' & w1' & Eb' & C1 & K1 & V1).
  rewrite Eb in Eb'. inversion Eb'; subst b' w1'. clear Eb'.
  destruct (leaves_fire_heater w1) as (u' & w2' & Eh' & C2 & K2 & V2).
  rewrite Eh in Eh'. inversion Eh'; subst u' w2'. clear Eh'.
  unfold monitor_phase in Em.
  apply bind_Some in Em. destruct Em as (start_ms & w4 & Es & Em).
  cbn [millis] in Es. inversion Es; subst w4. clear Es.
  apply monitor_loop_world in Em.
  destruct Em as (n & Hn & Hc & Hk & He).
  cbn [conversions clock_reads events] in Hc, Hk, He.
  exists n. rewrite Hc, Hk, He, C2, K2, V2, C1, K1, V1.
  repeat split; try lia.
  unfold cycle_events.
  rewrite !rev_app_distr, !rev_repeat. cbn [rev app].
  rewrite <- !app_assoc. reflexivity.
Qed.

End Footprint.

(** ** The content of [result], the peaks and the clock *)

Section ResultFacts.
Variable logf sinf cosf : float -> float.
Variable atan2f : float -> float -> float.
Variable env : Env.

(** *** The content of [result] on entry *)

Lemma run_heat_pulse_uninit (u1 u2 : FlowResult) (fuel : nat) (w : World) :
  run_heat_pulse logf sinf cosf atan2f env u1 fuel w
  = run_heat_pulse logf sinf cosf atan2f env u2 fuel w.
Proof.
  unfold run_heat_pulse, bind.
  destruct (baseline_phase logf env w) as [[b w1]|]; [|reflexivity].
  destruct (fire_heater w1) as [[u w2]|]; [|reflexivity].
  destruct (monitor_phase logf env fuel b w2) as [[pk w3]|]; [|reflexivity].
  unfold ret. rewrite !flow_estimate_eq. reflexivity.
Qed.

(** *** Peak and time together *)

Lemma coupled_zeros : coupled zeros zeros.
Proof.
  intros j Hj. left. destruct j as [|[|[|[|j]]]]; try lia; split; reflexivity.
Qed.

Lemma update_peaks_coupled (baseline t : arr4) (elapsed_s : float)
      (pk : arr4 * arr4) :
  coupled (fst pk) (snd pk) ->
  let pk' := update_peaks baseline t elapsed_s pk in
  coupled (fst pk') (snd pk').
Proof.
  destruct pk as [peak_dt peak_time]. cbn [fst snd]. intros H j Hj.
  pose proof (update_peaks_channel baseline t elapsed_s peak_dt peak_time j Hj)
    as U. cbv zeta in U.
  destruct (get peak_dt j <? get t j - get baseline j)%f32 eqn:E.
  - destruct U as [-> _]. right.
    destruct (H j Hj) as [[Z _] | P].
    + rewrite Z in E. exact E.
    + eapply leb_ltb_trans; [apply ltb_leb; exact P | exact E].
  - destruct U as [-> ->]. apply (H j Hj).
Qed.

Lemma monitor_loop_coupled (fuel : nat) :
  forall start_ms baseline pk w pk' w',
    monitor_loop logf env fuel start_ms baseline pk w = Some (pk', w') ->
    coupled (fst pk) (snd pk) -> coupled (fst pk') (snd pk').
Proof.
  induction fuel as [|fuel IH]; intros start_ms baseline pk w pk' w' E H.
  - discriminate.
  - cbn [monitor_loop] in E.
    apply bind_Some in E. destruct E as (now & w1 & _ & E).
    destruct (wrap_u32 (now - start_ms) <? FLOW_MONITOR_MS).
    + apply bind_Some in E. destruct E as (t & w2 & _ & E).
      apply bind_Some in E. destruct E as (now' & w3 & _ & E).
      apply bind_Some in E. destruct E as (u & w4 & _ & E).
      eapply IH; [exact E|]. apply update_peaks_coupled, H.
    + inversion E; subst. exact H.
Qed.

Lemma run_heat_pulse_coupled (uninit : FlowResult) (fuel : nat) (w w' : World)
      (r : FlowResult) :
  run_heat_pulse logf sinf cosf atan2f env uninit fuel w = Some (r, w') ->
  coupled (peak_temps r) (peak_times r).
Proof.
  unfold run_heat_pulse. intros E.
  apply bind_Some in E. destruct E as (baseline & w1 & _ & E).
  apply bind_Some in E. destruct E as (u & w2 & _ & E).
  apply bind_Some in E. destruct E as (pk & w3 & Em & E).
  inversion E; subst.
  rewrite flow_estimate_peak_times, flow_estimate_peak_temps.
  unfold monitor_phase in Em.
  apply bind_Some in Em. destruct Em as (start_ms & w4 & _ & Em).
  eapply monitor_loop_coupled; [exact Em | apply coupled_zeros].
Qed.

End ResultFacts.

(** *** A shifted clock *)

Lemma wrap_u32_shift (a b k : Z) :
  wrap_u32 (wrap_u32 (a + k) - wrap_u32 (b + k))
  = wrap_u32 (wrap_u32 a - wrap_u32 b).
Proof.
  unfold wrap_u32.
  rewrite <- !Zminus_mod. f_equal. lia.
Qed.

Lemma wrap_u32_shift_start (a k s s' : Z) :
  wrap_u32 (s' - (s + k)) = 0 ->
  wrap_u32 (wrap_u32 (a + k) - s') = wrap_u32 (wrap_u32 a - s).
Proof.
  unfold wrap_u32. intros H.
  rewrite !Zminus_mod_idemp_l.
  apply Z.mod_divide in H; [|lia]. destruct H as [q Hq].
  replace (a + k - s') with (a - s + (- q) * 4294967296) by lia.
  apply Z.mod_add. lia.
Qed.

Section Shift.
Variable logf sinf cosf : float -> float.
Variable atan2f : float -> float -> float.
Variable env : Env.
Variable k : Z.

Lemma read_all_thermistors_shift :
  read_all_thermistors logf (shift_clock k env)
  = read_all_thermistors logf env.
Proof. reflexivity. Qed.

Lemma baseline_phase_shift :
  baseline_phase logf (shift_clock k env) = baseline_phase logf env.
Proof. unfold baseline_phase. rewrite read_all_thermistors_shift. reflexivity. Qed.

Lemma monitor_loop_shift (fuel : nat) :
  forall s s' baseline pk w,
    wrap_u32 (s' - (s + k)) = 0 ->
    monitor_loop logf (shift_clock k env) fuel s' baseline pk w
    = monitor_loop logf env fuel s baseline pk w.
Proof.
  induction fuel as [|fuel IH]; intros s s' baseline pk w Hs; [reflexivity|].
  cbn [monitor_loop]. rewrite read_all_thermistors_shift.
  unfold bind, millis, delay, emit. cbn [shift_clock clock_ms].
  rewrite (wrap_u32_shift_start _ k s s' Hs).
  destruct (wrap_u32 (wrap_u32 (clock_ms env (clock_reads w)) - s)
            <? FLOW_MONITOR_MS); [|reflexivity].
  match goal with
  | |- context [read_all_thermistors logf env ?w0] =>
    destruct (read_all_thermistors logf env w0) as [[t w1]|]; [|reflexivity]
  end.
  rewrite (wrap_u32_shift_start _ k s s' Hs).
  apply IH. exact Hs.
Qed.

Lemma run_heat_pulse_shift (uninit : FlowResult) (fuel : nat) (w : World) :
  run_heat_pulse logf sinf cosf atan2f (shift_clock k env) uninit fuel w
  = run_heat_pulse logf sinf cosf atan2f env uninit fuel w.
Proof.
  unfold run_heat_pulse. rewrite baseline_phase_shift.
  unfold bind at 1 4.
  destruct (baseline_phase logf env w) as [[b w1]|]; [|reflexivity].
  unfold bind at 1 3.
  destruct (fire_heater w1) as [[u w2]|]; [|reflexivity].
  unfold monitor_phase, bind, millis. cbn [shift_clock clock_ms].
  rewrite (monitor_loop_shift fuel (wrap_u32 (clock_ms env (clock_reads w2)))).
  - reflexivity.
  - unfold wrap_u32. rewrite Zminus_mod_idemp_l.
    pose proof (Z.div_mod (clock_ms env (clock_reads w2)) 4294967296
                          ltac:(lia)) as D.
    replace (clock_ms env (clock_reads w2) + k
             - (clock_ms env (clock_reads w2) mod 4294967296 + k))
      with (clock_ms env (clock_reads w2) / 4294967296 * 4294967296) by lia.
    apply Z.mod_mul. lia.
Qed.

End Shift.

(** ** The pace of the monitoring loop *)

Section Pace.
Variable logf sinf cosf : float -> float.
Variable atan2f : float -> float -> float.
Variable env : Env.

Lemma monitor_loop_within (i : nat) :
  forall fuel start_ms baseline pk w pk' w',
    monitor_loop logf env fuel start_ms baseline pk w = Some (pk', w') ->
    FLOW_MONITOR_MS <=
      wrap_u32 (wrap_u32 (clock_ms env (clock_reads w + 2 * i)) - start_ms) ->
    (clock_reads w' <= 1 + 2 * i + clock_reads w)%nat.
Proof.
  induction i as [|i IH]; intros fuel start_ms baseline pk w pk' w' E Hw;
    (destruct fuel as [|fuel]; [discriminate|]); cbn [monitor_loop] in E;
    unfold bind at 1 in E; cbn [millis] in E.
  - replace (clock_reads w + 2 * 0)%nat with (clock_reads w) in Hw by lia.
    destruct (Z.ltb_spec (wrap_u32 (wrap_u32 (clock_ms env (clock_reads w))
                                    - start_ms)) FLOW_MONITOR_MS); [lia|].
    inversion E; subst. cbn. lia.
  - destruct (wrap_u32 (wrap_u32 (clock_ms env (clock_reads w)) - start_ms)
              <? FLOW_MONITOR_MS).
    + unfold bind at 1 in E.
      match type of E with
      | match read_all_thermistors _ _ ?w0 with _ => _ end = _ =>
        destruct (leaves_read_all_thermistors logf env w0)
          as (t & w1 & Et & C1 & K1 & V1)
      end.
      rewrite Et in E. cbn [conversions clock_reads events] in C1, K1, V1.
      unfold bind at 1 in E. cbn [millis] in E.
      unfold bind at 1 in E. cbn [delay emit] in E.
      apply IH in E.
      * cbn [clock_reads] in E. lia.
      * cbn [clock_reads]. rewrite K1.
        replace (S (S (clock_reads w)) + 2 * i)%nat
          with (clock_reads w + 2 * S i)%nat by lia.
        exact Hw.
    + inversion E; subst. cbn. lia.
Qed.

Lemma paced_elapsed (w : World) :
  paced env w ->
  forall i, (i <= MAX_SAMPLES)%nat ->
    FLOW_SAMPLE_MS * Z.of_nat i
    <= clock_ms env (clock_reads w + 1 + 2 * i) - clock_ms env (clock_reads w).
Proof.
  intros (H0 & Hstep & _) i. induction i as [|i IH]; intros Hi.
  - replace (clock_reads w + 1 + 2 * 0)%nat with (clock_reads w + 1)%nat by lia.
    lia.
  - specialize (IH ltac:(lia)). specialize (Hstep i ltac:(lia)).
    unfold FLOW_SAMPLE_MS in *. lia.
Qed.

Lemma paced_window_over (w : World) :
  paced env w -> window_over env w MAX_SAMPLES.
Proof.
  intros H. pose proof (paced_elapsed w H MAX_SAMPLES ltac:(lia)) as E.
  destruct H as (_ & _ & Hlt). unfold window_over, wrap_u32.
  rewrite <- Zminus_mod.
  rewrite Z.mod_small; [|split; [|exact Hlt]].
  - unfold FLOW_MONITOR_MS, FLOW_SAMPLE_MS, MAX_SAMPLES in *. lia.
  - unfold FLOW_SAMPLE_MS, MAX_SAMPLES in *. lia.
Qed.

Lemma run_heat_pulse_within (uninit : FlowResult) (fuel i : nat)
      (w w' : World) (r : FlowResult) :
  run_heat_pulse logf sinf cosf atan2f env uninit fuel w = Some (r, w') ->
  window_over env w i ->
  (clock_reads w' <= clock_reads w + 2 + 2 * i)%nat.
Proof.
  unfold run_heat_pulse. intros E Hw.
  apply bind_Some in E. destruct E as (baseline & w1 & Eb & E).
  apply bind_Some in E. destruct E as (u & w2 & Eh & E).
  apply bind_Some in E. destruct E as (pk & w3 & Em & E).
  inversion E; subst w3. clear E.
  destruct (leaves_baseline_phase logf env w) as (b' & w1' & Eb' & C1 & K1 & V1).
  rewrite Eb in Eb'. inversion Eb'; subst b' w1'. clear Eb'.
  destruct (leaves_fire_heater w1) as (u' & w2' & Eh' & C2 & K2 & V2).
  rewrite Eh in Eh'. inversion Eh'; subst u' w2'. clear Eh'.
  unfold monitor_phase in Em.
  apply bind_Some in Em. destruct Em as (start_ms & w4 & Es & Em).
  cbn [millis] in Es. inversion Es; subst w4 start_ms. clear Es.
  apply (monitor_loop_within i) in Em.
  - cbn [clock_reads] in Em. lia.
  - cbn [clock_reads]. unfold window_over in Hw. rewrite K2, K1.
    replace (S (clock_reads w) + 2 * i)%nat
      with (clock_reads w + 1 + 2 * i)%nat by lia.
    exact Hw.
Qed.

End Pace.

(** ** Thermistors without a resistance *)

Lemma open_count_sentinel (logf : float -> float) (z : Z) :
  (let raw := wrap_int16 z in raw <= 0 \/ 26400 <= raw) ->
  temp_of_raw logf (wrap_int16 z) = SENTINEL.
Proof.
  cbv zeta. intros H.
  pose proof (int16_all_spec raw_ok raw_ok_all _ (wrap_int16_range z)) as Hok.
  unfold raw_ok in Hok. cbv zeta in Hok. unfold temp_of_raw.
  destruct (r_therm_of_raw (wrap_int16 z) <=? F32.zero)%f32; [reflexivity|].
  apply andb_prop in Hok. destruct Hok as [Hok _].
  apply andb_prop in Hok. destruct Hok as [Hlo Hhi]. lia.
Qed.

Section Open.
Variable logf sinf cosf : float -> float.
Variable atan2f : float -> float -> float.
Variable env : Env.
Hypothesis Hopen : open_circuit env.

Lemma open_thermistor_temp (channel : Z) (w : World) :
  exists w', thermistor_temp logf env channel w = Some (SENTINEL, w').
Proof.
  unfold thermistor_temp, bind, readADC_SingleEnded, ret.
  rewrite open_count_sentinel by apply Hopen. eexists. reflexivity.
Qed.

Lemma open_read_all_thermistors (w : World) :
  exists w', read_all_thermistors logf env w = Some (all_sentinel, w').
Proof.
  unfold read_all_thermistors.
  destruct (open_thermistor_temp CH_THERM_N w) as (w1 & E1).
  unfold bind at 1. rewrite E1.
  destruct (open_thermistor_temp CH_THERM_E w1) as (w2 & E2).
  unfold bind at 1. rewrite E2.
  destruct (open_thermistor_temp CH_THERM_S w2) as (w3 & E3).
  unfold bind at 1. rewrite E3.
  destruct (open_thermistor_temp CH_THERM_W w3) as (w4 & E4).
  unfold bind at 1. rewrite E4.
  eexists. reflexivity.
Qed.

Lemma for_loop_pure {S} (body : nat -> S -> M S) (f : S -> S) :
  (forall i s w, exists w', body i s w = Some (f s, w')) ->
  forall n i s w, exists w', for_loop n i body s w = Some (Nat.iter n f s, w').
Proof.
  intros Hb n. induction n as [|n IH]; intros i s w; cbn [for_loop].
  - exists w. reflexivity.
  - destruct (Hb i s w) as (w1 & E1). unfold bind. rewrite E1.
    destruct (IH (Datatypes.S i) (f s) w1) as (w2 & E2). exists w2.
    rewrite E2, Nat.iter_succ_r. reflexivity.
Qed.

Lemma open_baseline_phase (w : World) :
  exists w', baseline_phase logf env w = Some (all_sentinel, w').
Proof.
  unfold baseline_phase.
  match goal with
  | |- context [for_loop 10 0 ?body zeros] =>
    pose proof (for_loop_pure body
      (fun baseline =>
         fold_left (fun b j => set b j (get b j + get all_sentinel j)%f32)
                   (seq 0 4) baseline)) as L
  end.
  destruct (L ltac:(intros i s w0;
                    destruct (open_read_all_thermistors w0) as (w1 & E1);
                    unfold bind at 1; rewrite E1; eexists; reflexivity)
              10%nat 0%nat zeros w) as (w1 & E1).
  exists w1. apply bind_Some. eexists _, w1. split; [exact E1|].
  unfold ret. f_equal.
Qed.

Lemma open_update_peaks (elapsed_s : float) :
  update_peaks all_sentinel all_sentinel elapsed_s (zeros, zeros)
  = (zeros, zeros).
Proof. reflexivity. Qed.

Lemma open_monitor_loop (fuel : nat) :
  forall start_ms w pk' w',
    monitor_loop logf env fuel start_ms all_sentinel (zeros, zeros) w
    = Some (pk', w') ->
    pk' = (zeros, zeros).
Proof.
  induction fuel as [|fuel IH]; intros start_ms w pk' w' E.
  - discriminate.
  - cbn [monitor_loop] in E. unfold bind at 1 in E. cbn [millis] in E.
    destruct (wrap_u32 (wrap_u32 (clock_ms env (clock_reads w)) - start_ms)
              <? FLOW_MONITOR_MS).
    + unfold bind at 1 in E.
      match type of E with
      | match read_all_thermistors _ _ ?w0 with _ => _ end = _ =>
        destruct (open_read_all_thermistors w0) as (w1 & Et)
      end.
      rewrite Et in E.
      unfold bind at 1 in E. cbn [millis] in E.
      unfold bind at 1 in E. cbn [delay emit] in E.
      rewrite open_update_peaks in E.
      apply IH in E. exact E.
    + inversion E; subst. reflexivity.
Qed.

Lemma open_run_heat_pulse (uninit : FlowResult) (fuel : nat) (w w' : World)
      (r : FlowResult) :
  run_heat_pulse logf sinf cosf atan2f env uninit fuel w = Some (r, w') ->
  r = no_flow.
Proof.
  unfold run_heat_pulse. intros E.
  apply bind_Some in E. destruct E as (baseline & w1 & Eb & E).
  apply bind_Some in E. destruct E as (u & w2 & Eh & E).
  apply bind_Some in E. destruct E as (pk & w3 & Em & E).
  inversion E; subst w3. clear E.
  destruct (open_baseline_phase w) as (w1' & Eb').
  rewrite Eb in Eb'. inversion Eb'; subst baseline w1'. clear Eb'.
  unfold monitor_phase in Em.
  apply bind_Some in Em. destruct Em as (start_ms & w4 & Es & Em).
  apply open_monitor_loop in Em. subst pk. cbn [fst snd].
  rewrite flow_estimate_eq. reflexivity.
Qed.

End Open.

(** ** The peaks, on the samples of a cycle *)

Lemma ltb_irrefl (a : float) : (a <? a)%f32 = false.
Proof.
  unfold F32.ltb, SFltb.
  destruct a as [[|]|[|]| |[|] m e]; cbn; try reflexivity;
    rewrite Z.compare_refl, Pos.compare_cont_refl; reflexivity.
Qed.

Lemma leb_false_ltb (a b : float) :
  (a <=? b)%f32 = false -> (a <? b)%f32 = false.
Proof.
  unfold F32.leb, F32.ltb, SFleb, SFltb.
  destruct (SFcompare a b) as [[| |]|]; congruence.
Qed.

Lemma tracked_start (dt at_s : nat -> float) : tracked dt at_s 0 F32.zero F32.zero.
Proof. split; [intros k Hk; lia | left; split; reflexivity]. Qed.

Lemma tracked_ext (dt dt' at_s at_s' : nat -> float) (n : nat)
      (peak time : float) :
  (forall k, dt k = dt' k) -> (forall k, at_s k = at_s' k) ->
  tracked dt at_s n peak time -> tracked dt' at_s' n peak time.
Proof.
  intros Hd Ha [Hmax Hat]. split.
  - intros k Hk. rewrite <- Hd. apply Hmax. exact Hk.
  - destruct Hat as [Z | (k & Hk & Hp & Ht & Hfirst)]; [left; exact Z|].
    right. exists k. rewrite <- Hd, <- Ha. repeat split; try assumption.
    intros k' Hk'. rewrite <- Hd. apply Hfirst. exact Hk'.
Qed.

(** One more sample. *)
Lemma tracked_step (dt at_s : nat -> float) (n : nat) (peak time : float) :
  tracked dt at_s n peak time ->
  tracked dt at_s (S n)
          (if (peak <? dt n)%f32 then dt n else peak)
          (if (peak <? dt n)%f32 then at_s n else time).
Proof.
  intros [Hmax Hat]. destruct (peak <? dt n)%f32 eqn:E.
  - split.
    + intros k Hk. destruct (Nat.eq_dec k n) as [->|Hne];
        [apply ltb_irrefl|].
      destruct (dt n <? dt k)%f32 eqn:E'; [|reflexivity].
      rewrite <- (Hmax k ltac:(lia)). symmetry.
      eapply leb_ltb_trans; [apply ltb_leb; exact E | exact E'].
    + right. exists n. split; [lia|]. split; [reflexivity|].
      split; [reflexivity|]. intros k' Hk'.
      destruct (dt n <=? dt k')%f32 eqn:E'; [|reflexivity].
      rewrite <- (Hmax k' Hk'). symmetry.
      eapply ltb_leb_trans; [exact E | exact E'].
  - split.
    + intros k Hk. destruct (Nat.eq_dec k n) as [->|Hne]; [exact E|].
      apply Hmax. lia.
    + destruct Hat as [Z | (k & Hk & Hp & Ht & Hfirst)]; [left; exact Z|].
      right. exists k. split; [lia|]. repeat split; assumption.
Qed.

(** A function applied to every channel in turn. *)
Lemma map4_get (f : nat -> float -> float) (a : arr4) (j : nat) :
  (j < 4)%nat ->
  get (fold_left (fun b i => set b i (f i (get b i))) (seq 0 4) a) j
  = f j (get a j).
Proof.
  intros Hj. destruct a as [a0 a1 a2 a3].
  do 4 (destruct j as [|j]; [reflexivity|]). lia.
Qed.

Lemma for_loop_inv {S} (body : nat -> S -> M S)
      (I : nat -> S -> World -> Prop) :
  (forall i s w s' w', I i s w -> body i s w = Some (s', w') -> I (Datatypes.S i) s' w') ->
  forall n i s w s' w',
    I i s w -> for_loop n i body s w = Some (s', w') -> I (i + n)%nat s' w'.
Proof.
  intros Hb n. induction n as [|n IH]; intros i s w s' w' Hi E;
    cbn [for_loop] in E.
  - inversion E; subst. replace (i + 0)%nat with i by lia. exact Hi.
  - apply bind_Some in E. destruct E as (s1 & w1 & E1 & E2).
    replace (i + Datatypes.S n)%nat with (Datatypes.S i + n)%nat by lia.
    eapply IH; [|exact E2]. eapply Hb; eassumption.
Qed.

Section Monitoring.

Variable logf sinf cosf : float -> float.
Variable atan2f : float -> float -> float.
Variable env : Env.

Lemma read_all_thermistors_readings (w : World) (c k : nat) :
  conversions w = (c + 4 * k)%nat ->
  exists t w',
    read_all_thermistors logf env w = Some (t, w') /\
    conversions w' = (c + 4 * S k)%nat /\
    clock_reads w' = clock_reads w /\
    forall j, (j < 4)%nat -> get t j = reading logf env c k j.
Proof.
  intros Hc.
  exists (Arr4 (reading logf env c k 0) (reading logf env c k 1)
               (reading logf env c k 2) (reading logf env c k 3)).
  eexists. split; [|split; [|split]].
  - unfold read_all_thermistors, thermistor_temp, readADC_SingleEnded, bind, ret.
    cbn [conversions]. unfold reading. rewrite Hc.
    replace (c + 4 * k + 0)%nat with (c + 4 * k)%nat by lia.
    replace (c + 4 * k + 1)%nat with (S (c + 4 * k)) by lia.
    replace (c + 4 * k + 2)%nat with (S (S (c + 4 * k))) by lia.
    replace (c + 4 * k + 3)%nat with (S (S (S (c + 4 * k)))) by lia.
    reflexivity.
  - cbn [conversions]. lia.
  - reflexivity.
  - intros j Hj. do 4 (destruct j as [|j]; [reflexivity|]). lia.
Qed.

(** *** The baseline *)

Lemma baseline_phase_spec (w w1 : World) (baseline : arr4) :
  baseline_phase logf env w = Some (baseline, w1) ->
  forall j, (j < 4)%nat ->
    get baseline j = baseline_of logf env (conversions w) j.
Proof.
  unfold baseline_phase. intros E j Hj.
  apply bind_Some in E. destruct E as (s & w2 & El & E).
  match type of E with
  | ret ?X _ = _ =>
    assert (Hb : baseline = X) by (unfold ret in E; congruence);
    assert (Hw : w2 = w1) by (unfold ret in E; congruence)
  end.
  clear E. subst w2. rewrite Hb. clear Hb.
  pose proof (map4_get (fun _ x => (x / F32.lit 10 1)%f32) s j Hj) as Q.
  cbv beta in Q. rewrite Q. clear Q.
  unfold baseline_of. f_equal.
  set (c := conversions w) in *.
  pose (I := fun (i : nat) (s : arr4) (w0 : World) =>
               conversions w0 = (c + 4 * i)%nat /\
               forall j, (j < 4)%nat ->
                 get s j = fold_left (fun b k => b + reading logf env c k j)%f32
                                     (seq 0 i) F32.zero).
  assert (H : I (0 + 10)%nat s w1).
  { eapply (for_loop_inv _ I); [| |exact El].
    - intros i a wa a' wa' [Hc Hs] E.
      apply bind_Some in E. destruct E as (t & w2 & Et & E).
      destruct (read_all_thermistors_readings wa c i Hc)
        as (t' & w2' & Et' & Hc' & _ & Ht).
      rewrite Et in Et'. inversion Et'; subst t' w2'. clear Et'.
      apply bind_Some in E. destruct E as (u & w3 & Ed & E).
      assert (Hw3 : conversions w3 = conversions w2)
        by (cbn [delay emit] in Ed; inversion Ed; reflexivity).
      clear Ed.
      match type of E with
      | ret ?X _ = _ =>
        assert (Hs' : a' = X) by (unfold ret in E; congruence);
        assert (Hw' : wa' = w3) by (unfold ret in E; congruence)
      end.
      clear E. subst wa'. rewrite Hs'. clear Hs'.
      split; [lia|]. intros j1 Hj1.
      pose proof (map4_get (fun i x => (x + get t i)%f32) a j1 Hj1) as Q.
      cbv beta in Q. rewrite Q. clear Q.
      rewrite seq_S, fold_left_app. cbn [fold_left Nat.add].
      rewrite (Hs j1 Hj1), (Ht j1 Hj1). reflexivity.
    - split; [unfold c; lia|]. intros j0 Hj0.
      do 4 (destruct j0 as [|j0]; [reflexivity|]). lia. }
  destruct H as [_ H]. apply (H j Hj).
Qed.

(** *** The monitoring loop *)

Section Loop.

Variable baseline : arr4.
Variable start_ms : Z.
Variable c cr : nat.

Lemma monitor_loop_tracked (fuel : nat) :
  forall n pk w pk' w',
    conversions w = (c + 4 * n)%nat ->
    clock_reads w = (cr + 2 * n)%nat ->
    (forall j, (j < 4)%nat ->
       tracked (rise_over logf env baseline c j) (elapsed_from env start_ms cr)
               n (get (fst pk) j) (get (snd pk) j)) ->
    monitor_loop logf env fuel start_ms baseline pk w = Some (pk', w') ->
    exists n', conversions w' = (c + 4 * n')%nat /\
      forall j, (j < 4)%nat ->
        tracked (rise_over logf env baseline c j)
                (elapsed_from env start_ms cr)
                n' (get (fst pk') j) (get (snd pk') j).
Proof.
  induction fuel as [|fuel IH]; intros n pk w pk' w' Hc Hk Hinv E.
  - discriminate.
  - cbn [monitor_loop] in E. unfold bind at 1 in E. cbn [millis] in E.
    destruct (wrap_u32 (wrap_u32 (clock_ms env (clock_reads w)) - start_ms)
              <? FLOW_MONITOR_MS).
    + unfold bind at 1 in E.
      match type of E with
      | match read_all_thermistors _ _ ?w0 with _ => _ end = _ =>
        destruct (read_all_thermistors_readings w0 c n Hc)
          as (t & w1 & Et & Hc1 & Hk1 & Ht)
      end.
      rewrite Et in E. cbn [clock_reads] in Hk1.
      unfold bind at 1 in E. cbn [millis] in E.
      unfold bind at 1 in E. cbn [delay emit] in E.
      rewrite Hk1, Hk in E.
      replace (S (cr + 2 * n)) with (cr + 1 + 2 * n)%nat in E by lia.
      fold (elapsed_from env start_ms cr n) in E.
      eapply (IH (S n)); [| | |exact E].
      * cbn [conversions]. exact Hc1.
      * cbn [clock_reads]. rewrite ?Hk1, ?Hk. lia.
      * intros j Hj. destruct pk as [peak_dt peak_time].
        pose proof (update_peaks_channel baseline t
                      (elapsed_from env start_ms cr n) peak_dt peak_time
                      j Hj) as U. cbv zeta in U.
        rewrite (Ht j Hj) in U. fold (rise_over logf env baseline c j n) in U.
        pose proof (tracked_step _ _ n _ _ (Hinv j Hj)) as T.
        cbn [fst snd] in T.
        destruct (get peak_dt j <? rise_over logf env baseline c j n)%f32;
          destruct U as [-> ->]; exact T.
    + inversion E; subst. exists n. split; assumption.
Qed.

End Loop.

(** *** The whole cycle *)

Lemma run_heat_pulse_tracked (uninit : FlowResult) (fuel : nat) (w w' : World)
      (r : FlowResult) :
  run_heat_pulse logf sinf cosf atan2f env uninit fuel w = Some (r, w') ->
  exists n,
    conversions w' = (conversions w + 40 + 4 * n)%nat /\
    forall j, (j < 4)%nat ->
      tracked (fun k => rise logf env (conversions w) k j)
              (elapsed_of env (clock_reads w)) n
              (get (peak_temps r) j) (get (peak_times r) j).
Proof.
  unfold run_heat_pulse. intros E.
  apply bind_Some in E. destruct E as (baseline & w1 & Eb & E).
  apply bind_Some in E. destruct E as (u & w2 & Eh & E).
  apply bind_Some in E. destruct E as (pk & w3 & Em & E).
  inversion E; subst w3. clear E.
  rewrite flow_estimate_peak_temps, flow_estimate_peak_times.
  pose proof (baseline_phase_spec w w1 baseline Eb) as Hb.
  destruct (leaves_baseline_phase logf env w) as (b' & w1' & Eb' & C1 & K1 & V1).
  rewrite Eb in Eb'. inversion Eb'; subst b' w1'. clear Eb'.
  destruct (leaves_fire_heater w1) as (u' & w2' & Eh' & C2 & K2 & V2).
  rewrite Eh in Eh'. inversion Eh'; subst u' w2'. clear Eh'.
  unfold monitor_phase in Em.
  apply bind_Some in Em. destruct Em as (start_ms & w4 & Es & Em).
  cbn [millis] in Es. inversion Es; subst w4 start_ms. clear Es.
  apply (monitor_loop_tracked baseline
           (wrap_u32 (clock_ms env (clock_reads w2)))
           (conversions w + 40) (S (clock_reads w)) fuel 0%nat) in Em.
  - destruct Em as (n & Hn & Ht).
    exists n. split; [exact Hn|]. intros j Hj.
    specialize (Ht j Hj). rewrite K2, K1 in Ht.
    eapply tracked_ext; [| |exact Ht].
    + intros k. unfold rise_over, rise. rewrite (Hb j Hj). reflexivity.
    + intros k. unfold elapsed_from, elapsed_of.
      replace (S (clock_reads w) + 1 + 2 * k)%nat
        with (clock_reads w + 2 + 2 * k)%nat by lia.
      reflexivity.
  - cbn [conversions]. lia.
  - cbn [clock_reads]. lia.
  - intros j Hj. cbn [fst snd].
    replace (get zeros j) with F32.zero
      by (do 4 (destruct j as [|j]; [reflexivity|]); lia).
    apply tracked_start.
Qed.

End Monitoring.

Section Channel.

Variable logf sinf cosf : float -> float.
Variable atan2f : float -> float -> float.
Variable env : Env.

Lemma reading_open (c k j : nat) :
  open_channel env j -> reading logf env c k j = SENTINEL.
Proof. intros H. unfold reading. apply open_count_sentinel. apply H. Qed.

Lemma rise_open (c k j : nat) :
  open_channel env j -> rise logf env c k j = F32.zero.
Proof.
  intros H. unfold rise, baseline_of. cbn [seq fold_left].
  rewrite !(reading_open _ _ _ H). reflexivity.
Qed.

Lemma run_heat_pulse_open_channel (uninit : FlowResult) (fuel : nat)
      (w w' : World) (r : FlowResult) (j : nat) :
  (j < 4)%nat -> open_channel env j ->
  run_heat_pulse logf sinf cosf atan2f env uninit fuel w = Some (r, w') ->
  get (peak_temps r) j = F32.zero /\ get (peak_times r) j = F32.zero.
Proof.
  intros Hj Ho E.
  destruct (run_heat_pulse_coupled _ _ _ _ _ _ _ _ _ _ E j Hj) as [Z | P];
    [exact Z|].
  destruct (run_heat_pulse_tracked _ _ _ _ _ _ _ _ _ _ E) as (n & _ & T).
  destruct (T j Hj) as [_ [Z | (k & _ & Hp & _)]]; [exact Z|].
  rewrite (rise_open _ _ _ Ho) in Hp. rewrite Hp in P. discriminate P.
Qed.

(** The guard of the stagnation test, on the samples of the cycle. *)
Lemma stagnant_guard (dt : nat -> nat -> float) (at_s : nat -> float)
      (n : nat) (peak_dt peak_time : arr4) :
  nonneg4 peak_dt ->
  (forall j, (j < 4)%nat ->
     tracked (dt j) at_s n (get peak_dt j) (get peak_time j)) ->
  ((get peak_dt (dominant peak_dt) <? STAGNANT_DT)%f32 = true <->
   forall j k, (j < 4)%nat -> (k < n)%nat ->
               (STAGNANT_DT <=? dt j k)%f32 = false).
Proof.
  intros N T. pose proof (dominant_lt peak_dt) as Hd.
  destruct (dominant_spec peak_dt (nonneg4_no_nan _ N)) as [Hmax _].
  cbv zeta in Hmax. split.
  - intros Hs j k Hj Hk.
    destruct (STAGNANT_DT <=? dt j k)%f32 eqn:E; [|reflexivity].
    destruct (T j Hj) as [Hno _]. rewrite <- (Hno k Hk). symmetry.
    eapply ltb_leb_trans; [|exact E].
    eapply leb_ltb_trans; [apply (Hmax j Hj) | exact Hs].
  - intros Hno.
    destruct (get peak_dt (dominant peak_dt) <? STAGNANT_DT)%f32 eqn:E;
      [reflexivity|exfalso].
    apply ltb_false_leb in E;
      [|apply (nonneg4_no_nan _ N _ Hd) | reflexivity].
    destruct (T _ Hd) as [_ [[Z _] | (k & Hk & Hp & _)]].
    + rewrite Z in E. discriminate E.
    + rewrite Hp in E. rewrite (Hno _ k Hd Hk) in E. discriminate E.
Qed.

End Channel.

(** * Exact bounds on the floating-point arithmetic *)

(** ** Binary digits, continued *)

Lemma Zdigits2_bounds (m : Z) :
  0 < m -> 2 ^ (Zdigits2 m - 1) <= m < 2 ^ Zdigits2 m.
Proof.
  destruct m as [|p|p]; try lia. intros _. cbn [Zdigits2].
  split; [apply digits2_pos_lower | apply digits2_pos_upper].
Qed.

Lemma Zdigits2_pos (m : Z) : 0 < m -> 0 < Zdigits2 m.
Proof. destruct m; cbn; lia. Qed.

Lemma Zdigits2_unique (m d : Z) :
  0 < m -> 2 ^ (d - 1) <= m < 2 ^ d -> Zdigits2 m = d.
Proof.
  intros Hm [Hl Hu]. pose proof (Zdigits2_bounds m Hm) as [Bl Bu].
  pose proof (Zdigits2_pos m Hm) as Hd.
  assert (0 < d).
  { destruct (Z.lt_trichotomy d 0) as [L | [L | L]]; [| |exact L].
    - rewrite Z.pow_neg_r in Hu by assumption. lia.
    - subst d. cbn in Hu. lia. }
  destruct (Z.lt_trichotomy (Zdigits2 m) d) as [L | [L | L]]; [|exact L|].
  - assert (2 ^ Zdigits2 m <= 2 ^ (d - 1)) by (apply Z.pow_le_mono_r; lia). lia.
  - assert (2 ^ d <= 2 ^ (Zdigits2 m - 1)) by (apply Z.pow_le_mono_r; lia). lia.
Qed.

Lemma Zdigits2_mono (a b : Z) : 0 <= a <= b -> Zdigits2 a <= Zdigits2 b.
Proof.
  intros [Ha Hab]. destruct (Z.eq_dec b 0) as [->|Hb].
  - replace a with 0 by lia. lia.
  - apply Zdigits2_le; [lia | apply Zdigits2_nonneg|].
    pose proof (Zdigits2_bounds b ltac:(lia)). lia.
Qed.

Lemma Zdigits2_div_pow2 (m n : Z) :
  0 <= n -> 2 ^ n <= m -> Zdigits2 (m / 2 ^ n) = Zdigits2 m - n.
Proof.
  intros Hn Hm. assert (P : 0 < 2 ^ n) by (apply Z.pow_pos_nonneg; lia).
  pose proof (Zdigits2_bounds m ltac:(lia)) as [Bl Bu].
  assert (Hlt : n < Zdigits2 m).
  { destruct (Z.lt_ge_cases n (Zdigits2 m)) as [A|A]; [exact A|].
    assert (2 ^ Zdigits2 m <= 2 ^ n)
      by (apply Z.pow_le_mono_r; [lia | exact A]). lia. }
  apply Zdigits2_unique.
  - apply Z.div_str_pos. lia.
  - split.
    + apply Z.div_le_lower_bound; [exact P|].
      rewrite <- Z.pow_add_r by lia.
      replace (n + (Zdigits2 m - n - 1)) with (Zdigits2 m - 1) by lia. exact Bl.
    + apply Z.div_lt_upper_bound; [exact P|].
      rewrite <- Z.pow_add_r by lia.
      replace (n + (Zdigits2 m - n)) with (Zdigits2 m) by lia. exact Bu.
Qed.

Lemma Zdigits2_mul_pow2 (m n : Z) :
  0 < m -> 0 <= n -> Zdigits2 (m * 2 ^ n) = Zdigits2 m + n.
Proof.
  intros Hm Hn. assert (P : 0 < 2 ^ n) by (apply Z.pow_pos_nonneg; lia).
  pose proof (Zdigits2_bounds m Hm) as [Bl Bu].
  pose proof (Zdigits2_pos m Hm).
  apply Zdigits2_unique; [nia|]. split.
  - replace (Zdigits2 m + n - 1) with ((Zdigits2 m - 1) + n) by lia.
    rewrite Z.pow_add_r by lia. nia.
  - rewrite Z.pow_add_r by lia. nia.
Qed.

(** The size of a number, from its digits. *)
Lemma bpow_Zdigits2_le (m e : Z) :
  0 < m -> (bpow (Zdigits2 m + e - 1) <= IZR m * bpow e)%R.
Proof.
  intros Hm. replace (Zdigits2 m + e - 1) with ((Zdigits2 m - 1) + e) by lia.
  rewrite bpow_add. pose proof (bpow_gt_0 e).
  pose proof (Zdigits2_bounds m Hm) as [Bl _]. pose proof (Zdigits2_pos m Hm).
  rewrite (bpow_nonneg_exp (Zdigits2 m - 1)) by lia. apply IZR_le in Bl.
  apply Rmult_le_compat_r; lra.
Qed.

Lemma bpow_Zdigits2_gt (m e : Z) :
  0 <= m -> (IZR m * bpow e < bpow (Zdigits2 m + e))%R.
Proof.
  intros Hm. rewrite bpow_add. pose proof (bpow_gt_0 e).
  destruct (Z.eq_dec m 0) as [->|N].
  - cbn [Zdigits2]. change (bpow 0) with 1%R. lra.
  - pose proof (Zdigits2_bounds m ltac:(lia)) as [_ Bu].
    pose proof (Zdigits2_pos m ltac:(lia)).
    rewrite (bpow_nonneg_exp (Zdigits2 m)) by lia. apply IZR_lt in Bu.
    apply Rmult_lt_compat_r; lra.
Qed.

Lemma bpow_lt_inv (a b : Z) : (bpow a < bpow b)%R -> a < b.
Proof.
  intros H. destruct (Z.lt_ge_cases a b) as [L|L]; [exact L|].
  pose proof (bpow_le b a L). lra.
Qed.

(** Numbers in order have their digits in order. *)
Lemma digits_le_of_value (m1 e1 m2 e2 : Z) :
  0 < m1 -> 0 <= m2 ->
  (IZR m1 * bpow e1 <= IZR m2 * bpow e2)%R ->
  Zdigits2 m1 + e1 <= Zdigits2 m2 + e2.
Proof.
  intros H1 H2 H.
  pose proof (bpow_Zdigits2_le m1 e1 H1). pose proof (bpow_Zdigits2_gt m2 e2 H2).
  assert (L : Zdigits2 m1 + e1 - 1 < Zdigits2 m2 + e2) by (apply bpow_lt_inv; lra).
  lia.
Qed.

Section Exactness.

Variable prec emax : Z.
Hypothesis prec_pos : 0 < prec.

Lemma fexp_mono (a b : Z) : a <= b -> fexp prec emax a <= fexp prec emax b.
Proof. unfold fexp. lia. Qed.

Lemma fexp_ge_emin (a : Z) : emin prec emax <= fexp prec emax a.
Proof. unfold fexp. lia. Qed.

(** What [binary_round_aux] computes, on integers. *)
Lemma binary_round_aux_spec (sx : bool) (mx ex : Z) (lx : location) :
  0 <= mx ->
  let e1 := Z.max ex (fexp prec emax (Zdigits2 mx + ex)) in
  let m1 := mx / 2 ^ (e1 - ex) in
  exists m2,
    m1 <= m2 <= m1 + 1 /\
    (lx = loc_Exact -> e1 = ex -> m2 = mx) /\
    let e2 := Z.max e1 (fexp prec emax (Zdigits2 m2 + e1)) in
    binary_round_aux prec emax sx mx ex lx =
    match m2 / 2 ^ (e2 - e1) with
    | Z0 => S754_zero sx
    | Zpos m => if e2 <=? emax - prec then S754_finite sx m e2
                else S754_infinity sx
    | Zneg _ => S754_nan
    end.
Proof.
  intros Hm e1 m1. unfold binary_round_aux.
  pose proof (shr_fexp_spec prec emax mx ex lx Hm) as S1. cbv zeta in S1.
  destruct (shr_fexp prec emax mx ex lx) as [mrs1 e1'].
  set (n1 := fexp prec emax (Zdigits2 mx + ex) - ex) in *.
  set (m2 := round_nearest_even (shr_m mrs1) (loc_of_shr_record mrs1)).
  assert (H1 : shr_m mrs1 = m1 /\ e1' = e1 /\
               (lx = loc_Exact -> e1 = ex -> m2 = mx)).
  { destruct (Z.ltb_spec 0 n1) as [L|L].
    - destruct S1 as [Sm Se]. rewrite Sm, Se.
      assert (e1 = ex + n1) by (unfold e1, n1 in *; lia).
      split; [unfold m1; f_equal; f_equal; lia|]. split; [lia|]. lia.
    - destruct S1 as [Sm Se]. subst mrs1 e1'. rewrite shr_record_of_loc_m.
      assert (E : e1 = ex) by (unfold e1, n1 in *; lia).
      split; [unfold m1; rewrite E, Z.sub_diag; cbn; rewrite Z.div_1_r;
              reflexivity|].
      split; [lia|]. intros -> _. subst m2. reflexivity. }
  destruct H1 as (Hm1 & He1 & Hex).
  pose proof (round_nearest_even_bounds (shr_m mrs1) (loc_of_shr_record mrs1))
    as Hr. fold m2 in Hr. rewrite Hm1 in Hr.
  assert (Hm1' : 0 <= m1)
    by (apply Z.div_pos; [lia | apply Z.pow_pos_nonneg; unfold e1; lia]).
  exists m2. split; [exact Hr|]. split; [exact Hex|]. cbv zeta.
  assert (Hm2 : 0 <= m2) by lia.
  pose proof (shr_fexp_spec prec emax m2 e1' loc_Exact Hm2) as S2.
  cbv zeta in S2.
  destruct (shr_fexp prec emax m2 e1' loc_Exact) as [mrs2 e2']. subst e1'.
  set (n2 := fexp prec emax (Zdigits2 m2 + e1) - e1) in *.
  destruct (Z.ltb_spec 0 n2) as [L|L].
  - destruct S2 as [Sm Se]. rewrite Sm, Se.
    replace (Z.max e1 (fexp prec emax (Zdigits2 m2 + e1))) with (e1 + n2)
      by (unfold n2; lia).
    replace (e1 + n2 - e1) with n2 by lia. reflexivity.
  - destruct S2 as [Sm Se]. subst mrs2 e2'. cbn [shr_m shr_record_of_loc].
    replace (Z.max e1 (fexp prec emax (Zdigits2 m2 + e1))) with e1
      by (unfold n2 in *; lia).
    rewrite Z.sub_diag. cbn [Z.pow]. rewrite Z.div_1_r. reflexivity.
Qed.

(** An input is aligned when its exponent is not above the exponent of its
    format. *)
Lemma aligned_first_shift (mx ex : Z) :
  0 <= mx -> ex <= fexp prec emax (Zdigits2 mx + ex) ->
  let e1 := fexp prec emax (Zdigits2 mx + ex) in
  let m1 := mx / 2 ^ (e1 - ex) in
  e1 <= fexp prec emax (Zdigits2 m1 + e1) /\
  (emin prec emax < Zdigits2 mx + ex ->
   0 < m1 /\ Zdigits2 m1 + e1 = Zdigits2 mx + ex).
Proof.
  intros Hm Ha e1 m1.
  assert (P : 0 < 2 ^ (e1 - ex)) by (apply Z.pow_pos_nonneg; lia).
  destruct (Z.le_gt_cases (2 ^ (e1 - ex)) mx) as [Big|Small].
  - assert (D : Zdigits2 m1 + e1 = Zdigits2 mx + ex).
    { unfold m1. rewrite Zdigits2_div_pow2 by lia. lia. }
    split; [rewrite D; unfold e1; lia|]. intros _. split; [|exact D].
    apply Z.div_str_pos. lia.
  - assert (Z1 : m1 = 0) by (apply Z.div_small; lia).
    assert (K : Zdigits2 mx + ex <= e1).
    { pose proof (Zdigits2_le mx (e1 - ex) Hm ltac:(lia) Small). lia. }
    assert (E : e1 = emin prec emax) by (unfold e1, fexp in *; lia).
    split.
    + rewrite Z1. cbn [Zdigits2]. rewrite E. unfold fexp. lia.
    + intros C. unfold e1, fexp in *. lia.
Qed.

(** [binary_round_aux] on an aligned input: two shifts to the exponent of
    the format, around the rounding of the mantissa. *)
Lemma binary_round_aux_aligned (sx : bool) (mx ex : Z) (lx : location) :
  0 <= mx -> ex <= fexp prec emax (Zdigits2 mx + ex) ->
  let e1 := fexp prec emax (Zdigits2 mx + ex) in
  let m1 := mx / 2 ^ (e1 - ex) in
  exists m2,
    0 <= m1 /\ m1 <= m2 <= m1 + 1 /\
    let e2 := fexp prec emax (Zdigits2 m2 + e1) in
    e1 <= e2 /\
    binary_round_aux prec emax sx mx ex lx =
    match m2 / 2 ^ (e2 - e1) with
    | Z0 => S754_zero sx
    | Zpos m => if e2 <=? emax - prec then S754_finite sx m e2
                else S754_infinity sx
    | Zneg _ => S754_nan
    end.
Proof.
  intros Hm Ha e1 m1.
  destruct (binary_round_aux_spec sx mx ex lx Hm) as (m2 & Hr & _ & E).
  cbv zeta in E, Hr. fold e1 in E, Hr.
  replace (Z.max ex e1) with e1 in E, Hr by lia. fold m1 in Hr.
  destruct (aligned_first_shift mx ex Hm Ha) as [A1 _]. cbv zeta in A1.
  fold e1 m1 in A1.
  assert (Hm1 : 0 <= m1)
    by (apply Z.div_pos; [lia | apply Z.pow_pos_nonneg; lia]).
  assert (A2 : e1 <= fexp prec emax (Zdigits2 m2 + e1)).
  { eapply Z.le_trans; [exact A1|]. apply fexp_mono.
    pose proof (Zdigits2_mono m1 m2 ltac:(lia)). lia. }
  replace (Z.max e1 (fexp prec emax (Zdigits2 m2 + e1)))
    with (fexp prec emax (Zdigits2 m2 + e1)) in E by lia.
  exists m2. split; [exact Hm1|]. split; [exact Hr|]. cbv zeta.
  split; [exact A2 | exact E].
Qed.

(** The result of rounding an aligned input is a valid number. *)
Lemma binary_round_aux_valid (sx : bool) (mx ex : Z) (lx : location) :
  0 <= mx -> ex <= fexp prec emax (Zdigits2 mx + ex) ->
  valid_binary prec emax (binary_round_aux prec emax sx mx ex lx) = true.
Proof.
  intros Hm Ha.
  destruct (binary_round_aux_aligned sx mx ex lx Hm Ha)
    as (m2 & Hm1 & Hr & A2 & E).
  set (e1 := fexp prec emax (Zdigits2 mx + ex)) in *.
  set (m1 := mx / 2 ^ (e1 - ex)) in *.
  set (e2 := fexp prec emax (Zdigits2 m2 + e1)) in *.
  rewrite E.
  assert (P : 0 < 2 ^ (e2 - e1)) by (apply Z.pow_pos_nonneg; lia).
  destruct (m2 / 2 ^ (e2 - e1)) as [|m3|m3] eqn:E3; [reflexivity| |].
  - destruct (Z.leb_spec e2 (emax - prec)) as [B|B]; [|reflexivity].
    cbn [valid_binary]. unfold bounded, canonical_mantissa.
    apply andb_true_intro. split; [|apply Z.leb_le; exact B].
    apply Z.eqb_eq.
    assert (Big : 2 ^ (e2 - e1) <= m2).
    { destruct (Z.le_gt_cases (2 ^ (e2 - e1)) m2) as [A|A]; [exact A|].
      rewrite Z.div_small in E3 by lia. discriminate. }
    pose proof (Zdigits2_div_pow2 m2 (e2 - e1) ltac:(lia) Big) as D.
    rewrite E3 in D. cbn [Zdigits2] in D. rewrite D.
    replace (Zdigits2 m2 - (e2 - e1) + e2) with (Zdigits2 m2 + e1) by lia.
    reflexivity.
  - exfalso. pose proof (Z.div_pos m2 (2 ^ (e2 - e1)) ltac:(lia) P). lia.
Qed.

(** Rounding an aligned input below a valid number does not pass it, and
    does not overflow. *)
Lemma binary_round_aux_below (sx : bool) (mx ex : Z) (lx : location)
      (MB : positive) (EB : Z) :
  0 <= mx -> ex <= fexp prec emax (Zdigits2 mx + ex) ->
  bounded prec emax MB EB = true ->
  (IZR mx * bpow ex < IZR (Zpos MB) * bpow EB)%R ->
  within (IZR (Zpos MB) * bpow EB) (binary_round_aux prec emax sx mx ex lx).
Proof.
  intros Hm Ha HB Hlt.
  unfold bounded, canonical_mantissa in HB. apply andb_prop in HB.
  destruct HB as [HBc HBe]. apply Z.eqb_eq in HBc. apply Z.leb_le in HBe.
  destruct (binary_round_aux_aligned sx mx ex lx Hm Ha)
    as (m2 & Hm1 & Hr & A2 & E).
  set (e1 := fexp prec emax (Zdigits2 mx + ex)) in *.
  set (m1 := mx / 2 ^ (e1 - ex)) in *.
  set (e2 := fexp prec emax (Zdigits2 m2 + e1)) in *.
  rewrite E.
  (* the first exponent is at most the exponent of the bound *)
  assert (He1 : e1 <= EB).
  { destruct (Z.eq_dec mx 0) as [Z0|N0].
    - subst mx. cbn [Zdigits2] in *. rewrite <- HBc.
      unfold e1, fexp in *. lia.
    - rewrite <- HBc. apply fexp_mono.
      apply (digits_le_of_value mx ex (Zpos MB) EB); [lia|lia|lra]. }
  set (K := Zpos MB * 2 ^ (EB - e1)).
  assert (HK : (IZR K * bpow e1 = IZR (Zpos MB) * bpow EB)%R).
  { unfold K. rewrite mult_IZR, <- bpow_nonneg_exp by lia.
    rewrite Rmult_assoc, <- bpow_add. f_equal. f_equal. lia. }
  pose proof (bpow_gt_0 e1) as Pe1.
  assert (V1 : (IZR m1 * bpow e1 <= IZR mx * bpow ex)%R).
  { destruct (Z.eq_dec e1 ex) as [Q|Q].
    - unfold m1. rewrite Q, Z.sub_diag. cbn [Z.pow]. rewrite Z.div_1_r. lra.
    - pose proof (floor_scale mx (e1 - ex) ex Hm ltac:(lia)) as F.
      replace (ex + (e1 - ex)) with e1 in F by lia. exact F. }
  assert (HmK : m2 <= K).
  { assert (m1 < K); [|lia]. apply lt_IZR.
    apply Rmult_lt_reg_r with (bpow e1); [exact Pe1|]. lra. }
  assert (V2 : (IZR m2 * bpow e1 <= IZR (Zpos MB) * bpow EB)%R).
  { rewrite <- HK. apply Rmult_le_compat_r; [lra|]. apply IZR_le. exact HmK. }
  assert (P : 0 < 2 ^ (e2 - e1)) by (apply Z.pow_pos_nonneg; lia).
  destruct (m2 / 2 ^ (e2 - e1)) as [|m3|m3] eqn:E3; [exact I| |].
  - assert (Hm2 : 0 < m2).
    { destruct (Z.lt_ge_cases 0 m2) as [A|A]; [exact A|].
      replace m2 with 0 in E3 by lia. rewrite Z.div_0_l in E3 by lia.
      discriminate. }
    assert (He2 : e2 <= EB).
    { rewrite <- HBc. apply fexp_mono.
      apply (digits_le_of_value m2 e1 (Zpos MB) EB); [lia|lia|exact V2]. }
    destruct (Z.leb_spec e2 (emax - prec)) as [B|B]; [|lia].
    cbn [within]. rewrite <- E3.
    eapply Rle_trans; [|exact V2].
    destruct (Z.eq_dec e2 e1) as [Q|Q].
    + rewrite Q, Z.sub_diag. cbn [Z.pow]. rewrite Z.div_1_r. lra.
    + pose proof (floor_scale m2 (e2 - e1) e1 ltac:(lia) ltac:(lia)) as F.
      replace (e1 + (e2 - e1)) with e2 in F by lia. exact F.
  - exfalso. pose proof (Z.div_pos m2 (2 ^ (e2 - e1)) ltac:(lia) P). lia.
Qed.

(** Rounding an aligned input above the smallest subnormal number does not
    give zero. *)
Lemma binary_round_aux_nonzero (sx : bool) (mx ex : Z) (lx : location) :
  0 <= mx -> ex <= fexp prec emax (Zdigits2 mx + ex) ->
  emin prec emax < Zdigits2 mx + ex ->
  is_zero (binary_round_aux prec emax sx mx ex lx) = false.
Proof.
  intros Hm Ha Hk.
  destruct (binary_round_aux_aligned sx mx ex lx Hm Ha)
    as (m2 & _ & Hr & A2 & E).
  destruct (aligned_first_shift mx ex Hm Ha) as [_ A0]. cbv zeta in A0.
  destruct (A0 Hk) as [Hm1 D1].
  set (e1 := fexp prec emax (Zdigits2 mx + ex)) in *.
  set (m1 := mx / 2 ^ (e1 - ex)) in *.
  set (e2 := fexp prec emax (Zdigits2 m2 + e1)) in *.
  rewrite E.
  assert (P : 0 < 2 ^ (e2 - e1)) by (apply Z.pow_pos_nonneg; lia).
  assert (Big : 2 ^ (e2 - e1) <= m2).
  { pose proof (Zdigits2_bounds m2 ltac:(lia)) as [Bl _].
    pose proof (Zdigits2_mono m1 m2 ltac:(lia)) as Dm.
    assert (e2 - e1 <= Zdigits2 m2 - 1) by (unfold e2, fexp in *; lia).
    assert (2 ^ (e2 - e1) <= 2 ^ (Zdigits2 m2 - 1))
      by (apply Z.pow_le_mono_r; lia).
    lia. }
  pose proof (Z.div_str_pos m2 (2 ^ (e2 - e1)) ltac:(lia)) as Q.
  destruct (m2 / 2 ^ (e2 - e1)) as [|m3|m3]; [lia| |lia].
  destruct (e2 <=? emax - prec); reflexivity.
Qed.

End Exactness.

Section Operations.

Variable prec emax : Z.
Hypothesis prec_pos : 0 < prec.

(** *** Rounding of a mantissa and an exponent *)

Lemma shl_align_aligned (m : positive) (e : Z) :
  let '(mz, ez) := shl_align m e (fexp prec emax (Zpos (digits2_pos m) + e)) in
  ez <= fexp prec emax (Zdigits2 (Zpos mz) + ez) /\
  Zdigits2 (Zpos mz) + ez = Zpos (digits2_pos m) + e.
Proof.
  unfold shl_align.
  destruct (fexp prec emax (Zpos (digits2_pos m) + e) - e) as [|d|d] eqn:D;
    cbn [Zdigits2].
  - split; lia.
  - split; lia.
  - assert (Q : Zpos (digits2_pos (Pos.iter xO m d)) = Zpos (digits2_pos m) + Zpos d).
    { change (Zpos (digits2_pos (Pos.iter xO m d)))
        with (Zdigits2 (Zpos (Pos.iter xO m d))).
      rewrite iter_xO. rewrite Zdigits2_mul_pow2 by lia. reflexivity. }
    rewrite Q.
    replace (Zpos (digits2_pos m) + Zpos d
             + fexp prec emax (Zpos (digits2_pos m) + e))
      with (Zpos (digits2_pos m) + e) by lia.
    split; lia.
Qed.

Lemma binary_round_valid (s : bool) (m : positive) (e : Z) :
  valid_binary prec emax (binary_round prec emax s m e) = true.
Proof.
  unfold binary_round. pose proof (shl_align_aligned m e) as A.
  destruct (shl_align m e (fexp prec emax (Zpos (digits2_pos m) + e)))
    as [mz ez]. destruct A as [A _].
  apply binary_round_aux_valid; [assumption | lia | exact A].
Qed.

Lemma binary_round_below (s : bool) (m : positive) (e : Z)
      (MB : positive) (EB : Z) :
  bounded prec emax MB EB = true ->
  (IZR (Zpos m) * bpow e < IZR (Zpos MB) * bpow EB)%R ->
  within (IZR (Zpos MB) * bpow EB) (binary_round prec emax s m e).
Proof.
  intros HB Hlt. unfold binary_round. pose proof (shl_align_aligned m e) as A.
  pose proof (shl_align_value m e (fexp prec emax (Zpos (digits2_pos m) + e)))
    as V.
  destruct (shl_align m e (fexp prec emax (Zpos (digits2_pos m) + e)))
    as [mz ez]. destruct A as [A _].
  apply binary_round_aux_below; try assumption; [lia|]. rewrite V. exact Hlt.
Qed.

Lemma binary_round_nonzero (s : bool) (m : positive) (e : Z) :
  emin prec emax < Zpos (digits2_pos m) + e ->
  is_zero (binary_round prec emax s m e) = false.
Proof.
  intros Hk. unfold binary_round. pose proof (shl_align_aligned m e) as A.
  destruct (shl_align m e (fexp prec emax (Zpos (digits2_pos m) + e)))
    as [mz ez]. destruct A as [A D].
  apply binary_round_aux_nonzero; try assumption; lia.
Qed.

Lemma binary_normalize_valid (z e : Z) (szero : bool) :
  valid_binary prec emax (binary_normalize prec emax z e szero) = true.
Proof. destruct z; [reflexivity | apply binary_round_valid..]. Qed.

Lemma binary_normalize_below (z e : Z) (szero : bool) (MB : positive) (EB : Z) :
  bounded prec emax MB EB = true ->
  (Rabs (IZR z * bpow e) < IZR (Zpos MB) * bpow EB)%R ->
  within (IZR (Zpos MB) * bpow EB) (binary_normalize prec emax z e szero).
Proof.
  intros HB Hlt. pose proof (bpow_gt_0 e).
  destruct z as [|p|p]; [exact I| |]; cbn [binary_normalize];
    apply binary_round_below; try assumption.
  - assert (0 < IZR (Zpos p))%R by (apply IZR_lt; lia).
    rewrite Rabs_pos_eq in Hlt by nra. exact Hlt.
  - assert (IZR (Zneg p) < 0)%R by (apply IZR_lt; lia).
    rewrite Rabs_left in Hlt by nra.
    change (Zneg p) with (- Zpos p) in Hlt. rewrite opp_IZR in Hlt. lra.
Qed.

(** *** Addition and subtraction of finite numbers *)

Lemma SFadd_finite_valid (sx sy : bool) (mx my : positive) (ex ey : Z) :
  valid_binary prec emax
    (SFadd prec emax (S754_finite sx mx ex) (S754_finite sy my ey)) = true.
Proof. cbn [SFadd]. apply binary_normalize_valid. Qed.

Lemma SFadd_finite_below (sx sy : bool) (mx my : positive) (ex ey : Z)
      (MB : positive) (EB : Z) :
  let x := S754_finite sx mx ex in
  let y := S754_finite sy my ey in
  bounded prec emax MB EB = true ->
  (Rabs (sval x + sval y) < IZR (Zpos MB) * bpow EB)%R ->
  within (IZR (Zpos MB) * bpow EB) (SFadd prec emax x y).
Proof.
  cbv zeta. intros HB Hlt. cbn [SFadd].
  apply binary_normalize_below; [exact HB|].
  rewrite plus_IZR, Rmult_plus_distr_r.
  rewrite !sval_aligned by lia. exact Hlt.
Qed.

Lemma SFsub_finite_valid (sx sy : bool) (mx my : positive) (ex ey : Z) :
  valid_binary prec emax
    (SFsub prec emax (S754_finite sx mx ex) (S754_finite sy my ey)) = true.
Proof. cbn [SFsub]. apply binary_normalize_valid. Qed.

Lemma SFsub_finite_below (sx sy : bool) (mx my : positive) (ex ey : Z)
      (MB : positive) (EB : Z) :
  let x := S754_finite sx mx ex in
  let y := S754_finite sy my ey in
  bounded prec emax MB EB = true ->
  (Rabs (sval x - sval y) < IZR (Zpos MB) * bpow EB)%R ->
  within (IZR (Zpos MB) * bpow EB) (SFsub prec emax x y).
Proof.
  cbv zeta. intros HB Hlt. cbn [SFsub].
  apply binary_normalize_below; [exact HB|].
  rewrite minus_IZR, Rmult_minus_distr_r.
  rewrite !sval_aligned by lia. exact Hlt.
Qed.

(** *** Multiplication by a normal number *)

Lemma SFmul_normal_aligned (mx my : positive) (ex ey : Z) :
  prec <= Zpos (digits2_pos my) ->
  ex + ey <= fexp prec emax (Zdigits2 (Zpos (mx * my)) + (ex + ey)).
Proof.
  intros Hn.
  pose proof (Zdigits2_mono (Zpos my) (Zpos (mx * my)) ltac:(nia)) as D.
  cbn [Zdigits2] in *. unfold fexp. lia.
Qed.

Lemma SFmul_normal_valid (sx sy : bool) (mx my : positive) (ex ey : Z) :
  prec <= Zpos (digits2_pos my) ->
  valid_binary prec emax
    (SFmul prec emax (S754_finite sx mx ex) (S754_finite sy my ey)) = true.
Proof.
  intros Hn. cbn [SFmul].
  apply binary_round_aux_valid; [assumption | lia|].
  apply SFmul_normal_aligned. exact Hn.
Qed.

Lemma SFmul_normal_below (sx sy : bool) (mx my : positive) (ex ey : Z)
      (MB : positive) (EB : Z) :
  prec <= Zpos (digits2_pos my) ->
  bounded prec emax MB EB = true ->
  ((IZR (Zpos mx) * bpow ex) * (IZR (Zpos my) * bpow ey)
   < IZR (Zpos MB) * bpow EB)%R ->
  within (IZR (Zpos MB) * bpow EB)
         (SFmul prec emax (S754_finite sx mx ex) (S754_finite sy my ey)).
Proof.
  intros Hn HB Hlt. cbn [SFmul].
  apply binary_round_aux_below; try assumption; [lia | |].
  - apply SFmul_normal_aligned. exact Hn.
  - rewrite Pos2Z.inj_mul, mult_IZR, bpow_add.
    eapply Rle_lt_trans; [|exact Hlt]. right. ring.
Qed.

(** *** Division of finite numbers *)

Lemma SFdiv_core_facts (mx my : positive) (ex ey : Z) :
  let L := Zpos (digits2_pos mx) + ex - (Zpos (digits2_pos my) + ey) in
  let '(q, e', l) := SFdiv_core_binary prec emax (Zpos mx) ex (Zpos my) ey in
  0 <= q /\
  e' <= fexp prec emax (Zdigits2 q + e') /\
  (IZR q * bpow e' <= (IZR (Zpos mx) * bpow ex) / (IZR (Zpos my) * bpow ey))%R /\
  (emin prec emax < L -> L <= Zdigits2 q + e').
Proof.
  intros L0. unfold SFdiv_core_binary. cbn [Zdigits2].
  set (d1 := Zpos (digits2_pos mx)) in *. set (d2 := Zpos (digits2_pos my)) in *.
  set (L := d1 + ex - (d2 + ey)). assert (HL0 : L0 = L) by reflexivity.
  clearbody L0. subst L0.
  set (e' := Z.min (fexp prec emax L) (ex - ey)).
  set (s := ex - ey - e').
  assert (Hs : 0 <= s) by (unfold s, e'; lia).
  set (m' := match s with
             | Zpos _ => Z.shiftl (Zpos mx) s
             | Z0 => Zpos mx
             | Zneg _ => 0
             end).
  assert (Hm' : m' = Zpos mx * 2 ^ s).
  { unfold m'. destruct s as [|p|p]; [lia| |lia].
    apply Z.shiftl_mul_pow2. lia. }
  pose proof (Z.div_eucl_eq m' (Zpos my) ltac:(lia)) as Hdiv.
  pose proof (Z.mod_pos_bound m' (Zpos my) ltac:(lia)) as Hmod.
  assert (Hquot : fst (Z.div_eucl m' (Zpos my)) = m' / Zpos my) by reflexivity.
  unfold Z.modulo in Hmod.
  destruct (Z.div_eucl m' (Zpos my)) as [q r]. cbn [fst] in Hquot.
  assert (Hq : 0 <= q) by nia.
  pose proof (bpow_gt_0 ex). pose proof (bpow_gt_0 ey).
  set (X := (IZR (Zpos mx) * bpow ex)%R).
  set (Y := (IZR (Zpos my) * bpow ey)%R).
  assert (HX : (0 < X)%R)
    by (unfold X; assert (0 < IZR (Zpos mx))%R by (apply IZR_lt; lia); nra).
  assert (HY : (0 < Y)%R)
    by (unfold Y; assert (0 < IZR (Zpos my))%R by (apply IZR_lt; lia); nra).
  assert (Hval : (IZR q * bpow e' <= X / Y)%R).
  { apply Rmult_le_reg_r with (r := Y); [assumption|].
    replace (X / Y * Y)%R with X by (field; lra).
    unfold X, Y. replace ex with (s + e' + ey) by (unfold s; lia).
    rewrite !bpow_add, (bpow_nonneg_exp s) by assumption.
    assert (Hqm : q * Zpos my <= Zpos mx * 2 ^ s) by nia.
    apply IZR_le in Hqm. rewrite !mult_IZR in Hqm.
    pose proof (bpow_gt_0 e').
    apply Rmult_le_compat_r with (r := (bpow e' * bpow ey)%R) in Hqm; [|nra].
    eapply Rle_trans; [|eapply Rle_trans; [exact Hqm|]]; right; ring. }
  assert (Hbig : emin prec emax < L -> L <= Zdigits2 q + e').
  { intros HL.
    assert (Hn : 0 <= L - 1 - e') by (unfold e', fexp; lia).
    pose proof (digits2_pos_lower mx) as Dx. fold d1 in Dx.
    pose proof (digits2_pos_upper my) as Dy. fold d2 in Dy.
    assert (Hd1 : 0 < d1) by (unfold d1; lia).
    assert (Hd2 : 0 < d2) by (unfold d2; lia).
    assert (Hlow : 2 ^ (L - 1 - e') <= q).
    { rewrite Hquot. apply Z.div_le_lower_bound; [lia|]. rewrite Hm'.
      assert (P : 0 < 2 ^ (L - 1 - e')) by (apply Z.pow_pos_nonneg; lia).
      apply Z.le_trans with (2 ^ d2 * 2 ^ (L - 1 - e')); [nia|].
      rewrite <- Z.pow_add_r by lia.
      replace (d2 + (L - 1 - e')) with ((d1 - 1) + s) by (unfold L, s; lia).
      rewrite Z.pow_add_r by lia.
      assert (0 < 2 ^ s) by (apply Z.pow_pos_nonneg; lia). nia. }
    assert (P : 0 < 2 ^ (L - 1 - e')) by (apply Z.pow_pos_nonneg; lia).
    pose proof (Zdigits2_bounds q ltac:(lia)) as [_ Bu].
    assert (L - 1 - e' < Zdigits2 q).
    { destruct (Z.lt_ge_cases (L - 1 - e') (Zdigits2 q)) as [A|A]; [exact A|].
      assert (2 ^ Zdigits2 q <= 2 ^ (L - 1 - e'))
        by (apply Z.pow_le_mono_r; [lia | exact A]). lia. }
    lia. }
  split; [exact Hq|]. split; [|split; [exact Hval | exact Hbig]].
  destruct (Z.le_gt_cases L (emin prec emax)) as [A|A].
  - unfold e', fexp. lia.
  - specialize (Hbig A).
    apply Z.le_trans with (fexp prec emax L); [unfold e'; lia|].
    apply fexp_mono. exact Hbig.
Qed.

Lemma SFdiv_finite_valid (sx sy : bool) (mx my : positive) (ex ey : Z) :
  valid_binary prec emax
    (SFdiv prec emax (S754_finite sx mx ex) (S754_finite sy my ey)) = true.
Proof.
  cbn [SFdiv]. pose proof (SFdiv_core_facts mx my ex ey) as F. cbv zeta in F.
  destruct (SFdiv_core_binary prec emax (Zpos mx) ex (Zpos my) ey)
    as [[q e'] l]. destruct F as (Hq & Ha & _).
  apply binary_round_aux_valid; assumption.
Qed.

Lemma SFdiv_finite_below (sx sy : bool) (mx my : positive) (ex ey : Z)
      (MB : positive) (EB : Z) :
  bounded prec emax MB EB = true ->
  ((IZR (Zpos mx) * bpow ex) / (IZR (Zpos my) * bpow ey)
   < IZR (Zpos MB) * bpow EB)%R ->
  within (IZR (Zpos MB) * bpow EB)
         (SFdiv prec emax (S754_finite sx mx ex) (S754_finite sy my ey)).
Proof.
  intros HB Hlt.
  cbn [SFdiv]. pose proof (SFdiv_core_facts mx my ex ey) as F. cbv zeta in F.
  destruct (SFdiv_core_binary prec emax (Zpos mx) ex (Zpos my) ey)
    as [[q e'] l]. destruct F as (Hq & Ha & Hv & _).
  apply binary_round_aux_below; try assumption. lra.
Qed.

Lemma SFdiv_finite_nonzero (sx sy : bool) (mx my : positive) (ex ey : Z) :
  emin prec emax
  < Zpos (digits2_pos mx) + ex - (Zpos (digits2_pos my) + ey) ->
  is_zero (SFdiv prec emax (S754_finite sx mx ex) (S754_finite sy my ey))
  = false.
Proof.
  intros HL.
  cbn [SFdiv]. pose proof (SFdiv_core_facts mx my ex ey) as F. cbv zeta in F.
  destruct (SFdiv_core_binary prec emax (Zpos mx) ex (Zpos my) ey)
    as [[q e'] l]. destruct F as (Hq & Ha & _ & Hb).
  apply binary_round_aux_nonzero; try assumption. specialize (Hb HL). lia.
Qed.

(** *** Valid numbers and their order *)

Lemma valid_finite_inv (s : bool) (m : positive) (e : Z) :
  valid_binary prec emax (S754_finite s m e) = true ->
  Zpos (digits2_pos m) <= prec /\ emin prec emax <= e /\
  (emin prec emax < e -> Zpos (digits2_pos m) = prec).
Proof.
  cbn [valid_binary]. unfold bounded, canonical_mantissa. intros H.
  apply andb_prop in H. destruct H as [Hc _]. apply Z.eqb_eq in Hc.
  unfold fexp in Hc. lia.
Qed.

Lemma valid_lt_bpow (s : bool) (m : positive) (e : Z) :
  valid_binary prec emax (S754_finite s m e) = true ->
  (IZR (Zpos m) * bpow e < bpow (prec + e))%R.
Proof.
  intros H. apply valid_finite_inv in H. destruct H as (Hd & _).
  rewrite bpow_add. pose proof (bpow_gt_0 e).
  apply Rmult_lt_compat_r; [assumption|].
  eapply Rlt_le_trans; [apply bpow_digits_gt|]. apply bpow_le. exact Hd.
Qed.

Lemma valid_ge_bpow (s : bool) (m : positive) (e : Z) :
  valid_binary prec emax (S754_finite s m e) = true ->
  emin prec emax < e ->
  (bpow (prec - 1 + e) <= IZR (Zpos m) * bpow e)%R.
Proof.
  intros H He. apply valid_finite_inv in H. destruct H as (_ & _ & Hd).
  specialize (Hd He).
  rewrite bpow_add. pose proof (bpow_gt_0 e).
  apply Rmult_le_compat_r; [lra|].
  rewrite <- Hd. apply bpow_digits_le.
Qed.

(** A valid number with the smaller exponent is the smaller number. *)
Lemma valid_exp_lt (m1 m2 : positive) (e1 e2 : Z) :
  valid_binary prec emax (S754_finite false m1 e1) = true ->
  valid_binary prec emax (S754_finite false m2 e2) = true ->
  e1 < e2 ->
  (IZR (Zpos m1) * bpow e1 < IZR (Zpos m2) * bpow e2)%R.
Proof.
  intros V1 V2 He.
  pose proof (valid_lt_bpow _ _ _ V1) as U.
  pose proof (valid_finite_inv _ _ _ V1) as (_ & Hmin & _).
  pose proof (valid_ge_bpow _ _ _ V2 ltac:(lia)) as Lw.
  pose proof (bpow_le (prec + e1) (prec - 1 + e2) ltac:(lia)). lra.
Qed.

Lemma SFcompare_valid (m1 m2 : positive) (e1 e2 : Z) :
  valid_binary prec emax (S754_finite false m1 e1) = true ->
  valid_binary prec emax (S754_finite false m2 e2) = true ->
  let v1 := (IZR (Zpos m1) * bpow e1)%R in
  let v2 := (IZR (Zpos m2) * bpow e2)%R in
  match SFcompare (S754_finite false m1 e1) (S754_finite false m2 e2) with
  | Some Lt => (v1 < v2)%R
  | Some Eq => v1 = v2
  | Some Gt => (v2 < v1)%R
  | None => False
  end.
Proof.
  intros V1 V2 v1 v2. cbn [SFcompare].
  change (Pos.compare_cont Eq m1 m2) with (Pos.compare m1 m2).
  destruct (Z.compare_spec e1 e2) as [E | L | L].
  - subst e2. pose proof (bpow_gt_0 e1). unfold v1, v2.
    destruct (Pos.compare_spec m1 m2) as [E | L | L].
    + subst m2. reflexivity.
    + apply Rmult_lt_compat_r; [assumption|]. apply IZR_lt. lia.
    + apply Rmult_lt_compat_r; [assumption|]. apply IZR_lt. lia.
  - apply valid_exp_lt; assumption.
  - apply valid_exp_lt; assumption.
Qed.

End Operations.

Lemma within_le (B B' : R) (r : spec_float) :
  within B r -> (B <= B')%R -> within B' r.
Proof. destruct r; cbn; try tauto. intros; lra. Qed.

(** A number of known sign within a bound is a zero or a finite number. *)
Lemma within_inv (B : R) (s : bool) (r : spec_float) :
  sign_is s r -> within B r ->
  r = S754_zero s \/
  exists m e, r = S754_finite s m e /\ (IZR (Zpos m) * bpow e <= B)%R.
Proof.
  destruct r as [t|t| |t m e]; cbn; intros S W; try contradiction; subst t.
  - left. reflexivity.
  - right. exists m, e. split; [reflexivity | exact W].
Qed.

(** Comparison of valid binary32 numbers above zero, by value. *)
Lemma leb_of_value (m1 m2 : positive) (e1 e2 : Z) :
  valid_binary F32.prec F32.emax (S754_finite false m1 e1) = true ->
  valid_binary F32.prec F32.emax (S754_finite false m2 e2) = true ->
  (IZR (Zpos m1) * bpow e1 <= IZR (Zpos m2) * bpow e2)%R ->
  (S754_finite false m1 e1 <=? S754_finite false m2 e2)%f32 = true.
Proof.
  intros V1 V2 H. pose proof (SFcompare_valid _ _ m1 m2 e1 e2 V1 V2) as C.
  cbv zeta in C. unfold F32.leb, SFleb.
  destruct (SFcompare (S754_finite false m1 e1) (S754_finite false m2 e2))
    as [[| |]|]; try reflexivity; [lra | contradiction].
Qed.

Lemma ltb_value (m1 m2 : positive) (e1 e2 : Z) :
  valid_binary F32.prec F32.emax (S754_finite false m1 e1) = true ->
  valid_binary F32.prec F32.emax (S754_finite false m2 e2) = true ->
  (S754_finite false m1 e1 <? S754_finite false m2 e2)%f32 = true ->
  (IZR (Zpos m1) * bpow e1 < IZR (Zpos m2) * bpow e2)%R.
Proof.
  intros V1 V2 H. pose proof (SFcompare_valid _ _ m1 m2 e1 e2 V1 V2) as C.
  cbv zeta in C. unfold F32.ltb, SFltb in H.
  destruct (SFcompare (S754_finite false m1 e1) (S754_finite false m2 e2))
    as [[| |]|]; try discriminate. exact C.
Qed.

Lemma leb_value (m1 m2 : positive) (e1 e2 : Z) :
  valid_binary F32.prec F32.emax (S754_finite false m1 e1) = true ->
  valid_binary F32.prec F32.emax (S754_finite false m2 e2) = true ->
  (S754_finite false m1 e1 <=? S754_finite false m2 e2)%f32 = true ->
  (IZR (Zpos m1) * bpow e1 <= IZR (Zpos m2) * bpow e2)%R.
Proof.
  intros V1 V2 H. pose proof (SFcompare_valid _ _ m1 m2 e1 e2 V1 V2) as C.
  cbv zeta in C. unfold F32.leb, SFleb in H.
  destruct (SFcompare (S754_finite false m1 e1) (S754_finite false m2 e2))
    as [[| |]|]; try discriminate; lra.
Qed.

(** The order of two numbers below zero is the reverse of the order of
    their magnitudes. *)
Lemma SFcompare_neg (m1 m2 : positive) (e1 e2 : Z) :
  SFcompare (S754_finite true m1 e1) (S754_finite true m2 e2)
  = SFcompare (S754_finite false m2 e2) (S754_finite false m1 e1).
Proof.
  cbn [SFcompare].
  change (Pos.compare_cont Eq m1 m2) with (Pos.compare m1 m2).
  change (Pos.compare_cont Eq m2 m1) with (Pos.compare m2 m1).
  rewrite (Z.compare_antisym e1 e2), (Pos.compare_antisym m1 m2).
  destruct (e1 ?= e2); cbn; reflexivity.
Qed.

Lemma leb_neg_of_value (m1 m2 : positive) (e1 e2 : Z) :
  valid_binary F32.prec F32.emax (S754_finite true m1 e1) = true ->
  valid_binary F32.prec F32.emax (S754_finite true m2 e2) = true ->
  (IZR (Zpos m2) * bpow e2 <= IZR (Zpos m1) * bpow e1)%R ->
  (S754_finite true m1 e1 <=? S754_finite true m2 e2)%f32 = true.
Proof.
  intros V1 V2 H. unfold F32.leb, SFleb. rewrite SFcompare_neg.
  apply (leb_of_value m2 m1 e2 e1); assumption.
Qed.

(** ** The clock in seconds *)

Lemma of_Z_u32_ok (n : Z) :
  0 <= n < 4294967296 ->
  sign_is false (F32.of_Z n) /\
  valid_binary F32.prec F32.emax (F32.of_Z n) = true /\
  within 4294967296 (F32.of_Z n).
Proof.
  intros Hn. unfold F32.of_Z. destruct n as [|p|p]; [| |lia].
  - cbn. repeat split.
  - cbn [binary_normalize]. split; [apply binary_round_upper|].
    split; [apply binary_round_valid; reflexivity|].
    replace 4294967296%R with (IZR (Zpos 8388608) * bpow 9)%R
      by (rewrite (bpow_nonneg_exp 9) by lia; change (2 ^ 9) with 512; lra).
    apply binary_round_below; [reflexivity | reflexivity|].
    change (bpow 0) with 1%R.
    rewrite (bpow_nonneg_exp 9) by lia. change (2 ^ 9) with 512.
    assert (IZR (Zpos p) < 4294967296)%R by (apply IZR_lt; lia). lra.
Qed.

Lemma elapsed_s_ok (z : Z) :
  elapsed_ok (F32.of_Z (wrap_u32 z) / F32.lit 1000 1)%f32.
Proof.
  change (F32.lit 1000 1) with (S754_finite false 16384000 (-14)).
  assert (Hn : 0 <= wrap_u32 z < 4294967296)
    by (unfold wrap_u32; apply Z.mod_pos_bound; lia).
  destruct (of_Z_u32_ok _ Hn) as (S & V & W).
  destruct (within_inv _ _ _ S W) as [-> | (m & e & -> & B)].
  - cbn. repeat split.
  - unfold F32.div. split; [|split].
    + apply (SFdiv_finite F32.prec F32.emax eq_refl false false).
    + apply SFdiv_finite_valid. reflexivity.
    + replace 8388608%R with (IZR (Zpos 8388608) * bpow 0)%R
        by (change (bpow 0) with 1%R; lra).
      apply SFdiv_finite_below; [reflexivity | reflexivity|].
      change (bpow 0) with 1%R. rewrite (bpow_neg_num 14).
      change (2 ^ 14) with 16384.
      pose proof (bpow_gt_0 e).
      assert (0 < IZR (Zpos m))%R by (apply IZR_lt; lia).
      apply Rmult_lt_reg_r with (16384000 * / 16384)%R; [lra|].
      unfold Rdiv. rewrite Rmult_assoc, Rinv_l by lra. nra.
Qed.

Lemma elapsed_ok_zero : elapsed_ok F32.zero.
Proof. cbn. repeat split. Qed.

(** ** The velocity *)

Lemma flow_velocity_range (t : float) :
  elapsed_ok t ->
  (F32.zero <? flow_velocity t)%f32 = true /\
  (flow_velocity t <=? F32.lit 1800 1)%f32 = true.
Proof.
  intros (S & V & W). unfold flow_velocity.
  destruct (within_inv _ _ _ S W) as [-> | (m & e & -> & B)];
    [split; reflexivity|].
  change (F32.lit 5 10) with (S754_finite false 8388608 (-24)).
  change FLOW_CAL_K with (S754_finite false 14745600 (-14)).
  change (F32.lit 1800 1) with (S754_finite false 14745600 (-13)).
  destruct (S754_finite false 8388608 (-24) <? S754_finite false m e)%f32
    eqn:Hlate; [|split; reflexivity].
  apply ltb_value in Hlate; [|reflexivity | exact V].
  rewrite (bpow_neg_num 24) in Hlate. change (2 ^ 24) with 16777216 in Hlate.
  pose proof (bpow_gt_0 e) as Pe.
  assert (Pm : (0 < IZR (Zpos m))%R) by (apply IZR_lt; lia).
  unfold F32.div.
  set (v := SFdiv F32.prec F32.emax (S754_finite false 14745600 (-14))
                  (S754_finite false m e)).
  assert (Sv : sign_is false v)
    by (apply (SFdiv_finite F32.prec F32.emax eq_refl false false)).
  assert (Vv : valid_binary F32.prec F32.emax v = true)
    by (apply SFdiv_finite_valid; reflexivity).
  assert (Wv : within (IZR (Zpos 14745600) * bpow (-13)) v).
  { apply SFdiv_finite_below; [reflexivity | reflexivity|].
    rewrite (bpow_neg_num 14), (bpow_neg_num 13).
    change (2 ^ 14) with 16384. change (2 ^ 13) with 8192.
    apply Rmult_lt_reg_r with (IZR (Zpos m) * bpow e)%R; [nra|].
    unfold Rdiv. rewrite Rmult_assoc, Rinv_l by nra. nra. }
  assert (Nv : is_zero v = false).
  { apply SFdiv_finite_nonzero; [reflexivity|].
    pose proof (digits_le_of_value (Zpos m) e 8388608 0 ltac:(lia) ltac:(lia))
      as D. cbn [Zdigits2] in D.
    change (bpow 0) with 1%R in D. specialize (D ltac:(lra)).
    change (Zpos (digits2_pos 8388608)) with 24 in D.
    change (Zpos (digits2_pos 14745600)) with 24.
    change (emin F32.prec F32.emax) with (-149). lia. }
  destruct (within_inv _ _ _ Sv Wv) as [E | (mv & ev & E & Bv)];
    rewrite E in *; [discriminate Nv|].
  split; [reflexivity|].
  apply leb_of_value; [exact Vv | reflexivity | exact Bv].
Qed.

(** ** Invariants of the recorded times *)

Section Times.
Variable logf sinf cosf : float -> float.
Variable atan2f : float -> float -> float.
Variable env : Env.
Variable P : float -> Prop.
Hypothesis P_elapsed : forall z, P (F32.of_Z (wrap_u32 z) / F32.lit 1000 1)%f32.
Hypothesis P_zero : P F32.zero.

Lemma update_peaks_times_inv (baseline t : arr4) (z : Z) (pk : arr4 * arr4) :
  (forall j, (j < 4)%nat -> P (get (snd pk) j)) ->
  forall j, (j < 4)%nat ->
    P (get (snd (update_peaks baseline t
                   (F32.of_Z (wrap_u32 z) / F32.lit 1000 1)%f32 pk)) j).
Proof.
  destruct pk as [peak_dt peak_time]. intros H j Hj.
  pose proof (update_peaks_channel baseline t
                (F32.of_Z (wrap_u32 z) / F32.lit 1000 1)%f32
                peak_dt peak_time j Hj) as U. cbv zeta in U.
  destruct (get peak_dt j <? get t j - get baseline j)%f32.
  - destruct U as [_ ->]. apply P_elapsed.
  - destruct U as [_ ->]. apply (H j Hj).
Qed.

Lemma monitor_loop_times_inv (fuel : nat) :
  forall start_ms baseline pk w pk' w',
    monitor_loop logf env fuel start_ms baseline pk w = Some (pk', w') ->
    (forall j, (j < 4)%nat -> P (get (snd pk) j)) ->
    forall j, (j < 4)%nat -> P (get (snd pk') j).
Proof.
  induction fuel as [|fuel IH]; intros start_ms baseline pk w pk' w' E H.
  - discriminate.
  - cbn [monitor_loop] in E.
    apply bind_Some in E. destruct E as (now & w1 & _ & E).
    destruct (wrap_u32 (now - start_ms) <? FLOW_MONITOR_MS).
    + apply bind_Some in E. destruct E as (t & w2 & _ & E).
      apply bind_Some in E. destruct E as (now' & w3 & _ & E).
      apply bind_Some in E. destruct E as (u & w4 & _ & E).
      eapply IH; [exact E|]. apply update_peaks_times_inv, H.
    + inversion E; subst. exact H.
Qed.

Lemma run_heat_pulse_times_inv uninit fuel w r w' :
  run_heat_pulse logf sinf cosf atan2f env uninit fuel w = Some (r, w') ->
  forall j, (j < 4)%nat -> P (get (peak_times r) j).
Proof.
  unfold run_heat_pulse. intros E.
  apply bind_Some in E. destruct E as (baseline & w1 & _ & E).
  apply bind_Some in E. destruct E as (u & w2 & _ & E).
  apply bind_Some in E. destruct E as (pk & w3 & Em & E).
  inversion E; subst. rewrite flow_estimate_peak_times.
  unfold monitor_phase in Em.
  apply bind_Some in Em. destruct Em as (start_ms & w4 & _ & Em).
  eapply monitor_loop_times_inv; [exact Em|].
  intros j Hj. destruct j as [|[|[|[|j]]]]; try lia; exact P_zero.
Qed.

End Times.

(** ** The range of the direction *)

Lemma mag_of_range (s : bool) (m : positive) (e : Z) :
  valid_binary F32.prec F32.emax (S754_finite s m e) = true ->
  (F32.lit (-4) 1 <=? S754_finite s m e)%f32 = true ->
  (S754_finite s m e <=? F32.lit 4 1)%f32 = true ->
  (IZR (Zpos m) * bpow e <= 4)%R.
Proof.
  intros V Hlo Hhi.
  change (F32.lit (-4) 1) with (S754_finite true 8388608 (-21)) in Hlo.
  change (F32.lit 4 1) with (S754_finite false 8388608 (-21)) in Hhi.
  assert (B : (IZR (Zpos m) * bpow e <= IZR (Zpos 8388608) * bpow (-21))%R).
  { destruct s.
    - unfold F32.leb, SFleb in Hlo. rewrite SFcompare_neg in Hlo.
      apply (leb_value m 8388608 e (-21)); [exact V | reflexivity | exact Hlo].
    - apply (leb_value m 8388608 e (-21)); [exact V | reflexivity | exact Hhi]. }
  rewrite (bpow_neg_num 21) in B. change (2 ^ 21) with 2097152 in B. lra.
Qed.

Lemma degrees_of_range (a : float) :
  valid_binary F32.prec F32.emax a = true ->
  (F32.lit (-4) 1 <=? a)%f32 = true ->
  (a <=? F32.lit 4 1)%f32 = true ->
  exists s, sign_is s (degrees_of a) /\
            valid_binary F32.prec F32.emax (degrees_of a) = true /\
            within 231 (degrees_of a).
Proof.
  intros V Hlo Hhi. destruct a as [s|s| |s m e].
  - exists s. destruct s; cbn; repeat split.
  - destruct s; discriminate.
  - discriminate.
  - pose proof (mag_of_range s m e V Hlo Hhi) as Ba. exists s.
    pose proof (bpow_gt_0 e) as Pe.
    assert (Pm : (0 < IZR (Zpos m))%R) by (apply IZR_lt; lia).
    unfold degrees_of.
    change (F32.lit 180 1) with (S754_finite false 11796480 (-16)).
    change M_PI with (S754_finite false 7074237752028440 (-51)).
    unfold F32.mul, F64.div.
    (* the product in single precision *)
    set (p := SFmul F32.prec F32.emax (S754_finite s m e)
                    (S754_finite false 11796480 (-16))).
    assert (Sp : sign_is s p).
    { pose proof (SFmul_finite F32.prec F32.emax s false m 11796480 e (-16))
        as [S _]. rewrite xorb_false_r in S. exact S. }
    assert (Wp : within (IZR (Zpos 11812864) * bpow (-14)) p).
    { apply SFmul_normal_below;
        [reflexivity | vm_compute; discriminate | reflexivity|].
      rewrite (bpow_neg_num 16), (bpow_neg_num 14).
      change (2 ^ 16) with 65536. change (2 ^ 14) with 16384.
      set (va := (IZR (Zpos m) * bpow e)%R) in *. lra. }
    destruct (within_inv _ _ _ Sp Wp) as [-> | (mp & ep & -> & Bp)].
    { destruct s; cbn; repeat split. }
    rewrite (bpow_neg_num 14) in Bp. change (2 ^ 14) with 16384 in Bp.
    (* widened to double precision *)
    cbn [F64.of_float].
    set (P := binary_round F64.prec F64.emax s mp ep).
    assert (SP : sign_is s P) by (apply binary_round_upper).
    assert (WP : within (IZR (Zpos 6350779162034176) * bpow (-43)) P).
    { apply binary_round_below; [reflexivity | reflexivity|].
      rewrite (bpow_neg_num 43). change (2 ^ 43) with 8796093022208.
      set (vp := (IZR (Zpos mp) * bpow ep)%R) in *. lra. }
    destruct (within_inv _ _ _ SP WP) as [-> | (mP & eP & -> & BP)].
    { destruct s; cbn; repeat split. }
    rewrite (bpow_neg_num 43) in BP. change (2 ^ 43) with 8796093022208 in BP.
    (* divided by pi *)
    set (Q := SFdiv F64.prec F64.emax (S754_finite s mP eP)
                    (S754_finite false 7074237752028440 (-51))).
    assert (SQ : sign_is s Q).
    { pose proof (SFdiv_finite F64.prec F64.emax eq_refl s false mP
                               7074237752028440 eP (-51)) as [S _].
      rewrite xorb_false_r in S. exact S. }
    assert (WQ : within (IZR (Zpos 8092405580431360) * bpow (-45)) Q).
    { apply SFdiv_finite_below; [reflexivity | reflexivity|].
      rewrite (bpow_neg_num 51), (bpow_neg_num 45).
      change (2 ^ 51) with 2251799813685248.
      change (2 ^ 45) with 35184372088832.
      pose proof (bpow_gt_0 eP).
      assert (0 < IZR (Zpos mP))%R by (apply IZR_lt; lia).
      apply Rmult_lt_reg_r with (7074237752028440 * / 2251799813685248)%R;
        [lra|].
      unfold Rdiv. rewrite Rmult_assoc, Rinv_l by lra.
      set (vP := (IZR (Zpos mP) * bpow eP)%R) in *. lra. }
    destruct (within_inv _ _ _ SQ WQ) as [-> | (mQ & eQ & -> & BQ)].
    { destruct s; cbn; repeat split. }
    rewrite (bpow_neg_num 45) in BQ. change (2 ^ 45) with 35184372088832 in BQ.
    (* narrowed to single precision *)
    cbn [F32.of_double]. split; [apply binary_round_upper|].
    split; [apply binary_round_valid; reflexivity|].
    replace 231%R with (IZR (Zpos 15138816) * bpow (-16))%R
      by (rewrite (bpow_neg_num 16); change (2 ^ 16) with 65536; lra).
    apply binary_round_below; [reflexivity | reflexivity|].
    rewrite (bpow_neg_num 16). change (2 ^ 16) with 65536.
    set (vQ := (IZR (Zpos mQ) * bpow eQ)%R) in *. lra.
Qed.

Lemma normalise_range (d : float) (s : bool) :
  sign_is s d -> valid_binary F32.prec F32.emax d = true -> within 231 d ->
  (F32.zero <=? normalise d)%f32 = true /\
  (normalise d <=? F32.lit 360 1)%f32 = true.
Proof.
  intros S V W. unfold normalise.
  change (F32.lit 360 1) with (S754_finite false 11796480 (-15)).
  destruct (within_inv _ _ _ S W) as [-> | (m & e & -> & B)].
  - destruct s; split; reflexivity.
  - pose proof (bpow_gt_0 e) as Pe.
    assert (Pm : (0 < IZR (Zpos m))%R) by (apply IZR_lt; lia).
    destruct s.
    + change (S754_finite true m e <? F32.zero)%f32 with true. cbv iota.
      unfold F32.add.
      set (r := SFadd F32.prec F32.emax (S754_finite true m e)
                      (S754_finite false 11796480 (-15))).
      pose proof (SFadd_finite F32.prec F32.emax true false m 11796480 e (-15))
        as (Hpos & _). cbv zeta in Hpos. fold r in Hpos.
      cbn [sval cond_Zopp] in Hpos. rewrite opp_IZR in Hpos.
      rewrite (bpow_neg_num 15) in Hpos. change (2 ^ 15) with 32768 in Hpos.
      destruct (Hpos ltac:(lra)) as [Sr _].
      assert (Vr : valid_binary F32.prec F32.emax r = true)
        by (apply SFadd_finite_valid; reflexivity).
      assert (Wr : within (IZR (Zpos 11796480) * bpow (-15)) r).
      { apply SFadd_finite_below; [reflexivity | reflexivity|].
        cbn [sval cond_Zopp]. rewrite opp_IZR.
        rewrite (bpow_neg_num 15). change (2 ^ 15) with 32768.
        apply Rabs_def1; nra. }
      destruct (within_inv _ _ _ Sr Wr) as [-> | (mr & er & -> & Br)];
        [split; reflexivity|].
      split; [reflexivity|].
      apply leb_of_value; [exact Vr | reflexivity | exact Br].
    + change (S754_finite false m e <? F32.zero)%f32 with false. cbv iota.
      split; [reflexivity|].
      apply leb_of_value; [exact V | reflexivity|].
      rewrite (bpow_neg_num 15). change (2 ^ 15) with 32768. lra.
Qed.

Lemma flow_direction_range sinf cosf atan2f peak_dt :
  let a := atan2f (fst (bearing_sums sinf cosf peak_dt))
                  (snd (bearing_sums sinf cosf peak_dt)) in
  valid_binary F32.prec F32.emax a = true ->
  (F32.lit (-4) 1 <=? a)%f32 = true ->
  (a <=? F32.lit 4 1)%f32 = true ->
  (F32.zero <=? flow_direction sinf cosf atan2f peak_dt)%f32 = true /\
  (flow_direction sinf cosf atan2f peak_dt <=? F32.lit 360 1)%f32 = true.
Proof.
  intros a V Hlo Hhi. rewrite flow_direction_eq. fold a.
  destruct (degrees_of_range a V Hlo Hhi) as (s & S & Vd & W).
  exact (normalise_range _ s S Vd W).
Qed.

(** ** The range of the temperature *)

Lemma steinhart_tail_range (s : float) :
  sign_is false s \/ s = S754_infinity true ->
  (F32.lit (-27315) 100 <=? F32.lit 1 1 / s - F32.lit 27315 100)%f32 = true.
Proof.
  change (F32.lit 1 1) with (S754_finite false 8388608 (-23)).
  change (F32.lit 27315 100) with (S754_finite false 8950579 (-15)).
  change (F32.lit (-27315) 100) with (S754_finite true 8950579 (-15)).
  intros [Hs | ->]; [|reflexivity].
  destruct s as [b|b| |b m e]; cbn [sign_is] in Hs; try contradiction; subst b.
  - reflexivity.
  - reflexivity.
  - unfold F32.div.
    set (q := SFdiv F32.prec F32.emax (S754_finite false 8388608 (-23))
                    (S754_finite false m e)).
    assert (Sq : sign_is false q)
      by (apply (SFdiv_finite F32.prec F32.emax eq_refl false false)).
    destruct q as [b|b| |b mq eq] eqn:Eq; cbn [sign_is] in Sq;
      try contradiction; subst b; try reflexivity.
    unfold F32.sub.
    set (r := SFsub F32.prec F32.emax (S754_finite false mq eq)
                    (S754_finite false 8950579 (-15))).
    pose proof (SFsub_finite F32.prec F32.emax false false mq 8950579 eq (-15))
      as (Hpos & Hneg & Hzero). cbv zeta in Hpos, Hneg, Hzero.
    fold r in Hpos, Hneg, Hzero.
    cbn [sval cond_Zopp] in Hpos, Hneg, Hzero.
    pose proof (bpow_gt_0 eq) as Pe.
    assert (Pm : (0 < IZR (Zpos mq))%R) by (apply IZR_lt; lia).
    assert (Vr : valid_binary F32.prec F32.emax r = true)
      by (apply SFsub_finite_valid; reflexivity).
    set (v := (IZR (Zpos mq) * bpow eq - IZR (Zpos 8950579) * bpow (-15))%R)
      in *.
    destruct (Rtotal_order v 0) as [L | [L | L]].
    + destruct (Hneg L) as [Sr _].
      assert (Wr : within (IZR (Zpos 8950579) * bpow (-15)) r).
      { apply SFsub_finite_below; [reflexivity | reflexivity|].
        cbn [sval cond_Zopp]. fold v. unfold v in *.
        assert (0 < IZR (Zpos mq) * bpow eq)%R by nra.
        set (vq := (IZR (Zpos mq) * bpow eq)%R) in *.
        set (c := (IZR (Zpos 8950579) * bpow (-15))%R) in *.
        apply Rabs_def1; lra. }
      destruct (within_inv _ _ _ Sr Wr) as [-> | (mr & er & E & Br)];
        [reflexivity|].
      rewrite E in *.
      apply leb_neg_of_value; [reflexivity | exact Vr | exact Br].
    + rewrite (Hzero L). reflexivity.
    + destruct (Hpos L) as [Sr _].
      destruct r as [b|b| |b mr er]; cbn [sign_is] in Sr; try contradiction;
        subst b; reflexivity.
Qed.

Lemma steinhart_sum_kind (l : float) :
  valid_binary F32.prec F32.emax l = true ->
  (l <? F32.lit (-11) 1)%f32 = false ->
  is_nan l = false ->
  let s := (l / THERM_B_COEFF
            + F32.lit 1 1 / (THERM_NOMINAL_T + F32.lit 27315 100))%f32 in
  sign_is false s \/ s = S754_infinity true.
Proof.
  intros Hv Hr Hn.
  change (F32.lit 1 1 / (THERM_NOMINAL_T + F32.lit 27315 100))%f32
    with (S754_finite false 14405391 (-32)).
  change THERM_B_COEFF with (S754_finite false 16179200 (-12)).
  cbv zeta.
  destruct l as [b|b| |b m e].
  - destruct b; left; reflexivity.
  - destruct b; [discriminate Hr | left; reflexivity].
  - discriminate Hn.
  - pose proof (SFdiv_by_finite F32.prec F32.emax ltac:(reflexivity)
                                (S754_finite b m e) b false 16179200 (-12)
                                eq_refl) as [S B].
    fold F32.div in S, B. rewrite xorb_false_r in S.
    destruct b.
    + change (F32.lit (-11) 1) with (S754_finite true 11534336 (-20)) in Hr.
      pose proof (not_below_mag F32.prec F32.emax ltac:(reflexivity)
                                m 11534336 e (-20) Hv ltac:(cbn; lia) Hr) as Bl.
      rewrite (bpow_neg_num 20) in Bl. change (2 ^ 20) with 1048576 in Bl.
      rewrite (bpow_neg_num 12) in B. change (2 ^ 12) with 4096 in B.
      assert (Bq : (mag (S754_finite true m e / S754_finite false 16179200 (-12))%f32
                    < IZR (Zpos 14405391) * bpow (-32))%R).
      { rewrite (bpow_neg_num 32). change (2 ^ 32) with 4294967296.
        pose proof u32_small. pose proof eta32_small.
        pose proof (unit_roundoff_pos F32.prec).
        pose proof (tiny_pos F32.prec F32.emax).
        pose proof (mag_nonneg (S754_finite true m e)).
        set (ml := mag (S754_finite true m e)) in *.
        assert (ml / (16179200 * / 4096) <= 11 / 3950)%R.
        { apply Rmult_le_reg_r with (16179200 * / 4096)%R; [lra|].
          unfold Rdiv at 1. rewrite Rmult_assoc, Rinv_l by lra. lra. }
        assert (0 <= ml / (16179200 * / 4096))%R.
        { apply Rmult_le_pos; [assumption|].
          apply Rlt_le, Rinv_0_lt_compat. lra. }
        set (u1 := unit_roundoff F32.prec) in *.
        set (t1 := tiny F32.prec F32.emax) in *.
        nra. }
      destruct (S754_finite true m e / S754_finite false 16179200 (-12))%f32
        as [c|c| |c mq eq] eqn:Eq; cbn [sign_is] in S; try contradiction;
        subst c.
      * left. reflexivity.
      * right. reflexivity.
      * left. apply (SFadd_small_neg F32.prec F32.emax (S754_finite true mq eq)
                                     14405391 (-32) eq_refl ltac:(discriminate) Bq).
    + left.
      apply (SFadd_nonneg_finite F32.prec F32.emax _ 14405391 (-32) S).
Qed.

Lemma steinhart_temp_range (logf : float -> float) (r_therm : float) :
  logf_in_range logf ->
  (F32.lit 1 32768 <=? r_therm / THERM_NOMINAL_R)%f32 = true ->
  (is_nan (logf (r_therm / THERM_NOMINAL_R)%f32) = true /\
   is_nan (steinhart_temp logf r_therm) = true) \/
  (F32.lit (-27315) 100 <=? steinhart_temp logf r_therm)%f32 = true.
Proof.
  intros H Hx. unfold steinhart_temp. destruct (H _ Hx) as [Hv Hr].
  set (l := logf (r_therm / THERM_NOMINAL_R)%f32) in *.
  destruct (is_nan l) eqn:Hn.
  - left. split; [reflexivity|]. destruct l; try discriminate Hn. reflexivity.
  - right. apply steinhart_tail_range.
    apply (steinhart_sum_kind l Hv Hr Hn).
Qed.

(** ** Every count of the ADC *)

Lemma divider_ok_all : int16_all divider_ok = true.
Proof. vm_compute. reflexivity. Qed.

Lemma resistance_rises_all : int16_all resistance_rises = true.
Proof. vm_compute. reflexivity. Qed.

Lemma ratio_ok_all : int16_all ratio_ok = true.
Proof. vm_compute. reflexivity. Qed.

Lemma ltb_trans (a b c : float) :
  (a <? b)%f32 = true -> (b <? c)%f32 = true -> (a <? c)%f32 = true.
Proof. intros H1 H2. eapply leb_ltb_trans; [apply ltb_leb; exact H1 | exact H2]. Qed.

Lemma resistance_rises_from (a : Z) (n : nat) :
  0 < a -> a + 1 + Z.of_nat n < 26400 ->
  (r_therm_of_raw a <? r_therm_of_raw (a + 1 + Z.of_nat n))%f32 = true.
Proof.
  intros Ha. induction n as [|n IH]; intros Hb.
  - replace (a + 1 + Z.of_nat 0) with (a + 1) by lia.
    pose proof (int16_all_spec _ resistance_rises_all a ltac:(lia)) as R.
    unfold resistance_rises in R.
    replace ((0 <? a) && (a <? 26399)) with true in R
      by (symmetry; apply andb_true_intro; split;
          [apply Z.ltb_lt | apply Z.ltb_lt]; lia).
    exact R.
  - eapply ltb_trans; [apply IH; lia|].
    pose proof (int16_all_spec _ resistance_rises_all (a + 1 + Z.of_nat n)
                               ltac:(lia)) as R.
    unfold resistance_rises in R.
    replace ((0 <? a + 1 + Z.of_nat n) && (a + 1 + Z.of_nat n <? 26399))
      with true in R
      by (symmetry; apply andb_true_intro; split;
          [apply Z.ltb_lt | apply Z.ltb_lt]; lia).
    replace (a + 1 + Z.of_nat (S n)) with (a + 1 + Z.of_nat n + 1) by lia.
    exact R.
Qed.

(** * Further properties of the firmware *)

Section CycleIO.

Variable logf sinf cosf : float -> float.
Variable atan2f : float -> float -> float.
Variable env : Env.


(** X2. What a cycle reads: 40 conversions for the baseline and 4 for each
    sample, and the clock once for the start, once for each test of the
    loop condition and once for each sample. *)
Theorem cycle_reads (uninit : FlowResult) (fuel : nat) (w w' : World)
        (r : FlowResult) :
  run_heat_pulse logf sinf cosf atan2f env uninit fuel w = Some (r, w') ->
  exists n, (n < fuel)%nat /\
            conversions w' = (conversions w + 40 + 4 * n)%nat /\
            clock_reads w' = (clock_reads w + 2 + 2 * n)%nat.
Proof.
  intros E. destruct (run_heat_pulse_world _ _ _ _ _ _ _ _ _ _ E)
    as (n & Hn & Hc & Hk & _).
  exists n. repeat split; assumption.
Qed.

(** X3. The result does not depend on what the local [result] holds on
    entry: every field is assigned before each [return]. *)
Theorem result_ignores_uninit (u1 u2 : FlowResult) (fuel : nat) (w : World) :
  run_heat_pulse logf sinf cosf atan2f env u1 fuel w
  = run_heat_pulse logf sinf cosf atan2f env u2 fuel w.
Proof. apply run_heat_pulse_uninit. Qed.

(** X4. In every result a channel either never rose above its baseline,
    and then its peak and its time to peak are both +0, or its peak is
    above zero. *)
Theorem peak_and_time_coupled (uninit : FlowResult) (fuel : nat)
        (w w' : World) (r : FlowResult) :
  run_heat_pulse logf sinf cosf atan2f env uninit fuel w = Some (r, w') ->
  forall j, (j < 4)%nat ->
    (get (peak_temps r) j = F32.zero /\ get (peak_times r) j = F32.zero) \/
    (F32.zero <? get (peak_temps r) j)%f32 = true.
Proof. intros E. exact (run_heat_pulse_coupled _ _ _ _ _ _ _ _ _ _ E). Qed.

(** X5. When every pass of the monitoring loop takes at least
    FLOW_SAMPLE_MS by the clock, the cycle returns after at most
    MAX_SAMPLES = 600 samples (2400 conversions after the baseline). *)
Theorem samples_bounded (uninit : FlowResult) (fuel : nat) (w : World) :
  paced env w -> (MAX_SAMPLES < fuel)%nat ->
  exists r w' n,
    run_heat_pulse logf sinf cosf atan2f env uninit fuel w = Some (r, w') /\
    (n <= MAX_SAMPLES)%nat /\
    conversions w' = (conversions w + 40 + 4 * n)%nat /\
    rev (events w') = rev (events w) ++ cycle_events n.
Proof.
  intros Hp Hf. pose proof (paced_window_over env w Hp) as Hw.
  destruct (run_heat_pulse_returns logf sinf cosf atan2f env uninit fuel
                                   MAX_SAMPLES w Hw Hf) as (r & w' & E).
  destruct (run_heat_pulse_world _ _ _ _ _ _ _ _ _ _ E)
    as (n & Hn & Hc & Hk & He).
  pose proof (run_heat_pulse_within _ _ _ _ _ _ _ _ _ _ _ E Hw) as Hlim.
  exists r, w', n. split; [exact E|]. split; [lia|]. split; assumption.
Qed.

(** X6. The cycle depends on differences of clock readings only, taken
    modulo 2^32: starting the clock [k] ms earlier or later, across a
    wrap-around of [millis()] or not, changes nothing. *)
Theorem clock_shift_invariant (k : Z) (uninit : FlowResult) (fuel : nat)
        (w : World) :
  run_heat_pulse logf sinf cosf atan2f (shift_clock k env) uninit fuel w
  = run_heat_pulse logf sinf cosf atan2f env uninit fuel w.
Proof. apply run_heat_pulse_shift. Qed.

(** X7. A probe of which every conversion reads a count without a
    resistance (up to 0, or from 26400 on) is not told apart from still
    water: every reading is the sentinel, no rise is seen, and the result is
    velocity 0, direction -1, all peaks and times 0, with valid = true. *)
Theorem open_circuit_reads_stagnant (uninit : FlowResult) (fuel : nat)
        (w w' : World) (r : FlowResult) :
  open_circuit env ->
  run_heat_pulse logf sinf cosf atan2f env uninit fuel w = Some (r, w') ->
  r = no_flow.
Proof. intros Ho E. exact (open_run_heat_pulse _ _ _ _ _ Ho _ _ _ _ _ E). Qed.

(** X10. In a cycle that is not stagnant the velocity is above zero and at
    most K / 0.5 = 1800; so the velocity of a result is zero exactly when
    the cycle is stagnant. *)
Theorem velocity_positive_bounded (uninit : FlowResult) (fuel : nat)
        (w w' : World) (r : FlowResult) :
  run_heat_pulse logf sinf cosf atan2f env uninit fuel w = Some (r, w') ->
  ((get (peak_temps r) (dominant (peak_temps r)) <? STAGNANT_DT)%f32 = false ->
   (F32.zero <? velocity_cm_day r)%f32 = true /\
   (velocity_cm_day r <=? F32.lit 1800 1)%f32 = true) /\
  (velocity_cm_day r = F32.of_Z 0 <->
   (get (peak_temps r) (dominant (peak_temps r)) <? STAGNANT_DT)%f32 = true).
Proof.
  intros E.
  pose proof (run_heat_pulse_times_inv logf sinf cosf atan2f env elapsed_ok
                elapsed_s_ok elapsed_ok_zero _ _ _ _ _ E) as T.
  apply run_heat_pulse_inv in E. destruct E as (peak_dt & peak_time & -> & _).
  rewrite flow_estimate_peak_temps in *. rewrite flow_estimate_peak_times in T.
  rewrite flow_estimate_eq.
  pose proof (flow_velocity_range _ (T _ (dominant_lt peak_dt))) as [Hpos Hle].
  destruct (get peak_dt (dominant peak_dt) <? STAGNANT_DT)%f32;
    cbn [velocity_cm_day].
  - split; [discriminate|]. split; reflexivity.
  - split; [intros _; split; assumption|].
    split; [|discriminate]. intros Hz. rewrite Hz in Hpos. discriminate Hpos.
Qed.

(** X9. In a cycle that is not stagnant, when [atan2f] returns for the two
    sums a valid number between -4 and 4 (its range is [-pi, pi]), the
    direction is between 0 and 360, both included. *)
Theorem direction_within_0_360 (uninit : FlowResult) (fuel : nat)
        (w w' : World) (r : FlowResult) :
  run_heat_pulse logf sinf cosf atan2f env uninit fuel w = Some (r, w') ->
  (get (peak_temps r) (dominant (peak_temps r)) <? STAGNANT_DT)%f32 = false ->
  let a := atan2f (fst (bearing_sums sinf cosf (peak_temps r)))
                  (snd (bearing_sums sinf cosf (peak_temps r))) in
  valid_binary F32.prec F32.emax a = true ->
  (F32.lit (-4) 1 <=? a)%f32 = true ->
  (a <=? F32.lit 4 1)%f32 = true ->
  (F32.zero <=? direction_deg r)%f32 = true /\
  (direction_deg r <=? F32.lit 360 1)%f32 = true.
Proof.
  intros E. apply run_heat_pulse_inv in E.
  destruct E as (peak_dt & peak_time & -> & _).
  rewrite flow_estimate_peak_temps. intros Hflow a V Hlo Hhi.
  rewrite flow_estimate_eq, Hflow. cbn [direction_deg].
  apply flow_direction_range; assumption.
Qed.

End CycleIO.

(** X8. For every 16-bit count the divider divides by a number other than
    zero, which is above zero exactly for the counts below 26400, and the
    resistance it computes is a number: never NaN, never an infinity. *)
Theorem divider_never_divides_by_zero (z : Z) :
  let raw := wrap_int16 z in
  let den := (DIVIDER_VREF - voltage_of_raw raw)%f32 in
  finite_nonzero den = true /\
  ((F32.zero <? den)%f32 = true <-> raw < 26400) /\
  is_number (r_therm_of_raw raw) = true.
Proof.
  cbv zeta.
  pose proof (int16_all_spec _ divider_ok_all _ (wrap_int16_range z)) as H.
  unfold divider_ok in H. cbv zeta in H.
  apply andb_prop in H. destruct H as [H Hr].
  apply andb_prop in H. destruct H as [Hd He].
  apply Bool.eqb_prop in He.
  split; [exact Hd|]. split; [|exact Hr].
  rewrite He. apply Z.ltb_lt.
Qed.

(** X12. Over the counts that have a resistance, 1 to 26399, the
    resistance computed from the divider is strictly increasing in the
    count. *)
Theorem resistance_strictly_increasing (z1 z2 : Z) :
  let a := wrap_int16 z1 in
  let b := wrap_int16 z2 in
  0 < a -> a < b -> b < 26400 ->
  (r_therm_of_raw a <? r_therm_of_raw b)%f32 = true.
Proof.
  cbv zeta. intros Ha Hab Hb.
  replace (wrap_int16 z2)
    with (wrap_int16 z1 + 1
          + Z.of_nat (Z.to_nat (wrap_int16 z2 - wrap_int16 z1 - 1)))
    by (rewrite Z2Nat.id; lia).
  apply resistance_rises_from; [exact Ha|]. rewrite Z2Nat.id; lia.
Qed.

(** X16. [logf] is only called inside its domain: for every count that
    has a resistance its argument, the ratio of the resistance to the
    nominal one, is a finite number above zero, between 2^-15 and 2^15. *)
Theorem logf_argument_in_domain (z : Z) :
  let raw := wrap_int16 z in
  let x := (r_therm_of_raw raw / THERM_NOMINAL_R)%f32 in
  (r_therm_of_raw raw <=? F32.zero)%f32 = false ->
  finite_nonzero x = true /\ (F32.zero <? x)%f32 = true /\
  (F32.lit 1 32768 <=? x)%f32 = true /\ (x <=? F32.lit 32768 1)%f32 = true.
Proof.
  cbv zeta. intros Hr.
  pose proof (int16_all_spec _ ratio_ok_all _ (wrap_int16_range z)) as H.
  unfold ratio_ok in H. cbv zeta in H. rewrite Hr in H.
  apply andb_prop in H. destruct H as [H H4].
  apply andb_prop in H. destruct H as [H H3].
  apply andb_prop in H. destruct H as [H1 H2].
  repeat split; assumption.
Qed.

(** X11. Whatever the count, the temperature that [thermistor_temp]
    computes is the sentinel -999, or NaN because [logf] returned NaN, or
    not below -273.15: for [logf] in its range no reading other than the
    sentinel falls below absolute zero. *)
Theorem temperature_not_below_absolute_zero (logf : float -> float) (z : Z) :
  logf_in_range logf ->
  let raw := wrap_int16 z in
  let t := temp_of_raw logf raw in
  t = SENTINEL \/
  (is_nan (logf (r_therm_of_raw raw / THERM_NOMINAL_R)%f32) = true /\
   is_nan t = true) \/
  (F32.lit (-27315) 100 <=? t)%f32 = true.
Proof.
  intros H. cbv zeta.
  pose proof (int16_all_spec raw_ok raw_ok_all _ (wrap_int16_range z)) as Hok.
  unfold raw_ok in Hok. cbv zeta in Hok. unfold temp_of_raw.
  destruct (r_therm_of_raw (wrap_int16 z) <=? F32.zero)%f32;
    [left; reflexivity | right].
  apply andb_prop in Hok. destruct Hok as [_ Hratio].
  apply steinhart_temp_range; assumption.
Qed.

Section CycleSamples.

Variable logf sinf cosf : float -> float.
Variable atan2f : float -> float -> float.
Variable env : Env.

(** X13. What the peaks of a result are, on the samples of the cycle. The
    baseline of a channel is the average of its ten readings, the rise of a
    sample is its reading less the baseline. For each channel no sample of
    the cycle rose above the reported peak; and the peak is +0 with time +0,
    or it is the rise of a sample, the first one to reach it, and the time
    is the time of that sample. *)
Theorem peak_is_first_maximum (uninit : FlowResult) (fuel : nat)
        (w w' : World) (r : FlowResult) :
  run_heat_pulse logf sinf cosf atan2f env uninit fuel w = Some (r, w') ->
  exists n,
    conversions w' = (conversions w + 40 + 4 * n)%nat /\
    forall j, (j < 4)%nat ->
      let dt k := rise logf env (conversions w) k j in
      let at_s k := elapsed_of env (clock_reads w) k in
      let peak := get (peak_temps r) j in
      let time := get (peak_times r) j in
      (forall k, (k < n)%nat -> (peak <? dt k)%f32 = false) /\
      ((peak = F32.zero /\ time = F32.zero) \/
       exists k, (k < n)%nat /\ peak = dt k /\ time = at_s k /\
                 forall k', (k' < k)%nat -> (dt k <=? dt k')%f32 = false).
Proof.
  intros E. destruct (run_heat_pulse_tracked _ _ _ _ _ _ _ _ _ _ E)
    as (n & Hn & T).
  exists n. split; [exact Hn|]. intros j Hj. exact (T j Hj).
Qed.

(** X14. A channel of which every conversion reads a count without a
    resistance never shows a rise: its baseline and its readings are the
    sentinel alike, and its peak and time stay +0, whatever the other
    channels read. *)
Theorem open_channel_never_rises (uninit : FlowResult) (fuel : nat)
        (w w' : World) (r : FlowResult) (j : nat) :
  (j < 4)%nat -> open_channel env j ->
  run_heat_pulse logf sinf cosf atan2f env uninit fuel w = Some (r, w') ->
  get (peak_temps r) j = F32.zero /\ get (peak_times r) j = F32.zero.
Proof. apply run_heat_pulse_open_channel. Qed.

(** X15. A cycle is reported stagnant exactly when no sample of any
    channel rose to the threshold of 0.05 above the baseline of its
    channel. *)
Theorem stagnant_iff_no_rise (uninit : FlowResult) (fuel : nat)
        (w w' : World) (r : FlowResult) :
  run_heat_pulse logf sinf cosf atan2f env uninit fuel w = Some (r, w') ->
  exists n,
    conversions w' = (conversions w + 40 + 4 * n)%nat /\
    ((get (peak_temps r) (dominant (peak_temps r)) <? STAGNANT_DT)%f32 = true
     <->
     forall j k, (j < 4)%nat -> (k < n)%nat ->
       (STAGNANT_DT <=? rise logf env (conversions w) k j)%f32 = false).
Proof.
  intros E. destruct (run_heat_pulse_tracked _ _ _ _ _ _ _ _ _ _ E)
    as (n & Hn & T).
  exists n. split; [exact Hn|].
  pose proof (run_heat_pulse_inv _ _ _ _ _ _ _ _ _ _ E)
    as (peak_dt & peak_time & Hr & N).
  assert (N' : nonneg4 (peak_temps r))
    by (rewrite Hr, flow_estimate_peak_temps; exact N).
  exact (stagnant_guard (fun j k => rise logf env (conversions w) k j)
                        (elapsed_of env (clock_reads w)) n
                        (peak_temps r) (peak_times r) N' T).
Qed.

End CycleSamples.

(** ** The further properties on the test bench *)


Lemma cycle_reads_witness :
  exists n, (n < 601)%nat /\
            conversions Bench.pulse_world = (conversions boot + 40 + 4 * n)%nat /\
            clock_reads Bench.pulse_world = (clock_reads boot + 2 + 2 * n)%nat.
Proof.
  exact (cycle_reads Bench.logf Bench.sinf Bench.cosf Bench.atan2f
                     Bench.pulse Bench.garbage 601%nat boot
                     Bench.pulse_world Bench.pulse_result pulse_returns).
Defined.

Lemma peak_and_time_coupled_witness :
  (F32.zero <? get (peak_temps Bench.pulse_result) 0)%f32 = true /\
  (get (peak_temps Bench.pulse_result) 2 = F32.zero /\
   get (peak_times Bench.pulse_result) 2 = F32.zero).
Proof.
  pose proof (peak_and_time_coupled Bench.logf Bench.sinf Bench.cosf
                                    Bench.atan2f Bench.pulse Bench.garbage
                                    601%nat boot Bench.pulse_world
                                    Bench.pulse_result pulse_returns) as H.
  split.
  - destruct (H 0%nat ltac:(lia)) as [[Z _] | P]; [discriminate Z | exact P].
  - destruct (H 2%nat ltac:(lia)) as [Z | P]; [exact Z | discriminate P].
Defined.

Lemma bench_paced (env : Env) :
  clock_ms env = (fun n => 1000 + 50 * Z.of_nat n) -> paced env boot.
Proof.
  intros E. unfold paced. rewrite E. cbn [clock_reads boot].
  unfold FLOW_SAMPLE_MS, MAX_SAMPLES. repeat split; lia.
Defined.

Lemma samples_bounded_witness :
  exists r w' n,
    run_heat_pulse Bench.logf Bench.sinf Bench.cosf Bench.atan2f Bench.pulse
                   Bench.garbage 601 boot = Some (r, w') /\
    (n <= MAX_SAMPLES)%nat /\
    conversions w' = (conversions boot + 40 + 4 * n)%nat /\
    rev (events w') = rev (events boot) ++ cycle_events n.
Proof.
  apply (samples_bounded Bench.logf Bench.sinf Bench.cosf Bench.atan2f
                         Bench.pulse Bench.garbage 601%nat boot).
  - apply bench_paced. reflexivity.
  - unfold MAX_SAMPLES. lia.
Defined.

Lemma unplugged_open : open_circuit unplugged.
Proof. intros n channel. cbv zeta. left. vm_compute. discriminate. Defined.

Lemma open_circuit_reads_stagnant_witness :
  exists r w',
    run_heat_pulse Bench.logf Bench.sinf Bench.cosf Bench.atan2f unplugged
                   Bench.garbage 601 boot = Some (r, w') /\
    r = no_flow.
Proof.
  destruct (run_heat_pulse_returns Bench.logf Bench.sinf Bench.cosf
              Bench.atan2f unplugged Bench.garbage 601%nat 600%nat boot
              (bench_window_over unplugged eq_refl) ltac:(lia))
    as (r & w' & E).
  exists r, w'. split; [exact E|].
  exact (open_circuit_reads_stagnant Bench.logf Bench.sinf Bench.cosf
           Bench.atan2f unplugged Bench.garbage 601%nat boot w' r
           unplugged_open E).
Defined.

Lemma velocity_positive_bounded_witness :
  (F32.zero <? velocity_cm_day Bench.pulse_result)%f32 = true /\
  (velocity_cm_day Bench.pulse_result <=? F32.lit 1800 1)%f32 = true.
Proof.
  apply (proj1 (velocity_positive_bounded
                  Bench.logf Bench.sinf Bench.cosf Bench.atan2f Bench.pulse
                  Bench.garbage 601%nat boot Bench.pulse_world
                  Bench.pulse_result pulse_returns)).
  vm_compute. reflexivity.
Defined.

Lemma direction_within_0_360_witness :
  (F32.zero <=? direction_deg Bench.pulse_result)%f32 = true /\
  (direction_deg Bench.pulse_result <=? F32.lit 360 1)%f32 = true.
Proof.
  apply (direction_within_0_360
           Bench.logf Bench.sinf Bench.cosf Bench.atan2f Bench.pulse
           Bench.garbage 601%nat boot Bench.pulse_world
           Bench.pulse_result pulse_returns); vm_compute; reflexivity.
Defined.

Lemma resistance_strictly_increasing_witness :
  (r_therm_of_raw 13000 <? r_therm_of_raw 13200)%f32 = true.
Proof.
  apply (resistance_strictly_increasing 13000 13200); vm_compute; reflexivity.
Defined.

Lemma temperature_not_below_absolute_zero_witness :
  let t := temp_of_raw Bench.logf 13200 in
  t = SENTINEL \/
  (is_nan (Bench.logf (r_therm_of_raw 13200 / THERM_NOMINAL_R)%f32) = true /\
   is_nan t = true) \/
  (F32.lit (-27315) 100 <=? t)%f32 = true.
Proof.
  exact (temperature_not_below_absolute_zero Bench.logf 13200
                                             bench_logf_in_range).
Defined.

Lemma logf_argument_in_domain_witness :
  let x := (r_therm_of_raw 13200 / THERM_NOMINAL_R)%f32 in
  finite_nonzero x = true /\ (F32.zero <? x)%f32 = true /\
  (F32.lit 1 32768 <=? x)%f32 = true /\ (x <=? F32.lit 32768 1)%f32 = true.
Proof.
  apply (logf_argument_in_domain 13200). vm_compute. reflexivity.
Defined.

Lemma peak_is_first_maximum_witness :
  exists n,
    conversions Bench.pulse_world = (conversions boot + 40 + 4 * n)%nat /\
    forall j, (j < 4)%nat ->
      let dt k := rise Bench.logf Bench.pulse (conversions boot) k j in
      let at_s k := elapsed_of Bench.pulse (clock_reads boot) k in
      let peak := get (peak_temps Bench.pulse_result) j in
      let time := get (peak_times Bench.pulse_result) j in
      (forall k, (k < n)%nat -> (peak <? dt k)%f32 = false) /\
      ((peak = F32.zero /\ time = F32.zero) \/
       exists k, (k < n)%nat /\ peak = dt k /\ time = at_s k /\
                 forall k', (k' < k)%nat -> (dt k <=? dt k')%f32 = false).
Proof.
  exact (peak_is_first_maximum Bench.logf Bench.sinf Bench.cosf Bench.atan2f
                               Bench.pulse Bench.garbage 601%nat boot
                               Bench.pulse_world Bench.pulse_result
                               pulse_returns).
Defined.

Lemma north_open_channel : open_channel north_open 0.
Proof. intros n. cbv zeta. left. vm_compute. discriminate. Defined.

Lemma open_channel_never_rises_witness :
  exists r w',
    run_heat_pulse Bench.logf Bench.sinf Bench.cosf Bench.atan2f north_open
                   Bench.garbage 601 boot = Some (r, w') /\
    get (peak_temps r) 0 = F32.zero /\ get (peak_times r) 0 = F32.zero.
Proof.
  destruct (run_heat_pulse_returns Bench.logf Bench.sinf Bench.cosf
              Bench.atan2f north_open Bench.garbage 601%nat 600%nat boot
              (bench_window_over north_open eq_refl) ltac:(lia))
    as (r & w' & E).
  exists r, w'. split; [exact E|].
  exact (open_channel_never_rises Bench.logf Bench.sinf Bench.cosf
           Bench.atan2f north_open Bench.garbage 601%nat boot w' r 0%nat
           ltac:(lia) north_open_channel E).
Defined.

Lemma stagnant_iff_no_rise_witness :
  exists n,
    conversions Bench.still_world = (conversions boot + 40 + 4 * n)%nat /\
    ((get (peak_temps Bench.still_result)
          (dominant (peak_temps Bench.still_result)) <? STAGNANT_DT)%f32 = true
     <->
     forall j k, (j < 4)%nat -> (k < n)%nat ->
       (STAGNANT_DT <=? rise Bench.logf Bench.still (conversions boot) k j)%f32
       = false).
Proof.
  exact (stagnant_iff_no_rise Bench.logf Bench.sinf Bench.cosf Bench.atan2f
                              Bench.still Bench.garbage 601%nat boot
                              Bench.still_world Bench.still_result
                              still_returns).
Defined.
